(** * nfc.llcp.pdu: the LLCP protocol data unit codec

    A shallow embedding of [src/nfc/llcp/pdu.py] (Python 2) and the
    properties of its wire format.

    Conventions of the embedding.
    - Python integers are [Z]; the shifts and masks of the source are
      [Z.shiftl], [Z.shiftr], [Z.land] and [Z.lor].
    - The input buffer is a [bytearray], modelled as [list byte]; a Python 2
      [str]/[bytes] value is a [list byte] as well.
    - A call either returns a value or raises: [result A].  The exception
      classes are those the source can raise, its own ([DecodeError],
      [EncodeError]) and the interpreter's ([struct.error], [TypeError],
      [AttributeError], [IndexError]).
    - Calls to [log.warn] and [log.debug] only write diagnostics; they never
      raise and never change a decoded value, and are left out.
    - [assert] statements are modelled as executed (no [-O]). *)

From Stdlib Require Import ZArith List Bool Lia.
From Stdlib Require Import Strings.String Strings.Ascii Strings.Byte.
From Stdlib Require Import DecimalString.
Import ListNotations.
Local Open Scope Z_scope.

Set Implicit Arguments.

(** ** Exceptions and results *)

Inductive exn : Type :=
| DecodeError (msg : string)
| EncodeError (msg : string)
| StructError                     (* struct.error *)
| TypeError
| AttributeError
| IndexError
| RecursionDepth.                 (* nesting deeper than the fuel given *)

Inductive result (A : Type) : Type :=
| Ok (a : A)
| Raise (e : exn).
Arguments Ok {A} a.
Arguments Raise {A} e.

Definition bind {A B : Type} (m : result A) (f : A -> result B) : result B :=
  match m with
  | Ok a => f a
  | Raise e => Raise e
  end.

Declare Scope py_scope.
Delimit Scope py_scope with py.
Notation "x <- m ;; k" := (bind m (fun x => k))
  (at level 61, m at next level, right associativity) : py_scope.
Notation "' pat <- m ;; k" := (bind m (fun x => match x with pat => k end))
  (at level 61, pat pattern, m at next level, right associativity) : py_scope.
Local Open Scope py_scope.

(** [if c: raise e] followed by the rest of the block. *)
Definition raise_if {A : Type} (c : bool) (e : exn) (k : result A) : result A :=
  if c then Raise e else k.

(** [assert c, msg] inside the [try ... except AssertionError] of
    [Parameter.decode], which re-raises it as a [DecodeError]. *)
Definition assert_ {A : Type} (c : bool) (msg : string) (k : result A) : result A :=
  if c then k else Raise (DecodeError msg).

Definition is_DecodeError {A : Type} (r : result A) : Prop :=
  exists msg, r = Raise (DecodeError msg).

Definition is_EncodeError {A : Type} (r : result A) : Prop :=
  exists msg, r = Raise (EncodeError msg).

Section MapM.
Variables (A B : Type) (f : A -> result B).

(** A list comprehension [[f(x) for x in l]] whose body may raise. *)
Fixpoint mapM (l : list A) : result (list B) :=
  match l with
  | [] => Ok []
  | x :: l' => y <- f x ;; ys <- mapM l' ;; Ok (y :: ys)
  end.
End MapM.

(** ** Bytes and buffers *)

Definition buffer : Type := list byte.

Definition Z_of_byte (b : byte) : Z := Z.of_N (Byte.to_N b).

Definition byte_of_Z (z : Z) : option byte :=
  if (0 <=? z) && (z <=? 255) then Byte.of_N (Z.to_N z) else None.

(** Python's [len]. *)
Definition len {A : Type} (l : list A) : Z := Z.of_nat (List.length l).
Arguments len : simpl never.

(** Python's slice [data[a:b]]: negative bounds count from the end, bounds
    are clipped to the sequence, an empty range gives the empty sequence. *)
Definition clip (n i : Z) : Z :=
  if i <? 0 then Z.max (i + n) 0 else Z.min i n.

Definition slice {A : Type} (data : list A) (a b : Z) : list A :=
  let a' := clip (len data) a in
  let b' := clip (len data) b in
  firstn (Z.to_nat (b' - a')) (skipn (Z.to_nat a') data).

(** Python's [data[i]] on a bytearray: an integer, [IndexError] out of range. *)
Definition index (data : buffer) (i : Z) : result Z :=
  let i' := if i <? 0 then i + len data else i in
  if (i' <? 0) || (len data <=? i') then Raise IndexError
  else match nth_error data (Z.to_nat i') with
       | Some b => Ok (Z_of_byte b)
       | None => Raise IndexError
       end.

(** Python's [seq[i]] on a list or a tuple: a negative index counts from the
    end, [IndexError] out of range. *)
Definition item {A : Type} (seq : list A) (i : Z) : result A :=
  let i' := if i <? 0 then i + len seq else i in
  if (i' <? 0) || (len seq <=? i') then Raise IndexError
  else match nth_error seq (Z.to_nat i') with
       | Some x => Ok x
       | None => Raise IndexError
       end.

(** ** The [struct] module

    Only the formats the source uses: network byte order, [B] (one unsigned
    byte), [H] (one unsigned big-endian 16-bit word) and [s] (raw bytes). *)

(** [struct.unpack_from]: the [n] bytes at [offset]; a negative offset counts
    from the end of the buffer; [struct.error] when the buffer is too short. *)
Definition read (data : buffer) (offset : Z) (n : nat) : result (list byte) :=
  let off := if offset <? 0 then offset + len data else offset in
  if (off <? 0) || (len data - off <? Z.of_nat n) then Raise StructError
  else Ok (firstn n (skipn (Z.to_nat off) data)).

Definition unpack_B (data : buffer) (offset : Z) : result Z :=
  bs <- read data offset 1 ;;
  match bs with [a] => Ok (Z_of_byte a) | _ => Raise StructError end.

Definition unpack_BB (data : buffer) (offset : Z) : result (Z * Z) :=
  bs <- read data offset 2 ;;
  match bs with
  | [a; b] => Ok (Z_of_byte a, Z_of_byte b)
  | _ => Raise StructError
  end.

Definition unpack_BBB (data : buffer) (offset : Z) : result (Z * Z * Z) :=
  bs <- read data offset 3 ;;
  match bs with
  | [a; b; c] => Ok (Z_of_byte a, Z_of_byte b, Z_of_byte c)
  | _ => Raise StructError
  end.

Definition unpack_BBBB (data : buffer) (offset : Z) : result (Z * Z * Z * Z) :=
  bs <- read data offset 4 ;;
  match bs with
  | [a; b; c; d] => Ok (Z_of_byte a, Z_of_byte b, Z_of_byte c, Z_of_byte d)
  | _ => Raise StructError
  end.

Definition unpack_H (data : buffer) (offset : Z) : result Z :=
  bs <- read data offset 2 ;;
  match bs with
  | [hi; lo] => Ok (Z_of_byte hi * 256 + Z_of_byte lo)
  | _ => Raise StructError
  end.

(** [struct.unpack_from('!B%ds' % n, data, offset)]: one byte and an [n]-byte
    string; a negative [n] makes the format itself invalid. *)
Definition unpack_Bs (n : Z) (data : buffer) (offset : Z) : result (Z * list byte) :=
  if n <? 0 then Raise StructError
  else
    bs <- read data offset (S (Z.to_nat n)) ;;
    match bs with
    | a :: s => Ok (Z_of_byte a, s)
    | [] => Raise StructError
    end.

(** [struct.pack]: a value outside the range of its format is a
    [struct.error]. *)
Definition pack_B (v : Z) : result (list byte) :=
  match byte_of_Z v with
  | Some b => Ok [b]
  | None => Raise StructError
  end.

Definition pack_H (v : Z) : result (list byte) :=
  if (0 <=? v) && (v <=? 65535) then
    hi <- pack_B (Z.shiftr v 8) ;;
    lo <- pack_B (Z.land v 255) ;;
    Ok (hi ++ lo)
  else Raise StructError.

(** [struct.pack('!' + fmt, *args)] for a format of [B] and [H] items. *)
Inductive fmt : Type := fmt_B | fmt_H.

Fixpoint pack (f : list fmt) (args : list Z) : result (list byte) :=
  match f, args with
  | [], [] => Ok []
  | fmt_B :: f', v :: args' => x <- pack_B v ;; xs <- pack f' args' ;; Ok (x ++ xs)
  | fmt_H :: f', v :: args' => x <- pack_H v ;; xs <- pack f' args' ;; Ok (x ++ xs)
  | _, _ => Raise StructError
  end.
Arguments pack : simpl never.

(** The [%] operator on a format string and a tuple: the number of conversion
    specifiers must be the number of items, or it raises [TypeError]
    ("not all arguments converted during string formatting"). *)
Fixpoint conversions (s : string) : nat :=
  match s with
  | EmptyString => 0%nat
  | String c s' =>
      if Ascii.eqb c "%"%char then
        match s' with
        | EmptyString => 0%nat
        | String _ s'' => S (conversions s'')
        end
      else conversions s'
  end.

(** ["%d" % n]. *)
Definition str_d (n : Z) : string := NilZero.string_of_int (Z.to_int n).

Definition percent (s : string) (items : nat) : result string :=
  if Nat.eqb (conversions s) items then Ok s else Raise TypeError.

(** ** class Parameter: the TLV codec

    (The module is called [Param]: the class name is a reserved word.) *)

(** The value of a TLV, in the shapes [Parameter.decode] returns: an integer,
    a pair of integers, a byte string, or a pair of an integer and a byte
    string. *)
Inductive value : Type :=
| V_int (n : Z)
| V_pair (a b : Z)
| V_bytes (s : list byte)
| V_tid_sn (tid : Z) (sn : list byte).

Definition tlv : Type := (Z * Z * value)%type.

Module Param.

Definition VERSION := 1.
Definition MIUX := 2.
Definition WKS := 3.
Definition LTO := 4.
Definition RW := 5.
Definition SN := 6.
Definition OPT := 7.
Definition SDREQ := 8.
Definition SDRES := 9.
Definition ECPK := 10.
Definition RN := 11.

(** [Parameter.decode(data, offset, size)].  The function has no [return]
    for a type code outside 1..11: Python then returns [None], here
    [Ok None]. *)
Definition decode (data : buffer) (offset size : Z) : result (option tlv) :=
  '(T, L) <- unpack_BB data offset ;;
  assert_ (L <=? size - 2) ("TLV length error for T=" ++ str_d T) (
  if T =? VERSION then
    assert_ (L =? 1) "VERSION TLV length error" (
    version <- unpack_B data (offset + 2) ;;
    Ok (Some (T, L, V_pair (Z.shiftr version 4) (Z.land version 15))))
  else if T =? MIUX then
    assert_ (L =? 2) "MIUX TLV length error" (
    miux <- unpack_H data (offset + 2) ;;
    Ok (Some (T, L, V_int (Z.land miux 2047))))
  else if T =? WKS then
    assert_ (L =? 2) "WKS TLV length error" (
    wks <- unpack_H data (offset + 2) ;;
    Ok (Some (T, L, V_int wks)))
  else if T =? LTO then
    assert_ (L =? 1) "LTO TLV length error" (
    lto <- unpack_B data (offset + 2) ;;
    Ok (Some (T, L, V_int lto)))
  else if T =? RW then
    assert_ (L =? 1) "RW TLV length error" (
    rw <- unpack_B data (offset + 2) ;;
    Ok (Some (T, L, V_int rw)))
  else if T =? SN then
    Ok (Some (T, L, V_bytes (slice data (offset + 2) (offset + 2 + L))))
  else if T =? OPT then
    assert_ (L =? 1) "OPT TLV length error" (
    opt <- unpack_B data (offset + 2) ;;
    Ok (Some (T, L, V_int opt)))
  else if T =? SDREQ then
    '(tid, sn) <- unpack_Bs (L - 1) data (offset + 2) ;;
    Ok (Some (T, L, V_tid_sn tid sn))
  else if T =? SDRES then
    assert_ (L =? 2) "SDRES TLV length error" (
    '(tid, sap) <- unpack_BB data (offset + 2) ;;
    Ok (Some (T, L, V_pair tid sap)))
  else if T =? ECPK then
    Ok (Some (T, L, V_bytes (slice data (offset + 2) (offset + 2 + L))))
  else if T =? RN then
    Ok (Some (T, L, V_bytes (slice data (offset + 2) (offset + 2 + L))))
  else Ok None).

(** [raise EncodeError(fmt % (T, len(V), V))]: the message is built first,
    from a three-item tuple. *)
Definition raise_EncodeError {A : Type} (fmt : string) : result A :=
  msg <- percent fmt 3 ;; Raise (EncodeError msg).

(** [Parameter.encode(T, V)].  [V] is expected in the shape that [decode]
    returns for [T]; a value of another shape makes the interpreter fail
    in the subscript, the arithmetic or [struct.pack], which is modelled
    as [TypeError]. *)
Definition encode (T : Z) (V : value) : result (list byte) :=
  if T =? VERSION then
    match V with
    | V_pair a b => pack [fmt_B; fmt_B; fmt_B] [T; 1; Z.lor (Z.shiftl a 4) b]
    | _ => Raise TypeError
    end
  else if (T =? LTO) || (T =? RW) || (T =? OPT) then
    match V with
    | V_int n => pack [fmt_B; fmt_B; fmt_B] [T; 1; n]
    | _ => Raise TypeError
    end
  else if (T =? MIUX) || (T =? WKS) then
    match V with
    | V_int n => pack [fmt_B; fmt_B; fmt_H] [T; 2; n]
    | _ => Raise TypeError
    end
  else if (T =? SN) || (T =? ECPK) || (T =? RN) then
    match V with
    | V_bytes s =>
        if len s >? 255 then raise_EncodeError "can't encode TLV %r"
        else hd <- pack [fmt_B; fmt_B] [T; len s] ;; Ok (hd ++ s)
    | _ => Raise TypeError
    end
  else if T =? SDREQ then
    match V with
    | V_tid_sn tid sn =>
        if len sn >? 254 then raise_EncodeError "can't encode TLV %r"
        else hd <- pack [fmt_B; fmt_B; fmt_B] [T; 1 + len sn; tid] ;; Ok (hd ++ sn)
    | _ => Raise TypeError
    end
  else if T =? SDRES then
    match V with
    | V_pair tid sap => pack [fmt_B; fmt_B; fmt_B; fmt_B] [T; 2; tid; sap]
    | _ => Raise TypeError
    end
  else
    match V with
    | V_int _ => Raise TypeError          (* len(V) of an integer *)
    | _ => raise_EncodeError "unknown TLV %r"
    end.

End Param.

(** ** The class hierarchy

    Method lookup follows the method resolution order; it decides which
    [__len__] an instance has and what a [super(...)] call reaches. *)

Module Cls.

Inductive class : Type :=
| object
| ProtocolDataUnit
| NumberedProtocolDataUnit
| Symmetry
| ParameterExchange
| AggregatedFrame
| UnnumberedInformation
| Connect
| Disconnect
| ConnectionComplete
| DisconnectedMode
| FrameReject
| ServiceNameLookup
| DataProtectionSetup
| Information
| ReceiveReady
| ReceiveNotReady
| UnknownProtocolDataUnit.

Definition base (c : class) : option class :=
  match c with
  | object => None
  | ProtocolDataUnit => Some object
  | Information | ReceiveReady | ReceiveNotReady => Some NumberedProtocolDataUnit
  | _ => Some ProtocolDataUnit
  end.

Fixpoint mro_from (depth : nat) (c : class) : list class :=
  match depth with
  | O => []
  | S d => c :: match base c with
                | Some b => mro_from d b
                | None => []
                end
  end.

(** No class is more than three steps away from [object]. *)
Definition mro (c : class) : list class := mro_from 4 c.

Inductive member : Type := m_init | m_len.

(** Which class bodies contain a [def] of the member. *)
Definition defines (c : class) (m : member) : bool :=
  match m, c with
  | m_init, _ => true
  | m_len, (object | ProtocolDataUnit | ReceiveReady | ReceiveNotReady) => false
  | m_len, _ => true
  end.

Definition class_eqb (a b : class) : bool :=
  match a, b with
  | object, object | ProtocolDataUnit, ProtocolDataUnit
  | NumberedProtocolDataUnit, NumberedProtocolDataUnit
  | Symmetry, Symmetry | ParameterExchange, ParameterExchange
  | AggregatedFrame, AggregatedFrame
  | UnnumberedInformation, UnnumberedInformation
  | Connect, Connect | Disconnect, Disconnect
  | ConnectionComplete, ConnectionComplete
  | DisconnectedMode, DisconnectedMode | FrameReject, FrameReject
  | ServiceNameLookup, ServiceNameLookup
  | DataProtectionSetup, DataProtectionSetup
  | Information, Information | ReceiveReady, ReceiveReady
  | ReceiveNotReady, ReceiveNotReady
  | UnknownProtocolDataUnit, UnknownProtocolDataUnit => true
  | _, _ => false
  end.

(** Attribute lookup on an instance of class [c]. *)
Definition resolve (c : class) (m : member) : option class :=
  find (fun k => defines k m) (mro c).

Fixpoint after (k : class) (l : list class) : list class :=
  match l with
  | [] => []
  | x :: l' => if class_eqb x k then l' else after k l'
  end.

(** [super(k, self).m] for an instance [self] of class [c]. *)
Definition super (k c : class) (m : member) : option class :=
  find (fun x => defines x m) (after k (mro c)).

End Cls.

(** [object.__init__] accepts no argument besides the instance when the class
    overrides [__init__] and not [__new__], which all classes here do. *)
Definition object_init (nargs : nat) : result unit :=
  if Nat.eqb nargs 0 then Ok tt else Raise TypeError.

(** [super(k, self).__init__(a1, ..., an)], for the effect it has on whether
    construction succeeds: [ProtocolDataUnit.__init__] and
    [NumberedProtocolDataUnit.__init__] store their arguments. *)
Definition super_init (k c : Cls.class) (nargs : nat) : result unit :=
  match Cls.super k c Cls.m_init with
  | Some Cls.object => object_init nargs
  | Some _ => Ok tt
  | None => Raise AttributeError
  end.

(** ** PDU values

    One constructor per class, named by the class attribute [name], with the
    instance attributes as fields.  An attribute whose constructor default
    is [None] is an [option]. *)

#[warning="-register-all"]
Inductive pdu : Type :=
| SYMM (dsap ssap : Z)
| PAX (dsap ssap : Z) (version : Z * Z) (miu wks lto lsc dpc : Z)
| AGF (dsap ssap : Z) (aggregate : list pdu)
| UI (dsap ssap : Z) (data : list byte)
| CONNECT (dsap ssap miu rw : Z) (sn : list byte)
| DISC (dsap ssap : Z)
| CC (dsap ssap miu rw : Z)
| DM (dsap ssap reason : Z)
| FRMR (dsap ssap flags ptype ns nr vs vr vsa vra : Z)
| SNL (dsap ssap : Z) (sdreq : list (Z * list byte)) (sdres : list (Z * Z))
| DPS (dsap ssap : Z) (ecpk rn : option (list byte))
| INFO (dsap ssap : Z) (ns nr : option Z) (data : list byte)
| RR (dsap ssap : Z) (nr : option Z)
| RNR (dsap ssap : Z) (nr : option Z)
| UNKNOWN (ptype dsap ssap : Z) (payload : list byte).

Definition class_of (v : pdu) : Cls.class :=
  match v with
  | SYMM _ _ => Cls.Symmetry
  | PAX _ _ _ _ _ _ _ _ => Cls.ParameterExchange
  | AGF _ _ _ => Cls.AggregatedFrame
  | UI _ _ _ => Cls.UnnumberedInformation
  | CONNECT _ _ _ _ _ => Cls.Connect
  | DISC _ _ => Cls.Disconnect
  | CC _ _ _ _ => Cls.ConnectionComplete
  | DM _ _ _ => Cls.DisconnectedMode
  | FRMR _ _ _ _ _ _ _ _ _ _ => Cls.FrameReject
  | SNL _ _ _ _ => Cls.ServiceNameLookup
  | DPS _ _ _ _ => Cls.DataProtectionSetup
  | INFO _ _ _ _ _ => Cls.Information
  | RR _ _ _ => Cls.ReceiveReady
  | RNR _ _ _ => Cls.ReceiveNotReady
  | UNKNOWN _ _ _ _ => Cls.UnknownProtocolDataUnit
  end.

(** Python truth value of an integer. *)
Definition truthy (z : Z) : bool := negb (z =? 0).

(** ** class ProtocolDataUnit, class NumberedProtocolDataUnit *)

Module ProtocolDataUnit.

Definition decode_header (data : buffer) (offset size : Z) : result (Z * Z) :=
  raise_if (size <? 2) (DecodeError "insufficient pdu header bytes") (
  '(dsap, ssap) <- unpack_BB data offset ;;
  Ok (Z.shiftr dsap 2, Z.land ssap 63)).

Definition encode_header (ptype dsap ssap : Z) : result (list byte) :=
  raise_if (dsap >? 63) (EncodeError "DSAP out of bounds") (
  raise_if (ssap >? 63) (EncodeError "SSAP out of bounds") (
  pack [fmt_H] [Z.lor (Z.lor (Z.shiftl dsap 10) (Z.shiftl ptype 6)) ssap])).

End ProtocolDataUnit.

Module NumberedProtocolDataUnit.

Definition decode_header (data : buffer) (offset size : Z)
  : result (Z * Z * Z * Z) :=
  raise_if (size <? 3) (DecodeError "numbered pdu header length error") (
  '(dsap, ssap, sequence) <- unpack_BBB data offset ;;
  Ok (Z.shiftr dsap 2, Z.land ssap 63, Z.shiftr sequence 4, Z.land sequence 15)).

(** [None > 15] is false in Python 2; [x | None] is a [TypeError]. *)
Definition encode_header (ptype dsap ssap : Z) (ns nr : option Z)
  : result (list byte) :=
  raise_if (dsap >? 63) (EncodeError "DSAP out of bounds") (
  raise_if (ssap >? 63) (EncodeError "SSAP out of bounds") (
  raise_if (match nr with Some r => r >? 15 | None => false end)
           (EncodeError "N(R) out of bounds") (
  raise_if (match ns with Some s => truthy s && (s >? 15) | None => false end)
           (EncodeError "N(S) out of bounds") (
  let hi := match ns with
            | Some s => if truthy s then Z.shiftl s 4 else 0
            | None => 0
            end in
  match nr with
  | None => Raise TypeError
  | Some r =>
      pack [fmt_H; fmt_B]
           [Z.lor (Z.lor (Z.shiftl dsap 10) (Z.shiftl ptype 6)) ssap; Z.lor hi r]
  end)))).

Definition len_ : Z := 3.

End NumberedProtocolDataUnit.

(** ** The TLV loop

    Five classes decode their payload with the same loop,

      [while size >= 2:]
      [    T, L, V = Parameter.decode(data, offset, size)]
      [    <body>]
      [    offset, size = offset + 2 + L, size - 2 - L]

    which differ in the body only.  [T, L, V = None] is a [TypeError].
    The loop runs on a counter [n] that starts at [size]: every pass takes at
    least two bytes off [size], so the counter never ends the loop early
    ([tlv_loop_eq] below is the loop's own equation). *)

Section TlvLoop.
Variable St : Type.
Variable body : St -> tlv -> result St.

Fixpoint tlv_loop_n (n : nat) (data : buffer) (offset size : Z) (st : St)
  : result St :=
  match n with
  | O => Ok st
  | S n' =>
      if size >=? 2 then
        r <- Param.decode data offset size ;;
        match r with
        | None => Raise TypeError
        | Some (T, L, V) =>
            st' <- body st (T, L, V) ;;
            tlv_loop_n n' data (offset + 2 + L) (size - 2 - L) st'
        end
      else Ok st
  end.

Definition tlv_loop (data : buffer) (offset size : Z) (st : St) : result St :=
  tlv_loop_n (Z.to_nat size) data offset size st.
End TlvLoop.

(** [if cond: data += Parameter.encode(T, V)]. *)
Definition add_if (c : bool) (T : Z) (V : value) (data : list byte)
  : result (list byte) :=
  if c then p <- Param.encode T V ;; Ok (data ++ p) else Ok data.

(** ** The PDU classes *)

Module Symmetry.

Definition decode (data : buffer) (offset size : Z) : result pdu :=
  '(dsap, ssap) <- ProtocolDataUnit.decode_header data offset size ;;
  raise_if (negb (dsap =? 0)) (DecodeError "SYMM PDU DSAP must be zero") (
  raise_if (negb (ssap =? 0)) (DecodeError "SYMM PDU SSAP must be zero") (
  raise_if (size >=? 3) (DecodeError "SYMM PDU DATA must be empty") (
  Ok (SYMM dsap ssap)))).

Definition encode (dsap ssap : Z) : result (list byte) :=
  ProtocolDataUnit.encode_header 0 dsap ssap.

Definition len_ : Z := 2.

End Symmetry.

Module ParameterExchange.

Record fields : Type := mk
  { version : Z * Z; miu : Z; wks : Z; lto : Z; lsc : Z; dpc : Z }.

(** The defaults of [__init__]. *)
Definition init : fields :=
  {| version := (1, 0); miu := 128; wks := 3; lto := 100; lsc := 3; dpc := 0 |}.

Definition body (st : fields) (t : tlv) : result fields :=
  let '(T, L, V) := t in
  if T =? Param.VERSION then
    match V with
    | V_pair a b => Ok (mk (a, b) (miu st) (wks st) (lto st) (lsc st) (dpc st))
    | _ => Raise TypeError
    end
  else if T =? Param.MIUX then
    match V with
    | V_int n => Ok (mk (version st) (128 + n) (wks st) (lto st) (lsc st) (dpc st))
    | _ => Raise TypeError
    end
  else if T =? Param.WKS then
    match V with
    | V_int n => Ok (mk (version st) (miu st) n (lto st) (lsc st) (dpc st))
    | _ => Raise TypeError
    end
  else if T =? Param.LTO then
    match V with
    | V_int n => Ok (mk (version st) (miu st) (wks st) (n * 10) (lsc st) (dpc st))
    | _ => Raise TypeError
    end
  else if T =? Param.OPT then
    match V with
    | V_int n => Ok (mk (version st) (miu st) (wks st) (lto st)
                        (Z.land n 3) (Z.land (Z.shiftr n 2) 1))
    | _ => Raise TypeError
    end
  else Ok st.

Definition decode (data : buffer) (offset size : Z) : result pdu :=
  '(dsap, ssap) <- ProtocolDataUnit.decode_header data offset size ;;
  raise_if (negb (dsap =? 0)) (DecodeError "PAX PDU DSAP must be zero") (
  raise_if (negb (ssap =? 0)) (DecodeError "PAX PDU SSAP must be zero") (
  st <- tlv_loop body data (offset + 2) (size - 2) init ;;
  Ok (PAX dsap ssap (version st) (miu st) (wks st) (lto st) (lsc st) (dpc st)))).

(** A version is a tuple of two items, which is true in a condition. *)
Definition encode (dsap ssap : Z) (version : Z * Z) (miu wks lto lsc dpc : Z)
  : result (list byte) :=
  data <- ProtocolDataUnit.encode_header 1 dsap ssap ;;
  data <- add_if true Param.VERSION (V_pair (fst version) (snd version)) data ;;
  data <- add_if (truthy miu && (miu >? 128)) Param.MIUX (V_int (miu - 128)) data ;;
  data <- add_if (truthy wks) Param.WKS (V_int wks) data ;;
  data <- add_if (truthy lto && negb (lto =? 100)) Param.LTO (V_int (lto / 10)) data ;;
  data <- add_if (truthy lsc || truthy dpc) Param.OPT
                 (V_int (Z.lor (Z.shiftl dpc 2) lsc)) data ;;
  Ok data.

Definition len_ (version : Z * Z) (miu wks lto lsc dpc : Z) : Z :=
  2
  + 3
  + (if truthy miu && (miu >? 128) then 4 else 0)
  + (if truthy wks then 4 else 0)
  + (if truthy lto && negb (lto =? 100) then 3 else 0)
  + (if truthy lsc || truthy dpc then 3 else 0).

(** The properties [lsc_text] and [dpc_text]: a tuple of texts, indexed by
    the attribute. *)
Definition lsc_text (lsc : Z) : result string :=
  item ["link service class unknown at activation";
        "connection-less link service only";
        "connection-oriented link service only";
        "connection-less and connection-oriented"]%string lsc.

Definition dpc_text (dpc : Z) : result string :=
  item ["secure data transfer mode not supported";
        "secure data transfer mode is supported"]%string dpc.

End ParameterExchange.

(** [class AggregatedFrameIterator]: the list it walks and the number of
    entries already returned.  A call of [next] returns an entry and the
    advanced iterator, raises [StopIteration], or fails in the subscript. *)
Module AggregatedFrameIterator.

Record t : Type := mk { aggregate : list pdu; current : Z }.

Definition init (aggregate : list pdu) : t := mk aggregate 0.

Inductive outcome : Type :=
| Return (p : pdu) (it : t)
| StopIteration
| Error (e : exn).

Definition next (it : t) : outcome :=
  if current it =? len (aggregate it) then StopIteration
  else
    let it' := mk (aggregate it) (current it + 1) in
    match item (aggregate it') (current it' - 1) with
    | Ok p => Return p it'
    | Raise e => Error e
    end.

(** [list(it)]: [next] until it raises [StopIteration].  [n] bounds the
    number of calls. *)
Fixpoint drain (n : nat) (it : t) (acc : list pdu) : result (list pdu) :=
  match n with
  | O => Raise RecursionDepth
  | S n' =>
      match next it with
      | Return p it' => drain n' it' (acc ++ [p])
      | StopIteration => Ok acc
      | Error e => Raise e
      end
  end.

End AggregatedFrameIterator.

Module AggregatedFrame.

Section Decode.
(** The module-level [decode], which the loop calls for each entry. *)
Variable decode_pdu : buffer -> Z -> Z -> result pdu.

(** [while size > 0:], on a counter that starts at [size]
    ([agf_loop_eq] below is the loop's own equation). *)
Fixpoint loop_n (n : nat) (data : buffer) (offset size : Z)
         (aggregate : list pdu) : result (list pdu) :=
  match n with
  | O => Ok aggregate
  | S n' =>
      if size >? 0 then
        pdu_size <- unpack_H data offset ;;
        p <- decode_pdu data (offset + 2) pdu_size ;;
        loop_n n' data (offset + 2 + pdu_size) (size - 2 - pdu_size)
               (aggregate ++ [p])
      else Ok aggregate
  end.

Definition loop (data : buffer) (offset size : Z) (aggregate : list pdu)
  : result (list pdu) :=
  loop_n (Z.to_nat size) data offset size aggregate.

Definition decode (data : buffer) (offset size : Z) : result pdu :=
  '(dsap, ssap) <- ProtocolDataUnit.decode_header data offset size ;;
  raise_if (negb (dsap =? 0)) (DecodeError "AGF PDU DSAP must be zero") (
  raise_if (negb (ssap =? 0)) (DecodeError "AGF PDU SSAP must be zero") (
  aggregate <- loop data (offset + 2) (size - 2) [] ;;
  Ok (AGF dsap ssap aggregate))).
End Decode.

(** [for encoded_pdu in ...: data += struct.pack('!H', len(encoded_pdu)) + encoded_pdu]. *)
Fixpoint join (data : list byte) (encoded : list (list byte))
  : result (list byte) :=
  match encoded with
  | [] => Ok data
  | e :: rest => hd <- pack [fmt_H] [len e] ;; join (data ++ hd ++ e) rest
  end.

Section Encode.
Variable encode_pdu : pdu -> result (list byte).

Definition encode (dsap ssap : Z) (aggregate : list pdu) : result (list byte) :=
  data <- ProtocolDataUnit.encode_header 2 dsap ssap ;;
  encoded <- mapM encode_pdu aggregate ;;
  join data encoded.
End Encode.

Section Len.
Variable len_pdu : pdu -> result Z.

Definition len_ (aggregate : list pdu) : result Z :=
  sizes <- mapM (fun p => n <- len_pdu p ;; Ok (2 + n)) aggregate ;;
  Ok (2 + fold_right Z.add 0 sizes).
End Len.

(** [append] and [__iter__], on the list [_aggregate] of the instance. *)
Definition append (aggregate : list pdu) (p : pdu) : list pdu :=
  aggregate ++ [p].

Definition iter (aggregate : list pdu) : AggregatedFrameIterator.t :=
  AggregatedFrameIterator.init aggregate.

End AggregatedFrame.

Module UnnumberedInformation.

Definition decode (data : buffer) (offset size : Z) : result pdu :=
  '(dsap, ssap) <- ProtocolDataUnit.decode_header data offset size ;;
  let payload := slice data (offset + 2) (offset + size) in
  Ok (UI dsap ssap payload).

Definition encode (dsap ssap : Z) (data : list byte) : result (list byte) :=
  hd <- ProtocolDataUnit.encode_header 3 dsap ssap ;;
  Ok (hd ++ data).

Definition len_ (data : list byte) : Z := 2 + len data.

End UnnumberedInformation.

Module Connect.

Record fields : Type := mk { miu : Z; rw : Z; sn : list byte }.

Definition init : fields := {| miu := 128; rw := 1; sn := [] |}.

Definition body (st : fields) (t : tlv) : result fields :=
  let '(T, L, V) := t in
  if T =? Param.MIUX then
    match V with
    | V_int n => Ok (mk (128 + n) (rw st) (sn st))
    | _ => Raise TypeError
    end
  else if T =? Param.RW then
    match V with
    | V_int n => Ok (mk (miu st) n (sn st))
    | _ => Raise TypeError
    end
  else if T =? Param.SN then
    match V with
    | V_bytes s => Ok (mk (miu st) (rw st) s)
    | _ => Raise TypeError
    end
  else Ok st.

Definition decode (data : buffer) (offset size : Z) : result pdu :=
  '(dsap, ssap) <- ProtocolDataUnit.decode_header data offset size ;;
  st <- tlv_loop body data (offset + 2) (size - 2) init ;;
  Ok (CONNECT dsap ssap (miu st) (rw st) (sn st)).

Definition encode (dsap ssap miu rw : Z) (sn : list byte) : result (list byte) :=
  data <- ProtocolDataUnit.encode_header 4 dsap ssap ;;
  data <- add_if (truthy miu && (miu >? 128)) Param.MIUX (V_int (miu - 128)) data ;;
  data <- add_if (truthy rw && negb (rw =? 1)) Param.RW (V_int rw) data ;;
  data <- add_if (negb (len sn =? 0)) Param.SN (V_bytes sn) data ;;
  Ok data.

Definition len_ (miu rw : Z) (sn : list byte) : Z :=
  2
  + (if truthy miu && (miu >? 128) then 4 else 0)
  + (if truthy rw && negb (rw =? 1) then 3 else 0)
  + (if negb (len sn =? 0) then 2 + len sn else 0).

End Connect.

Module Disconnect.

Definition decode (data : buffer) (offset size : Z) : result pdu :=
  '(dsap, ssap) <- ProtocolDataUnit.decode_header data offset size ;;
  Ok (DISC dsap ssap).

Definition encode (dsap ssap : Z) : result (list byte) :=
  ProtocolDataUnit.encode_header 5 dsap ssap.

Definition len_ : Z := 2.

End Disconnect.

Module ConnectionComplete.

Record fields : Type := mk { miu : Z; rw : Z }.

Definition init : fields := {| miu := 128; rw := 1 |}.

Definition body (st : fields) (t : tlv) : result fields :=
  let '(T, L, V) := t in
  if T =? Param.MIUX then
    match V with
    | V_int n => Ok (mk (128 + n) (rw st))
    | _ => Raise TypeError
    end
  else if T =? Param.RW then
    match V with
    | V_int n => Ok (mk (miu st) n)
    | _ => Raise TypeError
    end
  else Ok st.

Definition decode (data : buffer) (offset size : Z) : result pdu :=
  '(dsap, ssap) <- ProtocolDataUnit.decode_header data offset size ;;
  st <- tlv_loop body data (offset + 2) (size - 2) init ;;
  Ok (CC dsap ssap (miu st) (rw st)).

Definition encode (dsap ssap miu rw : Z) : result (list byte) :=
  data <- ProtocolDataUnit.encode_header 6 dsap ssap ;;
  data <- add_if (truthy miu && (miu >? 128)) Param.MIUX (V_int (miu - 128)) data ;;
  data <- add_if (truthy rw && negb (rw =? 1)) Param.RW (V_int rw) data ;;
  Ok data.

Definition len_ (miu rw : Z) : Z :=
  2
  + (if truthy miu && (miu >? 128) then 4 else 0)
  + (if truthy rw && negb (rw =? 1) then 3 else 0).

End ConnectionComplete.

Module DisconnectedMode.

Definition decode (data : buffer) (offset size : Z) : result pdu :=
  raise_if (negb (size =? 3)) (DecodeError "DM PDU length error") (
  '(dsap, ssap) <- ProtocolDataUnit.decode_header data offset size ;;
  reason <- unpack_B data (offset + 2) ;;
  Ok (DM dsap ssap reason)).

Definition encode (dsap ssap reason : Z) : result (list byte) :=
  hd <- ProtocolDataUnit.encode_header 7 dsap ssap ;;
  r <- pack [fmt_B] [reason] ;;
  Ok (hd ++ r).

Definition len_ : Z := 3.

End DisconnectedMode.

Module FrameReject.

(** [struct.unpack_from('!BBBB', data, offset)]: the four bytes are read
    at [offset], where the header starts. *)
Definition decode (data : buffer) (offset size : Z) : result pdu :=
  raise_if (negb (size =? 6)) (DecodeError "FRMR PDU length error") (
  '(dsap, ssap) <- ProtocolDataUnit.decode_header data offset size ;;
  '(b0, b1, b2, b3) <- unpack_BBBB data offset ;;
  let '(flags, ptype) := (Z.shiftr b0 4, Z.land b0 15) in
  let '(ns, nr) := (Z.shiftr b1 4, Z.land b1 15) in
  let '(vs, vr) := (Z.shiftr b2 4, Z.land b2 15) in
  let '(vsa, vra) := (Z.shiftr b3 4, Z.land b3 15) in
  Ok (FRMR dsap ssap flags ptype ns nr vs vr vsa vra)).

(** [__init__] assigns [self.ptype = ptype] after the base class has set
    it to [0b1000]: the header is written with the rejected PDU's type. *)
Definition encode (dsap ssap flags ptype ns nr vs vr vsa vra : Z)
  : result (list byte) :=
  hd <- ProtocolDataUnit.encode_header ptype dsap ssap ;;
  body <- pack [fmt_B; fmt_B; fmt_B; fmt_B]
               [Z.lor (Z.shiftl flags 4) ptype; Z.lor (Z.shiftl ns 4) nr;
                Z.lor (Z.shiftl vs 4) vr; Z.lor (Z.shiftl vsa 4) vra] ;;
  Ok (hd ++ body).

Definition len_ : Z := 6.

End FrameReject.

Module ServiceNameLookup.

Record fields : Type := mk
  { sdreq : list (Z * list byte); sdres : list (Z * Z) }.

Definition init : fields := {| sdreq := []; sdres := [] |}.

(** [if T == SDREQ: ...] and [if T == SDRES: ... else: log.debug(...)] are
    two statements; the second one's [else] only logs. *)
Definition body (st : fields) (t : tlv) : result fields :=
  let '(T, L, V) := t in
  st <- (if T =? Param.SDREQ then
           match V with
           | V_tid_sn tid sn => Ok (mk (sdreq st ++ [(tid, sn)]) (sdres st))
           | _ => Raise TypeError
           end
         else Ok st) ;;
  if T =? Param.SDRES then
    match V with
    | V_pair tid sap => Ok (mk (sdreq st) (sdres st ++ [(tid, sap)]))
    | _ => Raise TypeError
    end
  else Ok st.

Definition decode (data : buffer) (offset size : Z) : result pdu :=
  '(dsap, ssap) <- ProtocolDataUnit.decode_header data offset size ;;
  st <- tlv_loop body data (offset + 2) (size - 2) init ;;
  Ok (SNL dsap ssap (sdreq st) (sdres st)).

(** [for x in xs: data += Parameter.encode(T, x)]. *)
Fixpoint add_all {A : Type} (T : Z) (to_value : A -> value) (xs : list A)
         (data : list byte) : result (list byte) :=
  match xs with
  | [] => Ok data
  | x :: xs' => data <- add_if true T (to_value x) data ;; add_all T to_value xs' data
  end.

Definition encode (dsap ssap : Z) (sdreq : list (Z * list byte))
           (sdres : list (Z * Z)) : result (list byte) :=
  data <- ProtocolDataUnit.encode_header 9 dsap ssap ;;
  data <- add_all Param.SDRES (fun x => V_pair (fst x) (snd x)) sdres data ;;
  data <- add_all Param.SDREQ (fun x => V_tid_sn (fst x) (snd x)) sdreq data ;;
  Ok data.

Definition len_ (sdreq : list (Z * list byte)) (sdres : list (Z * Z)) : Z :=
  2 + len sdres * 4
  + fold_right Z.add 0 (map (fun x : Z * list byte => 3 + len (snd x)) sdreq).

End ServiceNameLookup.

Module DataProtectionSetup.

Record fields : Type := mk { ecpk : option (list byte); rn : option (list byte) }.

Definition init : fields := {| ecpk := None; rn := None |}.

Definition body (st : fields) (t : tlv) : result fields :=
  let '(T, L, V) := t in
  if T =? Param.ECPK then
    match V with
    | V_bytes s => Ok (mk (Some s) (rn st))
    | _ => Raise TypeError
    end
  else if T =? Param.RN then
    match V with
    | V_bytes s => Ok (mk (ecpk st) (Some s))
    | _ => Raise TypeError
    end
  else Ok st.

Definition decode (data : buffer) (offset size : Z) : result pdu :=
  '(dsap, ssap) <- ProtocolDataUnit.decode_header data offset size ;;
  st <- tlv_loop body data (offset + 2) (size - 2) init ;;
  Ok (DPS dsap ssap (ecpk st) (rn st)).

(** Truth value of an attribute that is [None] or a byte string. *)
Definition present (x : option (list byte)) : bool :=
  match x with
  | Some s => negb (len s =? 0)
  | None => false
  end.

Definition bytes_of (x : option (list byte)) : list byte :=
  match x with
  | Some s => s
  | None => []
  end.

Definition encode (dsap ssap : Z) (ecpk rn : option (list byte))
  : result (list byte) :=
  data <- ProtocolDataUnit.encode_header 10 dsap ssap ;;
  data <- add_if (present ecpk) Param.ECPK (V_bytes (bytes_of ecpk)) data ;;
  data <- add_if (present rn) Param.RN (V_bytes (bytes_of rn)) data ;;
  Ok data.

Definition len_ (ecpk rn : option (list byte)) : Z :=
  2
  + (if present ecpk then 2 + len (bytes_of ecpk) else 0)
  + (if present rn then 2 + len (bytes_of rn) else 0).

End DataProtectionSetup.

Module Information.

Definition decode (data : buffer) (offset size : Z) : result pdu :=
  '(dsap, ssap, ns, nr) <- NumberedProtocolDataUnit.decode_header data offset size ;;
  let payload := slice data (offset + 3) (offset + size) in
  Ok (INFO dsap ssap (Some ns) (Some nr) payload).

Definition encode (dsap ssap : Z) (ns nr : option Z) (data : list byte)
  : result (list byte) :=
  hd <- NumberedProtocolDataUnit.encode_header 12 dsap ssap ns nr ;;
  Ok (hd ++ data).

Definition len_ (data : list byte) : Z := 3 + len data.

End Information.

Module ReceiveReady.

Definition decode (data : buffer) (offset size : Z) : result pdu :=
  '(dsap, ssap, ns, nr) <- NumberedProtocolDataUnit.decode_header data offset size ;;
  Ok (RR dsap ssap (Some nr)).

Definition encode (dsap ssap : Z) (nr : option Z) : result (list byte) :=
  NumberedProtocolDataUnit.encode_header 13 dsap ssap None nr.

End ReceiveReady.

Module ReceiveNotReady.

Definition decode (data : buffer) (offset size : Z) : result pdu :=
  '(dsap, ssap, ns, nr) <- NumberedProtocolDataUnit.decode_header data offset size ;;
  Ok (RNR dsap ssap (Some nr)).

Definition encode (dsap ssap : Z) (nr : option Z) : result (list byte) :=
  NumberedProtocolDataUnit.encode_header 14 dsap ssap None nr.

End ReceiveNotReady.

Module UnknownProtocolDataUnit.

(** [__init__] starts with [super(ProtocolDataUnit, self).__init__(ptype,
    dsap, ssap)]: the lookup starts after [ProtocolDataUnit] in the
    resolution order of the instance. *)
Definition init (ptype dsap ssap : Z) (payload : list byte) : result pdu :=
  _ <- super_init Cls.ProtocolDataUnit Cls.UnknownProtocolDataUnit 3 ;;
  Ok (UNKNOWN ptype dsap ssap payload).

Definition decode (data : buffer) (offset size : Z) : result pdu :=
  '(dsap, ssap) <- ProtocolDataUnit.decode_header data offset size ;;
  b0 <- index data offset ;;
  b1 <- index data (offset + 1) ;;
  let pdutype := Z.land (Z.lor (Z.shiftl b0 2) (Z.shiftr b1 6)) 15 in
  let payload := slice data (offset + 2) (offset + size) in
  init pdutype dsap ssap payload.

Definition encode (ptype dsap ssap : Z) (payload : list byte)
  : result (list byte) :=
  hd <- ProtocolDataUnit.encode_header ptype dsap ssap ;;
  Ok (hd ++ payload).

(** [super(UnknownProtocolDataUnit, self).__len__() + len(self.payload)];
    the only base class with a [__len__] is [NumberedProtocolDataUnit]. *)
Definition len_ (payload : list byte) : result Z :=
  match Cls.super Cls.UnknownProtocolDataUnit Cls.UnknownProtocolDataUnit
                  Cls.m_len with
  | Some Cls.NumberedProtocolDataUnit =>
      Ok (NumberedProtocolDataUnit.len_ + len payload)
  | _ => Raise AttributeError
  end.

End UnknownProtocolDataUnit.

(** ** The module-level functions *)

Definition pdu_type_map (ptype : Z) : option Cls.class :=
  match ptype with
  | 0 => Some Cls.Symmetry
  | 1 => Some Cls.ParameterExchange
  | 2 => Some Cls.AggregatedFrame
  | 3 => Some Cls.UnnumberedInformation
  | 4 => Some Cls.Connect
  | 5 => Some Cls.Disconnect
  | 6 => Some Cls.ConnectionComplete
  | 7 => Some Cls.DisconnectedMode
  | 8 => Some Cls.FrameReject
  | 9 => Some Cls.ServiceNameLookup
  | 10 => Some Cls.DataProtectionSetup
  | 12 => Some Cls.Information
  | 13 => Some Cls.ReceiveReady
  | 14 => Some Cls.ReceiveNotReady
  | _ => None
  end.

(** [pdu_type.decode(data, offset, size)]: the class method of the class
    that the dispatch table gives.  [decode_pdu] is the module-level
    [decode], which [AggregatedFrame.decode] calls for its entries. *)
Definition class_decode (decode_pdu : buffer -> Z -> Z -> result pdu)
           (pdu_type : Cls.class) (data : buffer) (offset size : Z) : result pdu :=
  match pdu_type with
  | Cls.Symmetry => Symmetry.decode data offset size
  | Cls.ParameterExchange => ParameterExchange.decode data offset size
  | Cls.AggregatedFrame => AggregatedFrame.decode decode_pdu data offset size
  | Cls.UnnumberedInformation => UnnumberedInformation.decode data offset size
  | Cls.Connect => Connect.decode data offset size
  | Cls.Disconnect => Disconnect.decode data offset size
  | Cls.ConnectionComplete => ConnectionComplete.decode data offset size
  | Cls.DisconnectedMode => DisconnectedMode.decode data offset size
  | Cls.FrameReject => FrameReject.decode data offset size
  | Cls.ServiceNameLookup => ServiceNameLookup.decode data offset size
  | Cls.DataProtectionSetup => DataProtectionSetup.decode data offset size
  | Cls.Information => Information.decode data offset size
  | Cls.ReceiveReady => ReceiveReady.decode data offset size
  | Cls.ReceiveNotReady => ReceiveNotReady.decode data offset size
  | Cls.UnknownProtocolDataUnit => UnknownProtocolDataUnit.decode data offset size
  | Cls.object | Cls.ProtocolDataUnit | Cls.NumberedProtocolDataUnit =>
      Raise AttributeError
  end.

(** [decode(data, offset, size)] with [size] given.  [n] bounds how deep the
    calls may nest, one inside an aggregated frame of the other: a call
    beyond the bound is cut off with [RecursionDepth].  [decode] below starts
    with a bound that no buffer reaches ([decode_total]). *)
Fixpoint decode_n (n : nat) (data : buffer) (offset size : Z) : result pdu :=
  match n with
  | O => Raise RecursionDepth
  | S n' =>
      raise_if (offset + size >? len data)
               (DecodeError "size bytes from offset exceed the data length") (
      raise_if (size <? 2)
               (DecodeError "less than two header bytes can't make a valid pdu") (
      word <- unpack_H data offset ;;
      let ptype := Z.land (Z.shiftr word 6) 15 in
      let pdu_type := match pdu_type_map ptype with
                      | Some c => c
                      | None => Cls.UnknownProtocolDataUnit
                      end in
      class_decode (decode_n n') pdu_type data offset size))
  end.

(** [size = len(data) if size is None else size]. *)
Definition size_of (data : buffer) (size : option Z) : Z :=
  match size with
  | None => len data
  | Some s => s
  end.

(** [decode(data, offset=0, size=None)]. *)
Definition decode (data : buffer) (offset : Z) (size : option Z) : result pdu :=
  decode_n (S (List.length data)) data offset (size_of data size).

(** [encode(pdu)]: every [pdu] is an instance of [ProtocolDataUnit]. *)
Fixpoint encode (v : pdu) : result (list byte) :=
  match v with
  | SYMM dsap ssap => Symmetry.encode dsap ssap
  | PAX dsap ssap version miu wks lto lsc dpc =>
      ParameterExchange.encode dsap ssap version miu wks lto lsc dpc
  | AGF dsap ssap aggregate => AggregatedFrame.encode encode dsap ssap aggregate
  | UI dsap ssap data => UnnumberedInformation.encode dsap ssap data
  | CONNECT dsap ssap miu rw sn => Connect.encode dsap ssap miu rw sn
  | DISC dsap ssap => Disconnect.encode dsap ssap
  | CC dsap ssap miu rw => ConnectionComplete.encode dsap ssap miu rw
  | DM dsap ssap reason => DisconnectedMode.encode dsap ssap reason
  | FRMR dsap ssap flags ptype ns nr vs vr vsa vra =>
      FrameReject.encode dsap ssap flags ptype ns nr vs vr vsa vra
  | SNL dsap ssap sdreq sdres => ServiceNameLookup.encode dsap ssap sdreq sdres
  | DPS dsap ssap ecpk rn => DataProtectionSetup.encode dsap ssap ecpk rn
  | INFO dsap ssap ns nr data => Information.encode dsap ssap ns nr data
  | RR dsap ssap nr => ReceiveReady.encode dsap ssap nr
  | RNR dsap ssap nr => ReceiveNotReady.encode dsap ssap nr
  | UNKNOWN ptype dsap ssap payload =>
      UnknownProtocolDataUnit.encode ptype dsap ssap payload
  end.

(** The body of [__len__] as class [c] defines it, on the instance [v]. *)
Definition len_in (len_pdu : pdu -> result Z) (c : Cls.class) (v : pdu)
  : result Z :=
  match c, v with
  | Cls.NumberedProtocolDataUnit, _ => Ok NumberedProtocolDataUnit.len_
  | Cls.Symmetry, _ => Ok Symmetry.len_
  | Cls.ParameterExchange, PAX _ _ version miu wks lto lsc dpc =>
      Ok (ParameterExchange.len_ version miu wks lto lsc dpc)
  | Cls.AggregatedFrame, AGF _ _ aggregate => AggregatedFrame.len_ len_pdu aggregate
  | Cls.UnnumberedInformation, UI _ _ data => Ok (UnnumberedInformation.len_ data)
  | Cls.Connect, CONNECT _ _ miu rw sn => Ok (Connect.len_ miu rw sn)
  | Cls.Disconnect, _ => Ok Disconnect.len_
  | Cls.ConnectionComplete, CC _ _ miu rw => Ok (ConnectionComplete.len_ miu rw)
  | Cls.DisconnectedMode, _ => Ok DisconnectedMode.len_
  | Cls.FrameReject, _ => Ok FrameReject.len_
  | Cls.ServiceNameLookup, SNL _ _ sdreq sdres => Ok (ServiceNameLookup.len_ sdreq sdres)
  | Cls.DataProtectionSetup, DPS _ _ ecpk rn => Ok (DataProtectionSetup.len_ ecpk rn)
  | Cls.Information, INFO _ _ _ _ data => Ok (Information.len_ data)
  | Cls.UnknownProtocolDataUnit, UNKNOWN _ _ _ payload =>
      UnknownProtocolDataUnit.len_ payload
  | _, _ => Raise AttributeError
  end.

(** [len(pdu)]: the [__len__] that the class of the instance resolves to. *)
Fixpoint pdu_len (v : pdu) : result Z :=
  match Cls.resolve (class_of v) Cls.m_len with
  | Some c => len_in pdu_len c v
  | None => Raise TypeError
  end.

(** ** Values that the wire format represents exactly

    [canonical v]: [v] is of a class other than Frame Reject and the unknown
    class, and every attribute has a value that [encode] writes and [decode]
    reads back:
    - addresses in 0..63 (0 for SYMM, PAX and AGF, which [decode] requires);
    - a MIU in 128..2175, a receive window in 1..255, a WKS in 1..65535, an
      LTO that is a multiple of 10 in 10..2550, version numbers and sequence
      numbers in 0..15, LSC in 0..3 and DPC in 0..1 and not both 0
      ([encode] leaves out what is 0, and [decode] then sets the default);
    - byte strings short enough for their TLV, ECPK and RN absent or not
      empty, one-byte transaction ids, addresses and reasons;
    - for an aggregated frame, entries that are canonical themselves and
      whose encoding is at most 65535 bytes long. *)

Definition u4 (n : Z) : bool := (0 <=? n) && (n <=? 15).
Definition u6 (n : Z) : bool := (0 <=? n) && (n <=? 63).
Definition u8 (n : Z) : bool := (0 <=? n) && (n <=? 255).

Definition miu_ok (miu : Z) : bool := (128 <=? miu) && (miu <=? 2175).
Definition rw_ok (rw : Z) : bool := (1 <=? rw) && (rw <=? 255).

Definition bytes_ok (x : option (list byte)) : bool :=
  match x with
  | Some s => (1 <=? len s) && (len s <=? 255)
  | None => true
  end.

Definition seq_ok (n : option Z) : bool :=
  match n with
  | Some k => u4 k
  | None => false
  end.

Definition fits (enc : pdu -> result (list byte)) (p : pdu) : bool :=
  match enc p with
  | Ok b => len b <=? 65535
  | Raise _ => false
  end.

Fixpoint canonical (v : pdu) : bool :=
  match v with
  | SYMM dsap ssap => (dsap =? 0) && (ssap =? 0)
  | PAX dsap ssap version miu wks lto lsc dpc =>
      (dsap =? 0) && (ssap =? 0)
      && u4 (fst version) && u4 (snd version)
      && miu_ok miu
      && (1 <=? wks) && (wks <=? 65535)
      && (10 <=? lto) && (lto <=? 2550) && (lto mod 10 =? 0)
      && (0 <=? lsc) && (lsc <=? 3) && (0 <=? dpc) && (dpc <=? 1)
      && negb ((lsc =? 0) && (dpc =? 0))
  | AGF dsap ssap aggregate =>
      (dsap =? 0) && (ssap =? 0)
      && forallb (fun p => canonical p && fits encode p) aggregate
  | UI dsap ssap _ => u6 dsap && u6 ssap
  | CONNECT dsap ssap miu rw sn =>
      u6 dsap && u6 ssap && miu_ok miu && rw_ok rw && (len sn <=? 255)
  | DISC dsap ssap => u6 dsap && u6 ssap
  | CC dsap ssap miu rw => u6 dsap && u6 ssap && miu_ok miu && rw_ok rw
  | DM dsap ssap reason => u6 dsap && u6 ssap && u8 reason
  | FRMR _ _ _ _ _ _ _ _ _ _ => false
  | SNL dsap ssap sdreq sdres =>
      u6 dsap && u6 ssap
      && forallb (fun x : Z * list byte => u8 (fst x) && (len (snd x) <=? 254)) sdreq
      && forallb (fun x : Z * Z => u8 (fst x) && u8 (snd x)) sdres
  | DPS dsap ssap ecpk rn => u6 dsap && u6 ssap && bytes_ok ecpk && bytes_ok rn
  | INFO dsap ssap ns nr _ => u6 dsap && u6 ssap && seq_ok ns && seq_ok nr
  | RR dsap ssap nr => u6 dsap && u6 ssap && seq_ok nr
  | RNR dsap ssap nr => u6 dsap && u6 ssap && seq_ok nr
  | UNKNOWN _ _ _ _ => false
  end.

(** How deep aggregated frames nest inside a value. *)
Fixpoint depth (v : pdu) : nat :=
  match v with
  | AGF _ _ aggregate => S (fold_right Nat.max 0%nat (map depth aggregate))
  | _ => 0%nat
  end.

(** The classes of the dispatch table: every class but the unknown one,
    at every nesting level. *)
Fixpoint known (v : pdu) : bool :=
  match v with
  | AGF _ _ aggregate => forallb known aggregate
  | UNKNOWN _ _ _ _ => false
  | _ => true
  end.

(** ** Constructed values

    [cls(...)] runs the [__init__] of the class.  Each [__init__] starts
    with the [__init__] of a base class, [super(cls, self).__init__(...)],
    and then stores its arguments in attributes: with three arguments in a
    subclass of [ProtocolDataUnit], with five in a subclass of
    [NumberedProtocolDataUnit].  The one of the unknown class is
    [UnknownProtocolDataUnit.init]. *)
Definition returns (A : Type) (r : result A) : bool :=
  match r with
  | Ok _ => true
  | Raise _ => false
  end.

Definition init_returns (v : pdu) : bool :=
  match v with
  | UNKNOWN ptype dsap ssap payload =>
      returns (UnknownProtocolDataUnit.init ptype dsap ssap payload)
  | INFO _ _ _ _ _ | RR _ _ _ | RNR _ _ _ =>
      returns (super_init (class_of v) (class_of v) 5)
  | _ => returns (super_init (class_of v) (class_of v) 3)
  end.

(** [constructed v]: the constructor has returned [v], and the entries of an
    aggregated frame are constructed values themselves. *)
Fixpoint constructed (v : pdu) : bool :=
  init_returns v
  && match v with
     | AGF _ _ aggregate => forallb constructed aggregate
     | _ => true
     end.

(** [at_ data offset rest]: the buffer, read from [offset] on, is [rest]. *)
Definition at_ (data : buffer) (offset : Z) (rest : list byte) : Prop :=
  exists pre, data = pre ++ rest /\ offset = len pre.

(** The values that [Parameter.encode] is written to reject: a byte string
    of more than 255 bytes for SN, ECPK or RN, a service name of more than
    254 bytes for SDREQ, and any value with a type code outside 1..11. *)
Inductive unencodable : Z -> value -> Prop :=
| too_long_bytes (T : Z) (s : list byte) :
    T = Param.SN \/ T = Param.ECPK \/ T = Param.RN -> len s > 255 ->
    unencodable T (V_bytes s)
| too_long_sdreq (tid : Z) (sn : list byte) :
    len sn > 254 -> unencodable Param.SDREQ (V_tid_sn tid sn)
| unknown_code (T : Z) (V : value) :
    T < 1 \/ T > 11 -> unencodable T V.

(** The entries of an aggregated frame; no other value has any. *)
Definition entries (v : pdu) : list pdu :=
  match v with
  | AGF _ _ aggregate => aggregate
  | _ => []
  end.

(** The number of bytes [struct.pack] writes for a format. *)
Definition fmt_size (c : fmt) : Z :=
  match c with
  | fmt_B => 1
  | fmt_H => 2
  end.

(** The TLVs that the wire format represents exactly: a type code with a
    value of its shape and range. *)
Definition tlv_ok (T : Z) (V : value) : bool :=
  match V with
  | V_pair a b =>
      ((T =? Param.VERSION) && u4 a && u4 b)
      || ((T =? Param.SDRES) && u8 a && u8 b)
  | V_int n =>
      ((T =? Param.MIUX) && (0 <=? n) && (n <=? 2047))
      || ((T =? Param.WKS) && (0 <=? n) && (n <=? 65535))
      || (((T =? Param.LTO) || (T =? Param.RW) || (T =? Param.OPT)) && u8 n)
  | V_bytes s =>
      ((T =? Param.SN) || (T =? Param.ECPK) || (T =? Param.RN))
      && (len s <=? 255)
  | V_tid_sn tid sn => (T =? Param.SDREQ) && u8 tid && (len sn <=? 254)
  end.

(** A run of [if c: data += Parameter.encode(T, V)] statements, as the list
    of its [(c, T, V)]. *)
Fixpoint add_opts (opts : list (bool * Z * value)) (data : list byte)
  : result (list byte) :=
  match opts with
  | [] => Ok data
  | (c, T, V) :: opts' => data <- add_if c T V data ;; add_opts opts' data
  end.

(** The length byte of the TLV that [Parameter.encode] writes. *)
Definition tlv_L (T : Z) (V : value) : Z :=
  match Param.encode T V with
  | Ok b => len b - 2
  | Raise _ => 0
  end.

(** The loop body on the TLVs that such a run has written. *)
Fixpoint run_opts (St : Type) (body : St -> tlv -> result St)
         (opts : list (bool * Z * value)) (st : St) : result St :=
  match opts with
  | [] => Ok st
  | (c, T, V) :: opts' =>
      st' <- (if c then body st (T, tlv_L T V, V) else Ok st) ;;
      run_opts body opts' st'
  end.

(** Every TLV that the run writes is one the wire format represents. *)
Definition opts_ok (opts : list (bool * Z * value)) : Prop :=
  Forall (fun o => match o with
                   | (c, T, V) => c = true -> tlv_ok T V = true
                   end) opts.

(** [reads_back v t dec]: [encode] writes [v] with the type code [t] in its
    header, and the class method [dec] reads [v] back from those bytes
    wherever they lie in a buffer. *)
Definition reads_back (v : pdu) (t : Z)
           (dec : buffer -> Z -> Z -> result pdu) : Prop :=
  exists hi lo tl,
    encode v = Ok (hi :: lo :: tl)
    /\ Z.land (Z.shiftr (Z_of_byte hi * 256 + Z_of_byte lo) 6) 15 = t
    /\ forall data offset rest,
        at_ data offset ((hi :: lo :: tl) ++ rest) ->
        dec data offset (len (hi :: lo :: tl)) = Ok v.

(** The value of the last TLV of type [T] in a sequence of TLVs, if any. *)
Fixpoint last_value (T : Z) (ts : list (Z * value)) : option value :=
  match ts with
  | [] => None
  | (T', V) :: ts' =>
      match last_value T ts' with
      | Some x => Some x
      | None => if T' =? T then Some V else None
      end
  end.

(** The statements that write a sequence of TLVs, one after the other. *)
Definition written (ts : list (Z * value)) : list (bool * Z * value) :=
  map (fun tv : Z * value => (true, fst tv, snd tv)) ts.

(** [no_rd r]: the call was not cut off by the bound on the nesting. *)
Definition no_rd {A : Type} (r : result A) : Prop := r <> Raise RecursionDepth.

(** ** Attributes and comparison *)

(** The attributes [dsap], [ssap] and [ptype] of an instance.  [ptype] is
    what [__init__] leaves in [self.ptype]: the constant of the class, and
    for a Frame Reject the type of the rejected PDU, assigned last. *)
Definition dsap_of (v : pdu) : Z :=
  match v with
  | SYMM dsap _ | PAX dsap _ _ _ _ _ _ _ | AGF dsap _ _ | UI dsap _ _
  | CONNECT dsap _ _ _ _ | DISC dsap _ | CC dsap _ _ _ | DM dsap _ _
  | FRMR dsap _ _ _ _ _ _ _ _ _ | SNL dsap _ _ _ | DPS dsap _ _ _
  | INFO dsap _ _ _ _ | RR dsap _ _ | RNR dsap _ _ | UNKNOWN _ dsap _ _ => dsap
  end.

Definition ssap_of (v : pdu) : Z :=
  match v with
  | SYMM _ ssap | PAX _ ssap _ _ _ _ _ _ | AGF _ ssap _ | UI _ ssap _
  | CONNECT _ ssap _ _ _ | DISC _ ssap | CC _ ssap _ _ | DM _ ssap _
  | FRMR _ ssap _ _ _ _ _ _ _ _ | SNL _ ssap _ _ | DPS _ ssap _ _
  | INFO _ ssap _ _ _ | RR _ ssap _ | RNR _ ssap _ | UNKNOWN _ _ ssap _ => ssap
  end.

Definition ptype_of (v : pdu) : Z :=
  match v with
  | SYMM _ _ => 0
  | PAX _ _ _ _ _ _ _ _ => 1
  | AGF _ _ _ => 2
  | UI _ _ _ => 3
  | CONNECT _ _ _ _ _ => 4
  | DISC _ _ => 5
  | CC _ _ _ _ => 6
  | DM _ _ _ => 7
  | FRMR _ _ _ ptype _ _ _ _ _ _ => ptype
  | SNL _ _ _ _ => 9
  | DPS _ _ _ _ => 10
  | INFO _ _ _ _ _ => 12
  | RR _ _ _ => 13
  | RNR _ _ _ => 14
  | UNKNOWN ptype _ _ _ => ptype
  end.

(** Equality of byte strings. *)
Fixpoint bytes_eqb (a b : list byte) : bool :=
  match a, b with
  | [], [] => true
  | x :: a', y :: b' => Byte.eqb x y && bytes_eqb a' b'
  | _, _ => false
  end.

(** [ProtocolDataUnit.__eq__]: [self.encode() == other.encode()]. *)
Definition pdu_eq (self other : pdu) : result bool :=
  a <- encode self ;;
  b <- encode other ;;
  Ok (bytes_eqb a b).

(** ** What [decode] guarantees about a value

    [in_range v]: every attribute of [v] lies in the range that the decoder
    of its class can produce: six-bit addresses (zero for SYMM, PAX and
    AGF), nibbles for sequence numbers and version numbers, and the ranges
    of the TLV values. *)

Definition opt_bytes_ok (x : option (list byte)) : bool :=
  match x with
  | Some s => len s <=? 255
  | None => true
  end.

Fixpoint in_range (v : pdu) : bool :=
  match v with
  | SYMM dsap ssap => (dsap =? 0) && (ssap =? 0)
  | PAX dsap ssap version miu wks lto lsc dpc =>
      (dsap =? 0) && (ssap =? 0)
      && u4 (fst version) && u4 (snd version)
      && miu_ok miu
      && (0 <=? wks) && (wks <=? 65535)
      && (0 <=? lto) && (lto <=? 2550) && (lto mod 10 =? 0)
      && (0 <=? lsc) && (lsc <=? 3) && (0 <=? dpc) && (dpc <=? 1)
  | AGF dsap ssap aggregate =>
      (dsap =? 0) && (ssap =? 0) && forallb in_range aggregate
  | UI dsap ssap _ => u6 dsap && u6 ssap
  | CONNECT dsap ssap miu rw sn =>
      u6 dsap && u6 ssap && miu_ok miu && u8 rw && (len sn <=? 255)
  | DISC dsap ssap => u6 dsap && u6 ssap
  | CC dsap ssap miu rw => u6 dsap && u6 ssap && miu_ok miu && u8 rw
  | DM dsap ssap reason => u6 dsap && u6 ssap && u8 reason
  | FRMR dsap ssap flags ptype ns nr vs vr vsa vra =>
      u6 dsap && u6 ssap && u4 flags && u4 ptype && u4 ns && u4 nr
      && u4 vs && u4 vr && u4 vsa && u4 vra
  | SNL dsap ssap sdreq sdres =>
      u6 dsap && u6 ssap
      && forallb (fun x : Z * list byte => u8 (fst x) && (len (snd x) <=? 254)) sdreq
      && forallb (fun x : Z * Z => u8 (fst x) && u8 (snd x)) sdres
  | DPS dsap ssap ecpk rn =>
      u6 dsap && u6 ssap && opt_bytes_ok ecpk && opt_bytes_ok rn
  | INFO dsap ssap ns nr _ => u6 dsap && u6 ssap && seq_ok ns && seq_ok nr
  | RR dsap ssap nr => u6 dsap && u6 ssap && seq_ok nr
  | RNR dsap ssap nr => u6 dsap && u6 ssap && seq_ok nr
  | UNKNOWN _ _ _ _ => false
  end.

(** The same ranges on the attributes that the TLV loop of a class sets. *)
Definition pax_ok (st : ParameterExchange.fields) : Prop :=
  in_range (PAX 0 0 (ParameterExchange.version st) (ParameterExchange.miu st)
                (ParameterExchange.wks st) (ParameterExchange.lto st)
                (ParameterExchange.lsc st) (ParameterExchange.dpc st)) = true.

Definition connect_ok (st : Connect.fields) : Prop :=
  in_range (CONNECT 0 0 (Connect.miu st) (Connect.rw st) (Connect.sn st)) = true.

Definition cc_ok (st : ConnectionComplete.fields) : Prop :=
  in_range (CC 0 0 (ConnectionComplete.miu st) (ConnectionComplete.rw st)) = true.

Definition dps_ok (st : DataProtectionSetup.fields) : Prop :=
  in_range (DPS 0 0 (DataProtectionSetup.ecpk st) (DataProtectionSetup.rn st))
  = true.

Definition snl_ok (st : ServiceNameLookup.fields) : Prop :=
  in_range (SNL 0 0 (ServiceNameLookup.sdreq st) (ServiceNameLookup.sdres st))
  = true.

(** ** The TLVs of a class

    [has_tlvs c]: the decoder of class [c] runs the TLV loop.  [uses c T]:
    the loop of [c] has a branch for the type code [T]. *)
Definition has_tlvs (c : Cls.class) : bool :=
  match c with
  | Cls.ParameterExchange | Cls.Connect | Cls.ConnectionComplete
  | Cls.ServiceNameLookup | Cls.DataProtectionSetup => true
  | _ => false
  end.

Definition uses (c : Cls.class) (T : Z) : bool :=
  match c with
  | Cls.ParameterExchange =>
      (T =? Param.VERSION) || (T =? Param.MIUX) || (T =? Param.WKS)
      || (T =? Param.LTO) || (T =? Param.OPT)
  | Cls.Connect => (T =? Param.MIUX) || (T =? Param.RW) || (T =? Param.SN)
  | Cls.ConnectionComplete => (T =? Param.MIUX) || (T =? Param.RW)
  | Cls.ServiceNameLookup => (T =? Param.SDREQ) || (T =? Param.SDRES)
  | Cls.DataProtectionSetup => (T =? Param.ECPK) || (T =? Param.RN)
  | _ => false
  end.

(** The service discovery requests and the responses among a sequence of
    TLVs, each in the order of the sequence. *)
Fixpoint sdreq_values (ts : list (Z * value)) : list (Z * list byte) :=
  match ts with
  | [] => []
  | (T, V_tid_sn tid sn) :: ts' =>
      if T =? Param.SDREQ then (tid, sn) :: sdreq_values ts'
      else sdreq_values ts'
  | _ :: ts' => sdreq_values ts'
  end.

Fixpoint sdres_values (ts : list (Z * value)) : list (Z * Z) :=
  match ts with
  | [] => []
  | (T, V_pair tid sap) :: ts' =>
      if T =? Param.SDRES then (tid, sap) :: sdres_values ts'
      else sdres_values ts'
  | _ :: ts' => sdres_values ts'
  end.

(** ** [FrameReject.from_pdu]

    The instance that [from_pdu] returns has the attributes of a Frame
    Reject PDU, with [ns] and [nr] copied from the rejected PDU: they are
    [None] when that PDU has none. *)



Module FromPdu.

Record frmr : Type := mk
  { dsap : Z; ssap : Z; flags : Z; ptype : Z; ns : option Z; nr : option Z;
    vs : Z; vr : Z; vsa : Z; vra : Z }.



(** [FrameReject.encode] on such an instance: the header first, then the
    arguments of [struct.pack], where a [None] is a [TypeError]. *)
Definition encode (o : frmr) : result (list byte) :=
  match ns o, nr o with
  | Some ns, Some nr =>
      FrameReject.encode (dsap o) (ssap o) (flags o) (ptype o) ns nr
                         (vs o) (vr o) (vsa o) (vra o)
  | _, _ =>
      _ <- ProtocolDataUnit.encode_header (ptype o) (dsap o) (ssap o) ;;
      Raise TypeError
  end.

End FromPdu.

(** ** What a round trip makes of a value

    [encode] leaves out an attribute that is zero or empty, and [decode]
    then sets the default of the constructor: [normalize v] is [v] with
    those attributes at their defaults. *)
Definition drop_empty (x : option (list byte)) : option (list byte) :=
  match x with
  | Some [] => None
  | _ => x
  end.

Definition normalize (v : pdu) : pdu :=
  match v with
  | PAX dsap ssap version miu wks lto lsc dpc =>
      PAX dsap ssap version miu
          (if wks =? 0 then 3 else wks)
          (if lto =? 0 then 100 else lto)
          (if (lsc =? 0) && (dpc =? 0) then 3 else lsc)
          dpc
  | CONNECT dsap ssap miu rw sn =>
      CONNECT dsap ssap miu (if rw =? 0 then 1 else rw) sn
  | CC dsap ssap miu rw => CC dsap ssap miu (if rw =? 0 then 1 else rw)
  | DPS dsap ssap ecpk rn => DPS dsap ssap (drop_empty ecpk) (drop_empty rn)
  | _ => v
  end.

(** [decodes_to v v' t dec]: [encode] writes [v] with the type code [t] in
    its header, and the class method [dec] reads [v'] from those bytes
    wherever they lie in a buffer. *)
Definition decodes_to (v v' : pdu) (t : Z)
           (dec : buffer -> Z -> Z -> result pdu) : Prop :=
  exists hi lo tl,
    encode v = Ok (hi :: lo :: tl)
    /\ Z.land (Z.shiftr (Z_of_byte hi * 256 + Z_of_byte lo) 6) 15 = t
    /\ forall data offset rest,
        at_ data offset ((hi :: lo :: tl) ++ rest) ->
        dec data offset (len (hi :: lo :: tl)) = Ok v'.

(** * Properties *)

(** ** Bytes *)

Lemma Z_of_byte_range (b : byte) : 0 <= Z_of_byte b <= 255.
Proof.
  unfold Z_of_byte. pose proof (Byte.to_N_bounded b). lia.
Qed.

Lemma byte_of_Z_of_byte (b : byte) : byte_of_Z (Z_of_byte b) = Some b.
Proof.
  unfold byte_of_Z. pose proof (Z_of_byte_range b).
  replace ((0 <=? Z_of_byte b) && (Z_of_byte b <=? 255)) with true
    by (symmetry; apply andb_true_iff; split; apply Z.leb_le; lia).
  unfold Z_of_byte. rewrite N2Z.id. apply Byte.of_to_N.
Qed.

Lemma byte_of_Z_inv (z : Z) (b : byte) : byte_of_Z z = Some b -> Z_of_byte b = z.
Proof.
  unfold byte_of_Z, Z_of_byte.
  destruct ((0 <=? z) && (z <=? 255)) eqn:E; [|discriminate].
  apply andb_true_iff in E. destruct E as [E1 E2].
  apply Z.leb_le in E1. intros Hb. apply Byte.to_of_N in Hb. rewrite Hb.
  apply Z2N.id. exact E1.
Qed.

Lemma byte_of_Z_some (z : Z) :
  0 <= z <= 255 -> exists b, byte_of_Z z = Some b /\ Z_of_byte b = z.
Proof.
  intros Hz. destruct (byte_of_Z z) as [b|] eqn:E.
  - exists b. split; [reflexivity | apply byte_of_Z_inv; exact E].
  - exfalso. unfold byte_of_Z in E.
    replace ((0 <=? z) && (z <=? 255)) with true in E
      by (symmetry; apply andb_true_iff; split; apply Z.leb_le; lia).
    pose proof (Byte.to_of_N_option_map (Z.to_N z)) as Hm. rewrite E in Hm.
    simpl in Hm. destruct (Z.to_N z <=? 255)%N eqn:E2; [discriminate|].
    apply N.leb_gt in E2. lia.
Qed.

Lemma pack_B_byte (b : byte) : pack_B (Z_of_byte b) = Ok [b].
Proof. unfold pack_B. rewrite byte_of_Z_of_byte. reflexivity. Qed.

Lemma pack_B_inv (v : Z) (l : list byte) :
  pack_B v = Ok l -> exists b, l = [b] /\ Z_of_byte b = v.
Proof.
  unfold pack_B. destruct (byte_of_Z v) as [b|] eqn:E; [|discriminate].
  intros [= <-]. exists b. split; [reflexivity | apply byte_of_Z_inv; exact E].
Qed.

Lemma pack_B_some (v : Z) :
  0 <= v <= 255 -> exists b, pack_B v = Ok [b] /\ Z_of_byte b = v.
Proof.
  intros Hv. destruct (byte_of_Z_some Hv) as (b & Hb & Hz).
  exists b. unfold pack_B. rewrite Hb. auto.
Qed.

Lemma land_255 (v : Z) : Z.land v 255 = v mod 256.
Proof. change 255 with (Z.ones 8). rewrite Z.land_ones by lia. reflexivity. Qed.

Lemma shiftr_8 (v : Z) : Z.shiftr v 8 = v / 256.
Proof. rewrite Z.shiftr_div_pow2 by lia. reflexivity. Qed.

Lemma pack_H_inv (v : Z) (l : list byte) :
  pack_H v = Ok l ->
  exists hi lo, l = [hi; lo] /\ Z_of_byte hi * 256 + Z_of_byte lo = v.
Proof.
  unfold pack_H. destruct ((0 <=? v) && (v <=? 65535)) eqn:E; [|discriminate].
  destruct (pack_B (Z.shiftr v 8)) as [hi|] eqn:Ehi; [|discriminate]. simpl.
  destruct (pack_B (Z.land v 255)) as [lo|] eqn:Elo; [|discriminate]. simpl.
  intros [= <-].
  apply pack_B_inv in Ehi, Elo.
  destruct Ehi as (bh & -> & Hh), Elo as (bl & -> & Hl).
  exists bh, bl. split; [reflexivity|].
  rewrite Hh, Hl, shiftr_8, land_255. pose proof (Z.div_mod v 256 ltac:(lia)). lia.
Qed.

Lemma pack_H_some (v : Z) :
  0 <= v <= 65535 ->
  exists hi lo, pack_H v = Ok [hi; lo] /\ Z_of_byte hi * 256 + Z_of_byte lo = v.
Proof.
  intros Hv. unfold pack_H.
  replace ((0 <=? v) && (v <=? 65535)) with true
    by (symmetry; apply andb_true_iff; split; apply Z.leb_le; lia).
  assert (H1 : 0 <= Z.shiftr v 8 <= 255).
  { rewrite shiftr_8.
    pose proof (Z.div_pos v 256 ltac:(lia) ltac:(lia)).
    pose proof (Z.div_lt_upper_bound v 256 256 ltac:(lia) ltac:(lia)). lia. }
  assert (H2 : 0 <= Z.land v 255 <= 255).
  { rewrite land_255. pose proof (Z.mod_pos_bound v 256 ltac:(lia)). lia. }
  destruct (pack_B_some H1) as (hi & Ehi & Hhi).
  destruct (pack_B_some H2) as (lo & Elo & Hlo).
  exists hi, lo. rewrite Ehi, Elo. simpl. split; [reflexivity|].
  rewrite Hhi, Hlo, shiftr_8, land_255. pose proof (Z.div_mod v 256 ltac:(lia)). lia.
Qed.

(** ** Lengths and positions in the buffer *)

Lemma len_nil (A : Type) : len (@nil A) = 0.
Proof. reflexivity. Qed.

Lemma len_cons (A : Type) (x : A) (l : list A) : len (x :: l) = 1 + len l.
Proof. unfold len. simpl List.length. lia. Qed.

Lemma len_app (A : Type) (l1 l2 : list A) : len (l1 ++ l2) = len l1 + len l2.
Proof. unfold len. rewrite length_app. lia. Qed.

Lemma len_nonneg (A : Type) (l : list A) : 0 <= len l.
Proof. unfold len. lia. Qed.

Lemma to_nat_len (A : Type) (l : list A) : Z.to_nat (len l) = List.length l.
Proof. unfold len. apply Nat2Z.id. Qed.

Lemma at_start (data : buffer) : at_ data 0 data.
Proof. exists []. split; reflexivity. Qed.

Lemma at_app (pre rest : list byte) : at_ (pre ++ rest) (len pre) rest.
Proof. exists pre. split; reflexivity. Qed.

Lemma at_skip (data : buffer) (offset : Z) (xs rest : list byte) (k : Z) :
  at_ data offset (xs ++ rest) -> k = len xs -> at_ data (offset + k) rest.
Proof.
  intros (pre & -> & ->) ->. exists (pre ++ xs).
  rewrite <- app_assoc, len_app. split; reflexivity.
Qed.

Lemma at_len (data : buffer) (offset : Z) (rest : list byte) :
  at_ data offset rest -> offset + len rest = len data /\ 0 <= offset.
Proof.
  intros (pre & -> & ->). rewrite len_app. split; [reflexivity | apply len_nonneg].
Qed.

Lemma read_at (data : buffer) (offset : Z) (rest : list byte) (n : nat) :
  at_ data offset rest -> (n <= List.length rest)%nat ->
  read data offset n = Ok (firstn n rest).
Proof.
  intros (pre & -> & ->) Hn. unfold read.
  pose proof (len_nonneg pre) as Hp.
  assert (E : (len pre <? 0) = false) by (apply Z.ltb_ge; lia).
  cbv zeta. rewrite !E. simpl orb. rewrite len_app.
  replace (len pre + len rest - len pre <? Z.of_nat n) with false
    by (symmetry; apply Z.ltb_ge; unfold len; lia).
  rewrite to_nat_len, skipn_app, skipn_all, Nat.sub_diag. reflexivity.
Qed.

Lemma unpack_B_at (data : buffer) (offset : Z) (a : byte) (rest : list byte) :
  at_ data offset (a :: rest) -> unpack_B data offset = Ok (Z_of_byte a).
Proof.
  intros H. unfold unpack_B. rewrite (read_at (n := 1) H) by (simpl; lia).
  reflexivity.
Qed.

Lemma unpack_BB_at (data : buffer) (offset : Z) (a b : byte) (rest : list byte) :
  at_ data offset (a :: b :: rest) ->
  unpack_BB data offset = Ok (Z_of_byte a, Z_of_byte b).
Proof.
  intros H. unfold unpack_BB. rewrite (read_at (n := 2) H) by (simpl; lia).
  reflexivity.
Qed.

Lemma unpack_BBB_at (data : buffer) (offset : Z) (a b c : byte) (rest : list byte) :
  at_ data offset (a :: b :: c :: rest) ->
  unpack_BBB data offset = Ok (Z_of_byte a, Z_of_byte b, Z_of_byte c).
Proof.
  intros H. unfold unpack_BBB. rewrite (read_at (n := 3) H) by (simpl; lia).
  reflexivity.
Qed.

Lemma unpack_H_at (data : buffer) (offset : Z) (a b : byte) (rest : list byte) :
  at_ data offset (a :: b :: rest) ->
  unpack_H data offset = Ok (Z_of_byte a * 256 + Z_of_byte b).
Proof.
  intros H. unfold unpack_H. rewrite (read_at (n := 2) H) by (simpl; lia).
  reflexivity.
Qed.

Lemma unpack_Bs_at (data : buffer) (offset : Z) (a : byte) (s rest : list byte) :
  at_ data offset (a :: s ++ rest) ->
  unpack_Bs (len s) data offset = Ok (Z_of_byte a, s).
Proof.
  intros H. unfold unpack_Bs. pose proof (len_nonneg s).
  replace (len s <? 0) with false by (symmetry; apply Z.ltb_ge; lia).
  rewrite to_nat_len.
  rewrite (read_at (n := S (List.length s)) H)
    by (simpl; rewrite length_app; lia).
  simpl. rewrite firstn_app, firstn_all, Nat.sub_diag. simpl.
  rewrite app_nil_r. reflexivity.
Qed.

Lemma slice_at (data : buffer) (offset : Z) (s rest : list byte) (k : Z) :
  at_ data offset (s ++ rest) -> k = offset + len s ->
  slice data offset k = s.
Proof.
  intros (pre & -> & ->) ->. unfold slice, clip.
  pose proof (len_nonneg pre). pose proof (len_nonneg s).
  pose proof (len_nonneg rest).
  replace (len pre <? 0) with false by (symmetry; apply Z.ltb_ge; lia).
  replace (len pre + len s <? 0) with false by (symmetry; apply Z.ltb_ge; lia).
  rewrite !len_app.
  rewrite (Z.min_l (len pre)) by lia.
  rewrite (Z.min_l (len pre + len s)) by lia.
  replace (len pre + len s - len pre) with (len s) by lia.
  rewrite !to_nat_len, skipn_app, skipn_all, Nat.sub_diag. simpl.
  rewrite firstn_app, firstn_all, Nat.sub_diag. simpl. apply app_nil_r.
Qed.

Lemma index_at (data : buffer) (offset : Z) (a : byte) (rest : list byte) :
  at_ data offset (a :: rest) -> index data offset = Ok (Z_of_byte a).
Proof.
  intros (pre & -> & ->). unfold index.
  pose proof (len_nonneg pre). pose proof (len_nonneg rest).
  assert (E : (len pre <? 0) = false) by (apply Z.ltb_ge; lia).
  rewrite !E. simpl orb. rewrite len_app, len_cons.
  replace (len pre + (1 + len rest) <=? len pre) with false
    by (symmetry; apply Z.leb_gt; lia).
  rewrite to_nat_len, nth_error_app2, Nat.sub_diag by lia. reflexivity.
Qed.

(** ** The header *)

Lemma decode_header_at (data : buffer) (offset size : Z) (a b : byte)
      (rest : list byte) :
  at_ data offset (a :: b :: rest) -> 2 <= size ->
  ProtocolDataUnit.decode_header data offset size
  = Ok (Z.shiftr (Z_of_byte a) 2, Z.land (Z_of_byte b) 63).
Proof.
  intros Hat Hs. unfold ProtocolDataUnit.decode_header, raise_if.
  replace (size <? 2) with false by (symmetry; apply Z.ltb_ge; lia).
  rewrite (unpack_BB_at Hat). reflexivity.
Qed.

(** ** Decoding starts with two checks *)

Lemma decode_n_exceeds (n : nat) (data : buffer) (offset size : Z) :
  offset + size > len data ->
  decode_n (S n) data offset size
  = Raise (DecodeError "size bytes from offset exceed the data length").
Proof.
  intros Hgt. cbn [decode_n]. unfold raise_if.
  replace (offset + size >? len data) with true
    by (symmetry; apply Z.gtb_lt; lia).
  reflexivity.
Qed.

Lemma decode_n_short (n : nat) (data : buffer) (offset size : Z) :
  size < 2 -> is_DecodeError (decode_n (S n) data offset size).
Proof.
  intros Hlt. unfold is_DecodeError. cbn [decode_n]. unfold raise_if.
  destruct (offset + size >? len data); [eexists; reflexivity|].
  replace (size <? 2) with true by (symmetry; apply Z.ltb_lt; lia).
  eexists; reflexivity.
Qed.

(** C8.  [decode] fails with [DecodeError], and so returns no value, on every
    call whose size is 0 or 1 and on every call where offset + size exceeds
    the length of the buffer. *)
Theorem decode_bounds_enforced (data : buffer) (offset : Z) (size : option Z) :
  size_of data size = 0 \/ size_of data size = 1
  \/ offset + size_of data size > len data ->
  is_DecodeError (decode data offset size).
Proof.
  intros H. unfold decode.
  destruct (Z_gt_dec (offset + size_of data size) (len data)) as [Hgt|Hle].
  - rewrite decode_n_exceeds by exact Hgt. eexists; reflexivity.
  - apply decode_n_short. lia.
Qed.

Lemma decode_bounds_enforced_witness :
  is_DecodeError (decode [x00]%byte 0 None)
  /\ is_DecodeError (decode [x00; x00; x00]%byte 0 (Some 0))
  /\ is_DecodeError (decode [x00; x00; x00]%byte 2 (Some 2)).
Proof.
  split; [|split].
  - apply decode_bounds_enforced. right; left. reflexivity.
  - apply decode_bounds_enforced. left. reflexivity.
  - apply decode_bounds_enforced. right; right. vm_compute. reflexivity.
Defined.

(** C9.  A Connect PDU to address 2 from address 32 for the service name
    urn:nfc:sn:snep, with the default MIU and receive window, is encoded as
    09 20 06 0F followed by the 15 bytes of the name. *)
Theorem connect_snep_encoding :
  let sn := list_byte_of_string "urn:nfc:sn:snep" in
  len sn = 15
  /\ encode (CONNECT 2 32 (Connect.miu Connect.init) (Connect.rw Connect.init) sn)
     = Ok ([x09; x20; x06; x0f]%byte ++ sn).
Proof. split; reflexivity. Qed.

(** ** Comparisons that arithmetic decides *)

Lemma gtb_true (a b : Z) : b < a -> (a >? b) = true.
Proof. intros H. rewrite Z.gtb_ltb. apply Z.ltb_lt. exact H. Qed.

Lemma gtb_false (a b : Z) : a <= b -> (a >? b) = false.
Proof. intros H. rewrite Z.gtb_ltb. apply Z.ltb_ge. exact H. Qed.

Lemma geb_true (a b : Z) : b <= a -> (a >=? b) = true.
Proof. intros H. rewrite Z.geb_leb. apply Z.leb_le. exact H. Qed.

Lemma geb_false (a b : Z) : a < b -> (a >=? b) = false.
Proof. intros H. rewrite Z.geb_leb. apply Z.leb_gt. exact H. Qed.

(** Rewrites every comparison of the goal that [lia] can settle. *)
Ltac zcmp :=
  repeat match goal with
    | |- context [?a <? ?b] =>
        first [ rewrite (proj2 (Z.ltb_lt a b)) by lia
              | rewrite (proj2 (Z.ltb_ge a b)) by lia ]
    | |- context [?a <=? ?b] =>
        first [ rewrite (proj2 (Z.leb_le a b)) by lia
              | rewrite (proj2 (Z.leb_gt a b)) by lia ]
    | |- context [?a >? ?b] =>
        first [ rewrite (@gtb_true a b) by lia
              | rewrite (@gtb_false a b) by lia ]
    | |- context [?a >=? ?b] =>
        first [ rewrite (@geb_true a b) by lia
              | rewrite (@geb_false a b) by lia ]
    | |- context [?a =? ?b] =>
        first [ rewrite (proj2 (Z.eqb_eq a b)) by lia
              | rewrite (proj2 (Z.eqb_neq a b)) by lia ]
    end.

(** ** Frame Reject *)

Lemma unpack_BBBB_at (data : buffer) (offset : Z) (a b c d : byte)
      (rest : list byte) :
  at_ data offset (a :: b :: c :: d :: rest) ->
  unpack_BBBB data offset
  = Ok (Z_of_byte a, Z_of_byte b, Z_of_byte c, Z_of_byte d).
Proof.
  intros H. unfold unpack_BBBB. rewrite (read_at (n := 4) H) by (simpl; lia).
  reflexivity.
Qed.

(** C5.  What [FrameReject.decode] does with a frame of six bytes: the four
    bytes it splits into nibbles are the two header bytes and the first two
    payload bytes; the last two payload bytes are not read at all.
    At 02 00 A1 23 45 67 the ten attributes are 0 0 0 2 0 0 10 1 2 3, where
    the payload holds 10 1 2 3 4 5 6 7. *)
Theorem frame_reject_decode_reads_header (h0 h1 p0 p1 p2 p3 : byte) :
  FrameReject.decode [h0; h1; p0; p1; p2; p3] 0 6
  = Ok (FRMR (Z.shiftr (Z_of_byte h0) 2) (Z.land (Z_of_byte h1) 63)
             (Z.shiftr (Z_of_byte h0) 4) (Z.land (Z_of_byte h0) 15)
             (Z.shiftr (Z_of_byte h1) 4) (Z.land (Z_of_byte h1) 15)
             (Z.shiftr (Z_of_byte p0) 4) (Z.land (Z_of_byte p0) 15)
             (Z.shiftr (Z_of_byte p1) 4) (Z.land (Z_of_byte p1) 15))
  /\ decode [x02; x00; xa1; x23; x45; x67]%byte 0 None
     = Ok (FRMR 0 0 0 2 0 0 10 1 2 3).
Proof.
  split; reflexivity.
Qed.

Lemma frame_reject_size (data : buffer) (offset size : Z) :
  size <> 6 -> is_DecodeError (FrameReject.decode data offset size).
Proof.
  intros H. unfold FrameReject.decode, raise_if.
  replace (size =? 6) with false by (symmetry; apply Z.eqb_neq; exact H).
  eexists; reflexivity.
Qed.

(** ** The unknown class *)

Lemma unknown_init_raises (ptype dsap ssap : Z) (payload : list byte) :
  UnknownProtocolDataUnit.init ptype dsap ssap payload = Raise TypeError.
Proof. reflexivity. Qed.

Lemma unknown_decode_raises (data : buffer) (offset size : Z) (a b : byte)
      (rest : list byte) :
  at_ data offset (a :: b :: rest) -> 2 <= size ->
  UnknownProtocolDataUnit.decode data offset size = Raise TypeError.
Proof.
  intros Hat Hs. unfold UnknownProtocolDataUnit.decode.
  rewrite (decode_header_at Hat Hs). simpl bind.
  rewrite (index_at Hat).
  assert (Hat' : at_ data (offset + 1) (b :: rest))
    by (apply (at_skip [a] (b :: rest) Hat); reflexivity).
  simpl bind. rewrite (index_at Hat'). reflexivity.
Qed.

(** C2.  What [decode] does with a buffer whose header carries a type code
    that is not in the dispatch table (11 or 15): whatever bytes follow, it
    raises [TypeError] from the constructor of the unknown class and returns
    no value, so nothing is there to encode again. *)
Theorem decode_unmapped_type_raises (h0 h1 : byte) (rest : list byte) :
  pdu_type_map (Z.land (Z.shiftr (Z_of_byte h0 * 256 + Z_of_byte h1) 6) 15) = None ->
  decode (h0 :: h1 :: rest) 0 None = Raise TypeError.
Proof.
  intros Hmap. unfold decode, size_of.
  pose proof (len_nonneg rest) as Hr.
  assert (Hat : at_ (h0 :: h1 :: rest) 0 (h0 :: h1 :: rest)) by apply at_start.
  assert (Hsz : 2 <= len (h0 :: h1 :: rest)) by (rewrite !len_cons; lia).
  cbn [decode_n]. unfold raise_if. zcmp.
  rewrite (unpack_H_at Hat). cbn [bind]. rewrite Hmap.
  apply (unknown_decode_raises Hat Hsz).
Qed.

Lemma decode_unmapped_type_raises_witness :
  decode [x02; xc0; x01; x02; x03]%byte 0 None = Raise TypeError.
Proof. apply decode_unmapped_type_raises. reflexivity. Defined.

(** ** What [Parameter.encode] raises *)

Lemma pack_B_not_EncodeError (v : Z) : ~ is_EncodeError (pack_B v).
Proof.
  unfold pack_B. destruct (byte_of_Z v); intros [msg H]; discriminate.
Qed.

Lemma pack_H_not_EncodeError (v : Z) : ~ is_EncodeError (pack_H v).
Proof.
  unfold pack_H. intros [msg H].
  destruct ((0 <=? v) && (v <=? 65535)); [|discriminate].
  destruct (pack_B (Z.shiftr v 8)) as [hi|e] eqn:Ehi.
  - destruct (pack_B (Z.land v 255)) as [lo|e] eqn:Elo; simpl in H.
    + discriminate.
    + apply (@pack_B_not_EncodeError (Z.land v 255)). rewrite Elo.
      exists msg. congruence.
  - apply (@pack_B_not_EncodeError (Z.shiftr v 8)). rewrite Ehi.
    exists msg. simpl in H. congruence.
Qed.

Lemma pack_cons_B (f : list fmt) (v : Z) (args : list Z) :
  pack (fmt_B :: f) (v :: args)
  = (x <- pack_B v ;; xs <- pack f args ;; Ok (x ++ xs)).
Proof. reflexivity. Qed.

Lemma pack_cons_H (f : list fmt) (v : Z) (args : list Z) :
  pack (fmt_H :: f) (v :: args)
  = (x <- pack_H v ;; xs <- pack f args ;; Ok (x ++ xs)).
Proof. reflexivity. Qed.

Lemma pack_not_EncodeError (f : list fmt) (args : list Z) :
  ~ is_EncodeError (pack f args).
Proof.
  revert args. induction f as [|c f IH]; intros args [msg H].
  - destruct args; discriminate.
  - destruct args as [|v args]; [destruct c; discriminate|].
    destruct c; [rewrite pack_cons_B in H | rewrite pack_cons_H in H].
    + destruct (pack_B v) as [x|e] eqn:Ex; simpl in H.
      * destruct (pack f args) as [xs|e] eqn:Exs; simpl in H; [discriminate|].
        apply (IH args). rewrite Exs. exists msg. congruence.
      * apply (@pack_B_not_EncodeError v). rewrite Ex. exists msg. congruence.
    + destruct (pack_H v) as [x|e] eqn:Ex; simpl in H.
      * destruct (pack f args) as [xs|e] eqn:Exs; simpl in H; [discriminate|].
        apply (IH args). rewrite Exs. exists msg. congruence.
      * apply (@pack_H_not_EncodeError v). rewrite Ex. exists msg. congruence.
Qed.

Lemma raise_EncodeError_is_TypeError (A : Type) :
  @Param.raise_EncodeError A "can't encode TLV %r" = Raise TypeError
  /\ @Param.raise_EncodeError A "unknown TLV %r" = Raise TypeError.
Proof. split; reflexivity. Qed.

(** No call of [Parameter.encode] ends in an [EncodeError]. *)
Lemma param_encode_never_EncodeError (T : Z) (V : value) :
  ~ is_EncodeError (Param.encode T V).
Proof.
  unfold Param.encode.
  repeat match goal with
         | |- context [if ?c then _ else _] => destruct c
         end;
    destruct V; intros [msg H]; try discriminate;
    repeat match type of H with
           | context [if ?c then _ else _] => destruct c
           end;
    try discriminate;
    try (eapply pack_not_EncodeError; eexists; exact H).
  all: match type of H with
       | bind (pack ?f ?a) _ = _ =>
           destruct (pack f a) as [hd|e] eqn:E; simpl in H;
           [discriminate
           | apply (@pack_not_EncodeError f a); rewrite E; exists msg; congruence]
       end.
Qed.

(** C3.  What [Parameter.encode] does with a value that is too long for the
    length byte, or with a type code that is not one of the eleven: building
    the message of the [EncodeError] fails, and the call raises [TypeError]
    instead. *)
Theorem param_encode_unencodable_raises_TypeError (T : Z) (V : value) :
  unencodable T V ->
  Param.encode T V = Raise TypeError /\ ~ is_EncodeError (Param.encode T V).
Proof.
  intros H. split; [|apply param_encode_never_EncodeError].
  destruct H as [T s HT Hs | tid sn Hs | T V HT].
  - unfold Param.encode, Param.VERSION, Param.LTO, Param.RW, Param.OPT,
      Param.MIUX, Param.WKS, Param.SN, Param.ECPK, Param.RN in *.
    destruct HT as [-> | [-> | ->]]; simpl; zcmp; reflexivity.
  - unfold Param.encode. simpl. zcmp. reflexivity.
  - unfold Param.encode, Param.VERSION, Param.LTO, Param.RW, Param.OPT,
      Param.MIUX, Param.WKS, Param.SN, Param.ECPK, Param.RN, Param.SDREQ,
      Param.SDRES.
    zcmp. simpl. destruct V; reflexivity.
Qed.

Lemma param_encode_unencodable_raises_TypeError_witness :
  Param.encode Param.SN (V_bytes (repeat x00%byte 256)) = Raise TypeError
  /\ ~ is_EncodeError (Param.encode Param.SN (V_bytes (repeat x00%byte 256))).
Proof.
  apply param_encode_unencodable_raises_TypeError.
  apply too_long_bytes; [left; reflexivity | vm_compute; reflexivity].
Defined.

(** ** The TLV loop *)

Lemma unpack_BB_range (data : buffer) (offset a b : Z) :
  unpack_BB data offset = Ok (a, b) -> 0 <= a <= 255 /\ 0 <= b <= 255.
Proof.
  unfold unpack_BB. destruct (read data offset 2) as [bs|e]; [|discriminate].
  destruct bs as [|x [|y [|z bs]]]; simpl; try discriminate.
  intros [= <- <-]. split; apply Z_of_byte_range.
Qed.

(** Splits the [if]s and the [bind]s of a hypothesis. *)
Ltac split_result H :=
  repeat (match type of H with
          | context [if ?c then _ else _] => destruct c eqn:?
          | bind ?m _ = _ => destruct m as [?|?] eqn:?; simpl in H
          | context [match ?p with (_, _) => _ end] => destruct p
          end; try discriminate).

(** The type and the length that [Parameter.decode] returns are the two bytes
    at [offset]. *)
Lemma param_decode_head (data : buffer) (offset size T L : Z) (V : value) :
  Param.decode data offset size = Ok (Some (T, L, V)) ->
  unpack_BB data offset = Ok (T, L) /\ L <= size - 2.
Proof.
  unfold Param.decode. destruct (unpack_BB data offset) as [[T0 L0]|e];
    [|discriminate].
  simpl bind. unfold assert_. intros H.
  destruct (L0 <=? size - 2) eqn:EL; [|discriminate].
  apply Z.leb_le in EL.
  split_result H; inversion H; subst; auto.
Qed.

Lemma param_decode_length (data : buffer) (offset size T L : Z) (V : value) :
  Param.decode data offset size = Ok (Some (T, L, V)) -> 0 <= L <= size - 2.
Proof.
  intros H. apply param_decode_head in H. destruct H as [H1 H2].
  apply unpack_BB_range in H1. lia.
Qed.

Section TlvLoopFacts.
Variable St : Type.
Variable body : St -> tlv -> result St.

Lemma tlv_loop_n_enough (n m : nat) (data : buffer) (offset size : Z) (st : St) :
  size <= Z.of_nat n -> size <= Z.of_nat m ->
  tlv_loop_n body n data offset size st = tlv_loop_n body m data offset size st.
Proof.
  revert m offset size st.
  induction n as [|n IH]; intros m offset size st Hn Hm.
  - destruct m; simpl; [reflexivity|]. zcmp. reflexivity.
  - simpl. destruct (size >=? 2) eqn:E.
    + rewrite Z.geb_leb in E. apply Z.leb_le in E.
      destruct m as [|m]; [simpl in Hm; lia|].
      simpl. zcmp.
      destruct (Param.decode data offset size) as [[[[T L] V]|]|e] eqn:ED;
        simpl; try reflexivity.
      destruct (body st (T, L, V)) as [st'|e]; simpl; [|reflexivity].
      apply param_decode_length in ED. apply IH; lia.
    + rewrite Z.geb_leb in E. apply Z.leb_gt in E.
      destruct m; simpl; [reflexivity|]. zcmp. reflexivity.
Qed.

(** The loop's own equation: one pass, then the loop again. *)
Lemma tlv_loop_eq (data : buffer) (offset size : Z) (st : St) :
  tlv_loop body data offset size st
  = if size >=? 2 then
      r <- Param.decode data offset size ;;
      match r with
      | None => Raise TypeError
      | Some (T, L, V) =>
          st' <- body st (T, L, V) ;;
          tlv_loop body data (offset + 2 + L) (size - 2 - L) st'
      end
    else Ok st.
Proof.
  unfold tlv_loop. destruct (size >=? 2) eqn:E.
  - rewrite Z.geb_leb in E. apply Z.leb_le in E.
    destruct (Z.to_nat size) as [|n] eqn:En; [lia|].
    simpl. zcmp.
    destruct (Param.decode data offset size) as [[[[T L] V]|]|e] eqn:ED;
      simpl; try reflexivity.
    destruct (body st (T, L, V)) as [st'|e]; simpl; [|reflexivity].
    apply param_decode_length in ED. apply tlv_loop_n_enough; lia.
  - rewrite Z.geb_leb in E. apply Z.leb_gt in E.
    destruct (Z.to_nat size); simpl; [reflexivity|]. zcmp. reflexivity.
Qed.

Lemma tlv_loop_done (data : buffer) (offset size : Z) (st : St) :
  size < 2 -> tlv_loop body data offset size st = Ok st.
Proof. intros H. rewrite tlv_loop_eq. zcmp. reflexivity. Qed.

(** A TLV whose type code is none of the eleven ends the loop with a
    [TypeError]: [Parameter.decode] returns [None] for it, which the loop
    cannot unpack into [T, L, V]. *)
Lemma tlv_loop_unknown_code (data : buffer) (offset size : Z) (st : St)
      (t l : byte) (rest : list byte) :
  at_ data offset (t :: l :: rest) ->
  Z_of_byte t < 1 \/ Z_of_byte t > 11 ->
  Z_of_byte l <= size - 2 ->
  tlv_loop body data offset size st = Raise TypeError.
Proof.
  intros Hat Ht Hl. pose proof (Z_of_byte_range l).
  rewrite tlv_loop_eq. zcmp.
  unfold Param.decode. rewrite (unpack_BB_at Hat). simpl bind.
  unfold assert_, Param.VERSION, Param.MIUX, Param.WKS, Param.LTO, Param.RW,
    Param.SN, Param.OPT, Param.SDREQ, Param.SDRES, Param.ECPK, Param.RN.
  zcmp. reflexivity.
Qed.
End TlvLoopFacts.

(** C4.  What decoding does with a TLV whose type code is not one of the
    eleven, in a Parameter Exchange PDU (the other four classes with TLVs
    run the same loop): it raises [TypeError].  The TLV is not skipped and
    no value is returned. *)
Theorem pax_unknown_tlv_raises (t l : byte) (rest : list byte) :
  Z_of_byte t < 1 \/ Z_of_byte t > 11 ->
  Z_of_byte l <= len rest ->
  decode ([x00; x40; t; l]%byte ++ rest) 0 None = Raise TypeError.
Proof.
  intros Ht Hl. unfold decode, size_of.
  assert (Hlen : len ([x00; x40; t; l]%byte ++ rest) = 4 + len rest)
    by (rewrite len_app; reflexivity).
  assert (Hat : at_ ([x00; x40; t; l]%byte ++ rest) 0
                    ([x00; x40]%byte ++ t :: l :: rest)) by apply at_start.
  assert (Hat2 : at_ ([x00; x40; t; l]%byte ++ rest) (0 + 2) (t :: l :: rest))
    by (apply (at_skip [x00; x40]%byte (t :: l :: rest) Hat); reflexivity).
  remember ([x00; x40; t; l]%byte ++ rest) as data eqn:Edata.
  pose proof (len_nonneg rest) as Hr.
  cbn [decode_n]. unfold raise_if. zcmp.
  rewrite (unpack_H_at (a := x00%byte) (b := x40%byte) Hat).
  cbn [bind]. change (pdu_type_map _) with (Some Cls.ParameterExchange).
  cbv iota. unfold class_decode, ParameterExchange.decode.
  rewrite (decode_header_at (a := x00%byte) (b := x40%byte) Hat) by lia.
  simpl bind. unfold raise_if. simpl negb. cbv iota.
  erewrite tlv_loop_unknown_code; [reflexivity | exact Hat2 | exact Ht | lia].
Qed.

Lemma pax_unknown_tlv_raises_witness :
  decode ([x00; x40; x0c; x00]%byte ++ []) 0 None = Raise TypeError.
Proof.
  apply pax_unknown_tlv_raises; [right; vm_compute; reflexivity | vm_compute; discriminate].
Defined.

(** ** Induction on PDU values *)

Lemma pdu_ind_entries (P : pdu -> Prop) :
  (forall v, Forall P (entries v) -> P v) -> forall v, P v.
Proof.
  intros H. fix IH 1. intros v. apply H.
  destruct v; simpl; try constructor.
  induction aggregate as [|p l IHl]; constructor; [apply IH | exact IHl].
Qed.

(** ** Lengths of encodings *)

Lemma bind_Ok (A B : Type) (a : A) (f : A -> result B) : bind (Ok a) f = f a.
Proof. reflexivity. Qed.

Lemma bind_inv (A B : Type) (m : result A) (f : A -> result B) (b : B) :
  bind m f = Ok b -> exists a, m = Ok a /\ f a = Ok b.
Proof. destruct m as [a|e]; simpl; [eauto | discriminate]. Qed.

Lemma pack_B_len (v : Z) (b : list byte) : pack_B v = Ok b -> len b = 1.
Proof. intros H. apply pack_B_inv in H. destruct H as (x & -> & _). reflexivity. Qed.

Lemma pack_H_len (v : Z) (b : list byte) : pack_H v = Ok b -> len b = 2.
Proof.
  intros H. apply pack_H_inv in H. destruct H as (x & y & -> & _). reflexivity.
Qed.

Lemma pack_len (f : list fmt) (args : list Z) (b : list byte) :
  pack f args = Ok b -> len b = fold_right Z.add 0 (map fmt_size f).
Proof.
  revert args b. induction f as [|c f IH]; intros args b H.
  - destruct args; [|discriminate]. injection H as <-. reflexivity.
  - destruct args as [|v args]; [destruct c; discriminate|].
    destruct c; [rewrite pack_cons_B in H | rewrite pack_cons_H in H];
      apply bind_inv in H; destruct H as (x & Hx & H);
      apply bind_inv in H; destruct H as (xs & Hxs & H); injection H as <-;
      rewrite len_app; simpl; rewrite (IH _ _ Hxs).
    + apply pack_B_len in Hx. rewrite Hx. reflexivity.
    + apply pack_H_len in Hx. rewrite Hx. reflexivity.
Qed.

Lemma encode_header_len (ptype dsap ssap : Z) (b : list byte) :
  ProtocolDataUnit.encode_header ptype dsap ssap = Ok b -> len b = 2.
Proof.
  unfold ProtocolDataUnit.encode_header, raise_if. intros H.
  destruct (dsap >? 63); [discriminate|]. destruct (ssap >? 63); [discriminate|].
  apply pack_len in H. exact H.
Qed.

Lemma numbered_encode_header_len (ptype dsap ssap : Z) (ns nr : option Z)
      (b : list byte) :
  NumberedProtocolDataUnit.encode_header ptype dsap ssap ns nr = Ok b -> len b = 3.
Proof.
  unfold NumberedProtocolDataUnit.encode_header, raise_if. intros H.
  destruct (dsap >? 63); [discriminate|]. destruct (ssap >? 63); [discriminate|].
  destruct nr as [r|]; [|repeat match type of H with
                                | context [if ?c then _ else _] => destruct c
                                end; discriminate].
  destruct (r >? 15); [discriminate|].
  match type of H with
  | context [if ?c then _ else _] => destruct c; [discriminate|]
  end.
  apply pack_len in H. exact H.
Qed.

(** The number of bytes of the TLV that [Parameter.encode] returns. *)
Lemma param_encode_len (T : Z) (V : value) (b : list byte) :
  Param.encode T V = Ok b ->
  len b = match V with
          | V_int _ => if (T =? Param.MIUX) || (T =? Param.WKS) then 4 else 3
          | V_pair _ _ => if T =? Param.VERSION then 3 else 4
          | V_bytes s => 2 + len s
          | V_tid_sn _ sn => 3 + len sn
          end.
Proof.
  unfold Param.encode, Param.raise_EncodeError.
  unfold Param.VERSION, Param.MIUX, Param.WKS, Param.LTO, Param.RW, Param.SN,
    Param.OPT, Param.SDREQ, Param.SDRES, Param.ECPK, Param.RN.
  intros H.
  destruct (T =? 1) eqn:E1.
  { destruct V; try discriminate. apply pack_len in H. exact H. }
  destruct ((T =? 4) || (T =? 5) || (T =? 7)) eqn:E2.
  { destruct V; try discriminate. apply pack_len in H. rewrite H.
    apply orb_true_iff in E2. destruct E2 as [E2|E2];
      [apply orb_true_iff in E2; destruct E2 as [E2|E2]|];
      apply Z.eqb_eq in E2; subst T; reflexivity. }
  destruct ((T =? 2) || (T =? 3)) eqn:E3.
  { destruct V; try discriminate. apply pack_len in H. exact H. }
  destruct ((T =? 6) || (T =? 10) || (T =? 11)) eqn:E4.
  { destruct V; try discriminate. destruct (len s >? 255); [discriminate|].
    apply bind_inv in H. destruct H as (hd & Hhd & H). injection H as <-.
    apply pack_len in Hhd. rewrite len_app, Hhd. reflexivity. }
  destruct (T =? 8) eqn:E5.
  { destruct V; try discriminate. destruct (len sn >? 254); [discriminate|].
    apply bind_inv in H. destruct H as (hd & Hhd & H). injection H as <-.
    apply pack_len in Hhd. rewrite len_app, Hhd. reflexivity. }
  destruct (T =? 9) eqn:E6.
  { destruct V; try discriminate. apply pack_len in H. exact H. }
  destruct V; discriminate.
Qed.

Lemma add_if_len (c : bool) (T : Z) (V : value) (data b : list byte) (n : Z) :
  add_if c T V data = Ok b ->
  (forall p, Param.encode T V = Ok p -> len p = n) ->
  len b = len data + (if c then n else 0).
Proof.
  unfold add_if. intros H Hn. destruct c.
  - apply bind_inv in H. destruct H as (p & Hp & H). injection H as <-.
    rewrite len_app, (Hn p Hp). reflexivity.
  - injection H as <-. lia.
Qed.

Lemma join_len (encoded : list (list byte)) (data b : list byte) :
  AggregatedFrame.join data encoded = Ok b ->
  len b = len data + fold_right Z.add 0 (map (fun e => 2 + len e) encoded).
Proof.
  revert data b. induction encoded as [|e rest IH]; intros data b H; simpl in H.
  - injection H as <-. simpl. lia.
  - apply bind_inv in H. destruct H as (hd & Hhd & H).
    apply pack_len in Hhd. simpl in Hhd.
    rewrite (IH _ _ H), !len_app, Hhd. simpl. lia.
Qed.

Lemma add_all_len (A : Type) (T : Z) (to_value : A -> value) (n : A -> Z)
      (xs : list A) (data b : list byte) :
  (forall x p, Param.encode T (to_value x) = Ok p -> len p = n x) ->
  ServiceNameLookup.add_all T to_value xs data = Ok b ->
  len b = len data + fold_right Z.add 0 (map n xs).
Proof.
  intros Hn. revert data b. induction xs as [|x xs IH]; intros data b H; simpl in H.
  - injection H as <-. simpl. lia.
  - apply bind_inv in H. destruct H as (d & Hd & H).
    apply bind_inv in Hd. destruct Hd as (p & Hp & Hd). injection Hd as <-.
    rewrite (IH _ _ H), len_app, (Hn x p Hp). simpl. lia.
Qed.

Lemma fold_add_const (A : Type) (l : list A) (c : Z) :
  fold_right Z.add 0 (map (fun _ => c) l) = len l * c.
Proof.
  induction l as [|x l IH]; cbn [map fold_right]; [reflexivity|].
  rewrite IH, len_cons. lia.
Qed.

(** Takes an encoder's chain of steps apart. *)
Ltac unbind H :=
  repeat (apply bind_inv in H;
          let x := fresh "x" in
          let Hx := fresh "Hx" in
          destruct H as (x & Hx & H)).

Ltac tlv_len H :=
  eapply add_if_len in H;
  [|let p := fresh "p" in
    let Hp := fresh "Hp" in
    intros p Hp; apply param_encode_len in Hp; exact Hp];
  cbn [Param.VERSION Param.MIUX Param.WKS Z.eqb Pos.eqb orb] in H.

Ltac tlvs_len H :=
  eapply add_all_len in H;
  [|let y := fresh "y" in
    let p := fresh "p" in
    let Hp := fresh "Hp" in
    intros y p Hp; apply param_encode_len in Hp;
    cbn [Param.VERSION Param.SDRES Z.eqb Pos.eqb] in Hp; exact Hp].

(** The length that [len] computes is the length of what [encode] returns,
    for every value of the fourteen classes of the dispatch table. *)
Lemma len_encode_known (v : pdu) :
  known v = true -> forall b, encode v = Ok b -> pdu_len v = Ok (len b).
Proof.
  induction v as [v IH] using pdu_ind_entries. intros Hk b H.
  destruct v; simpl in Hk; try discriminate; simpl in H.
  - (* SYMM *)
    apply encode_header_len in H. rewrite H. reflexivity.
  - (* PAX *)
    unfold ParameterExchange.encode in H. unbind H. injection H as <-.
    apply encode_header_len in Hx.
    tlv_len Hx0.
    tlv_len Hx1.
    tlv_len Hx2.
    tlv_len Hx3.
    tlv_len Hx4.
    simpl. unfold ParameterExchange.len_. f_equal. lia.
  - (* AGF *)
    unfold AggregatedFrame.encode in H. unbind H.
    apply encode_header_len in Hx. apply join_len in H.
    simpl. unfold AggregatedFrame.len_.
    assert (Hm : mapM (fun p => n <- pdu_len p ;; Ok (2 + n)) aggregate
                 = Ok (map (fun e => 2 + len e) x0)).
    { clear H Hx. simpl in IH. revert x0 Hx0.
      induction aggregate as [|p l IHl]; intros enc Henc; simpl in Henc.
      - injection Henc as <-. reflexivity.
      - unbind Henc. injection Henc as <-.
        simpl in Hk. apply andb_true_iff in Hk. destruct Hk as [Hkp Hkl].
        inversion IH as [|? ? IHp IHl']; subst.
        cbn [mapM]. rewrite (IHp Hkp _ Hx). cbn [bind].
        rewrite (IHl IHl' Hkl _ Hx0). reflexivity. }
    rewrite Hm. cbn [bind]. f_equal. lia.
  - (* UI *)
    unfold UnnumberedInformation.encode in H. unbind H. injection H as <-.
    apply encode_header_len in Hx. simpl.
    unfold UnnumberedInformation.len_. rewrite len_app. f_equal. lia.
  - (* CONNECT *)
    unfold Connect.encode in H. unbind H. injection H as <-.
    apply encode_header_len in Hx.
    tlv_len Hx0.
    tlv_len Hx1.
    tlv_len Hx2.
    simpl. unfold Connect.len_. f_equal. lia.
  - (* DISC *)
    apply encode_header_len in H. rewrite H. reflexivity.
  - (* CC *)
    unfold ConnectionComplete.encode in H. unbind H. injection H as <-.
    apply encode_header_len in Hx.
    tlv_len Hx0.
    tlv_len Hx1.
    simpl. unfold ConnectionComplete.len_. f_equal. lia.
  - (* DM *)
    unfold DisconnectedMode.encode in H. unbind H. injection H as <-.
    apply encode_header_len in Hx. apply pack_len in Hx0. simpl in Hx0.
    rewrite len_app, Hx, Hx0. reflexivity.
  - (* FRMR *)
    unfold FrameReject.encode in H. unbind H. injection H as <-.
    apply encode_header_len in Hx. apply pack_len in Hx0. simpl in Hx0.
    rewrite len_app, Hx, Hx0. reflexivity.
  - (* SNL *)
    unfold ServiceNameLookup.encode in H. unbind H. injection H as <-.
    apply encode_header_len in Hx.
    tlvs_len Hx0.
    tlvs_len Hx1.
    rewrite fold_add_const in Hx0.
    simpl. unfold ServiceNameLookup.len_. f_equal. lia.
  - (* DPS *)
    unfold DataProtectionSetup.encode in H. unbind H. injection H as <-.
    apply encode_header_len in Hx.
    tlv_len Hx0.
    tlv_len Hx1.
    simpl. unfold DataProtectionSetup.len_. f_equal. lia.
  - (* INFO *)
    unfold Information.encode in H. unbind H. injection H as <-.
    apply numbered_encode_header_len in Hx. simpl.
    unfold Information.len_. rewrite len_app. f_equal. lia.
  - (* RR *)
    apply numbered_encode_header_len in H. rewrite H. reflexivity.
  - (* RNR *)
    apply numbered_encode_header_len in H. rewrite H. reflexivity.
Qed.

(** ** The length of a constructed value *)

(** No value of the unknown class is constructed, and every other one is. *)
Lemma constructed_known (v : pdu) : constructed v = known v.
Proof.
  induction v as [v IH] using pdu_ind_entries.
  destruct v; try reflexivity.
  cbn [constructed known entries] in *.
  change (init_returns (AGF dsap ssap aggregate)) with true. cbn [andb].
  induction aggregate as [|p l IHl]; [reflexivity|].
  inversion IH as [|? ? Hp Hl]; subst. cbn [forallb].
  rewrite Hp, (IHl Hl). reflexivity.
Qed.

Lemma len_known_returns (v : pdu) :
  known v = true -> exists n, pdu_len v = Ok n.
Proof.
  induction v as [v IH] using pdu_ind_entries. intros Hk.
  destruct v; cbn [known] in Hk; try discriminate;
    try (eexists; reflexivity).
  cbn [entries] in IH.
  assert (H : exists sizes,
             mapM (fun p => n <- pdu_len p ;; Ok (2 + n)) aggregate = Ok sizes).
  { induction aggregate as [|p l IHl]; [exists []; reflexivity|].
    inversion IH as [|? ? Hp Hl]; subst. cbn [forallb] in Hk.
    apply andb_true_iff in Hk. destruct Hk as [Hkp Hkl].
    destruct (Hp Hkp) as (n & Hn). destruct (IHl Hl Hkl) as (sizes & Hs).
    exists ((2 + n) :: sizes). cbn [mapM]. rewrite Hn. cbn [bind].
    rewrite Hs. reflexivity. }
  destruct H as (sizes & Hs).
  exists (2 + fold_right Z.add 0 sizes).
  change (pdu_len (AGF dsap ssap aggregate))
    with (AggregatedFrame.len_ pdu_len aggregate).
  unfold AggregatedFrame.len_. rewrite Hs. reflexivity.
Qed.

(** C6.  Every constructed value has a length, and the length is the number
    of bytes that [encode] returns for the value.  The classes are the
    fourteen of the dispatch table, at every nesting level of aggregated
    frames: the constructor of the unknown class raises on every call, so
    that class has no constructed value. *)
Theorem len_of_constructed (v : pdu) :
  constructed v = true ->
  exists n, pdu_len v = Ok n /\ forall b, encode v = Ok b -> n = len b.
Proof.
  intros Hc. rewrite constructed_known in Hc.
  destruct (len_known_returns v Hc) as (n & Hn). exists n.
  split; [exact Hn|]. intros b Hb.
  pose proof (len_encode_known v Hc Hb) as H. rewrite Hn in H.
  congruence.
Qed.

Lemma len_of_constructed_witness :
  exists n,
    pdu_len (AGF 0 0 [PAX 0 0 (1, 1) 130 3 100 3 0; INFO 4 32 (Some 1) (Some 2) [x61]%byte])
    = Ok n
    /\ forall b,
        encode (AGF 0 0 [PAX 0 0 (1, 1) 130 3 100 3 0;
                         INFO 4 32 (Some 1) (Some 2) [x61]%byte]) = Ok b ->
        n = len b.
Proof. apply len_of_constructed. reflexivity. Defined.

(** The [__len__] of the unknown class asks the base class for a [__len__]
    that no base class has: it would raise [AttributeError] on an instance,
    were there one. *)
Remark unknown_len_raises (ptype dsap ssap : Z) (payload : list byte) :
  pdu_len (UNKNOWN ptype dsap ssap payload) = Raise AttributeError.
Proof. reflexivity. Qed.

(** ** Bit fields *)

Lemma land_shiftl_low (a b k : Z) :
  0 <= k -> 0 <= b < 2 ^ k -> Z.land (Z.shiftl a k) b = 0.
Proof.
  intros Hk Hb. apply Z.bits_inj'. intros n Hn.
  rewrite Z.land_spec, Z.bits_0. destruct (Z.lt_ge_cases n k) as [Hlt|Hge].
  - rewrite Z.shiftl_spec_low by lia. reflexivity.
  - replace b with (b mod 2 ^ k) by (apply Z.mod_small; lia).
    rewrite Z.mod_pow2_bits_high by lia. apply andb_false_r.
Qed.

(** An [or] of a shifted field and a field that fits below it is a sum. *)
Lemma lor_shiftl (a b k : Z) :
  0 <= k -> 0 <= b < 2 ^ k -> Z.lor (Z.shiftl a k) b = a * 2 ^ k + b.
Proof.
  intros Hk Hb. pose proof (Z.add_lor_land (Z.shiftl a k) b) as H.
  rewrite land_shiftl_low in H by assumption.
  rewrite Z.shiftl_mul_pow2 in * by assumption. lia.
Qed.

Lemma shiftr_div (a k : Z) : 0 <= k -> Z.shiftr a k = a / 2 ^ k.
Proof. intros Hk. apply Z.shiftr_div_pow2. exact Hk. Qed.

Lemma land_mask (a k : Z) : 0 <= k -> Z.land a (2 ^ k - 1) = a mod 2 ^ k.
Proof.
  intros Hk. replace (2 ^ k - 1) with (Z.ones k)
    by (rewrite Z.ones_equiv; lia).
  apply Z.land_ones. exact Hk.
Qed.

(** The header word of an address pair and a type code. *)
Lemma header_word (ptype dsap ssap : Z) :
  0 <= dsap <= 63 -> 0 <= ptype <= 15 -> 0 <= ssap <= 63 ->
  Z.lor (Z.lor (Z.shiftl dsap 10) (Z.shiftl ptype 6)) ssap
  = dsap * 1024 + ptype * 64 + ssap.
Proof.
  intros Hd Hp Hs.
  assert (E1 : Z.lor (Z.shiftl dsap 10) (Z.shiftl ptype 6)
               = dsap * 1024 + ptype * 64).
  { rewrite (Z.shiftl_mul_pow2 ptype 6) by lia.
    rewrite lor_shiftl by (change (2 ^ 10) with 1024; change (2 ^ 6) with 64; lia).
    reflexivity. }
  rewrite E1.
  assert (E2 : dsap * 1024 + ptype * 64 = Z.shiftl (dsap * 16 + ptype) 6)
    by (rewrite Z.shiftl_mul_pow2 by lia; change (2 ^ 6) with 64; lia).
  rewrite E2 at 1.
  rewrite lor_shiftl by (change (2 ^ 6) with 64; lia).
  change (2 ^ 6) with 64. lia.
Qed.

(** What [decode] reads in a header that [encode_header] wrote. *)
Lemma encode_header_ok (ptype dsap ssap : Z) :
  0 <= dsap <= 63 -> 0 <= ptype <= 15 -> 0 <= ssap <= 63 ->
  exists hi lo,
    ProtocolDataUnit.encode_header ptype dsap ssap = Ok [hi; lo]
    /\ Z.shiftr (Z_of_byte hi) 2 = dsap
    /\ Z.land (Z_of_byte lo) 63 = ssap
    /\ Z.land (Z.shiftr (Z_of_byte hi * 256 + Z_of_byte lo) 6) 15 = ptype.
Proof.
  intros Hd Hp Hs. unfold ProtocolDataUnit.encode_header, raise_if. zcmp.
  rewrite header_word by assumption.
  rewrite pack_cons_H.
  destruct (@pack_H_some (dsap * 1024 + ptype * 64 + ssap) ltac:(lia))
    as (hi & lo & Hpack & Hw).
  rewrite Hpack. exists hi, lo. split; [reflexivity|].
  pose proof (Z_of_byte_range hi). pose proof (Z_of_byte_range lo).
  rewrite Hw.
  change 63 with (2 ^ 6 - 1). change 15 with (2 ^ 4 - 1).
  rewrite !land_mask, !shiftr_div by lia.
  change (2 ^ 6) with 64. change (2 ^ 4) with 16. change (2 ^ 2) with 4.
  repeat split; Z.to_euclidean_division_equations; lia.
Qed.

(** The same for the three bytes of a numbered header. *)
Lemma numbered_encode_header_ok (ptype dsap ssap ns nr : Z) (some_ns : bool) :
  0 <= dsap <= 63 -> 0 <= ptype <= 15 -> 0 <= ssap <= 63 ->
  0 <= ns <= 15 -> 0 <= nr <= 15 -> (some_ns = false -> ns = 0) ->
  exists hi lo sq,
    NumberedProtocolDataUnit.encode_header
      ptype dsap ssap (if some_ns then Some ns else None) (Some nr)
    = Ok [hi; lo; sq]
    /\ Z.shiftr (Z_of_byte hi) 2 = dsap
    /\ Z.land (Z_of_byte lo) 63 = ssap
    /\ Z.land (Z.shiftr (Z_of_byte hi * 256 + Z_of_byte lo) 6) 15 = ptype
    /\ Z.shiftr (Z_of_byte sq) 4 = ns
    /\ Z.land (Z_of_byte sq) 15 = nr.
Proof.
  intros Hd Hp Hs Hns Hnr Hnone.
  unfold NumberedProtocolDataUnit.encode_header, raise_if. zcmp.
  assert (Ens : (match (if some_ns then Some ns else None) with
                 | Some s => truthy s && (s >? 15)
                 | None => false
                 end) = false).
  { destruct some_ns; [|reflexivity]. zcmp. apply andb_false_r. }
  rewrite Ens.
  assert (Ehi : Z.lor (match (if some_ns then Some ns else None) with
                       | Some s => if truthy s then Z.shiftl s 4 else 0
                       | None => 0
                       end) nr = ns * 16 + nr).
  { destruct some_ns.
    - unfold truthy. destruct (ns =? 0) eqn:E0; simpl negb; cbv iota.
      + apply Z.eqb_eq in E0. subst ns. rewrite Z.lor_0_l. lia.
      + rewrite lor_shiftl by (change (2 ^ 4) with 16; lia).
        change (2 ^ 4) with 16. reflexivity.
    - rewrite (Hnone eq_refl), Z.lor_0_l. lia. }
  rewrite Ehi, header_word by assumption.
  rewrite pack_cons_H, pack_cons_B.
  destruct (@pack_H_some (dsap * 1024 + ptype * 64 + ssap) ltac:(lia))
    as (hi & lo & Hpack & Hw).
  destruct (@pack_B_some (ns * 16 + nr) ltac:(lia)) as (sq & Hsq & Hv).
  rewrite Hpack, Hsq. exists hi, lo, sq. split; [reflexivity|].
  pose proof (Z_of_byte_range hi). pose proof (Z_of_byte_range lo).
  rewrite Hw, Hv.
  change 63 with (2 ^ 6 - 1). change 15 with (2 ^ 4 - 1).
  rewrite !land_mask, !shiftr_div by lia.
  change (2 ^ 6) with 64. change (2 ^ 4) with 16. change (2 ^ 2) with 4.
  repeat split; Z.to_euclidean_division_equations; lia.
Qed.

(** ** TLVs read back *)

Lemma pack_nil : pack [] [] = Ok [].
Proof. reflexivity. Qed.

Lemma pack_B_cons_some (f : list fmt) (v : Z) (args : list Z) (bs : list byte) :
  0 <= v <= 255 -> pack f args = Ok bs ->
  exists b, pack (fmt_B :: f) (v :: args) = Ok (b :: bs) /\ Z_of_byte b = v.
Proof.
  intros Hv Hp. destruct (pack_B_some Hv) as (b & Hb & Hz).
  exists b. rewrite pack_cons_B, Hb, Hp. split; [reflexivity | exact Hz].
Qed.

Lemma pack_H_cons_some (f : list fmt) (v : Z) (args : list Z) (bs : list byte) :
  0 <= v <= 65535 -> pack f args = Ok bs ->
  exists hi lo, pack (fmt_H :: f) (v :: args) = Ok (hi :: lo :: bs)
                /\ Z_of_byte hi * 256 + Z_of_byte lo = v.
Proof.
  intros Hv Hp. destruct (pack_H_some Hv) as (hi & lo & Hb & Hz).
  exists hi, lo. rewrite pack_cons_H, Hb, Hp. split; [reflexivity | exact Hz].
Qed.

(** Reads the ranges out of a conjunction of comparisons. *)
Ltac bools H :=
  repeat match type of H with
         | (_ && _) = true =>
             let H1 := fresh "H" in
             apply andb_true_iff in H; destruct H as [H1 H];
             try bools H1
         end;
  repeat match goal with
         | H' : (_ <=? _) = true |- _ => apply Z.leb_le in H'
         | H' : (_ =? _) = true |- _ => apply Z.eqb_eq in H'
         | H' : u4 _ = true |- _ => unfold u4 in H'; bools H'
         | H' : u6 _ = true |- _ => unfold u6 in H'; bools H'
         | H' : u8 _ = true |- _ => unfold u8 in H'; bools H'
         end.

Ltac param_unfold :=
  unfold Param.decode, assert_, Param.VERSION, Param.MIUX, Param.WKS,
    Param.LTO, Param.RW, Param.SN, Param.OPT, Param.SDREQ, Param.SDRES,
    Param.ECPK, Param.RN in *.

(** One byte of value: VERSION, LTO, RW, OPT. *)
Lemma param_decode_B (data : buffer) (offset size : Z) (t l v : byte)
      (rest : list byte) :
  at_ data offset ([t; l; v] ++ rest) -> 3 <= size -> Z_of_byte l = 1 ->
  (Z_of_byte t = 1 ->
   Param.decode data offset size
   = Ok (Some (1, 1, V_pair (Z.shiftr (Z_of_byte v) 4) (Z.land (Z_of_byte v) 15))))
  /\ (Z_of_byte t = 4 \/ Z_of_byte t = 5 \/ Z_of_byte t = 7 ->
      Param.decode data offset size
      = Ok (Some (Z_of_byte t, 1, V_int (Z_of_byte v)))).
Proof.
  intros Hat Hs Hl.
  assert (Hat2 : at_ data (offset + 2) (v :: rest))
    by (apply (at_skip [t; l] (v :: rest) Hat); reflexivity).
  split; intros HT; param_unfold; rewrite (unpack_BB_at Hat), Hl; cbn [bind].
  - rewrite HT. zcmp. rewrite (unpack_B_at Hat2). reflexivity.
  - destruct HT as [HT | [HT | HT]]; rewrite HT; zcmp;
      rewrite (unpack_B_at Hat2); reflexivity.
Qed.

(** One word of value: MIUX, WKS. *)
Lemma param_decode_H (data : buffer) (offset size : Z) (t l hi lo : byte)
      (rest : list byte) :
  at_ data offset ([t; l; hi; lo] ++ rest) -> 4 <= size -> Z_of_byte l = 2 ->
  (Z_of_byte t = 2 ->
   Param.decode data offset size
   = Ok (Some (2, 2, V_int (Z.land (Z_of_byte hi * 256 + Z_of_byte lo) 2047))))
  /\ (Z_of_byte t = 3 ->
      Param.decode data offset size
      = Ok (Some (3, 2, V_int (Z_of_byte hi * 256 + Z_of_byte lo)))).
Proof.
  intros Hat Hs Hl.
  assert (Hat2 : at_ data (offset + 2) (hi :: lo :: rest))
    by (apply (at_skip [t; l] (hi :: lo :: rest) Hat); reflexivity).
  split; intros HT; param_unfold; rewrite (unpack_BB_at Hat), Hl, HT;
    cbn [bind]; zcmp; rewrite (unpack_H_at Hat2); reflexivity.
Qed.

(** A byte string: SN, ECPK, RN. *)
Lemma param_decode_bytes (data : buffer) (offset size : Z) (t l : byte)
      (s rest : list byte) :
  at_ data offset (([t; l] ++ s) ++ rest) -> 2 + len s <= size ->
  Z_of_byte l = len s ->
  Z_of_byte t = 6 \/ Z_of_byte t = 10 \/ Z_of_byte t = 11 ->
  Param.decode data offset size = Ok (Some (Z_of_byte t, len s, V_bytes s)).
Proof.
  intros Hat Hs Hl HT. rewrite <- app_assoc in Hat.
  assert (Hat2 : at_ data (offset + 2) (s ++ rest))
    by (apply (at_skip [t; l] (s ++ rest) Hat); reflexivity).
  param_unfold. rewrite (unpack_BB_at Hat), Hl. cbn [bind].
  destruct HT as [HT | [HT | HT]]; rewrite HT; zcmp;
    rewrite (slice_at s rest Hat2) by reflexivity; reflexivity.
Qed.

(** A service discovery request. *)
Lemma param_decode_sdreq (data : buffer) (offset size : Z) (t l tid : byte)
      (sn rest : list byte) :
  at_ data offset (([t; l; tid] ++ sn) ++ rest) -> 3 + len sn <= size ->
  Z_of_byte l = 1 + len sn -> Z_of_byte t = 8 ->
  Param.decode data offset size
  = Ok (Some (8, 1 + len sn, V_tid_sn (Z_of_byte tid) sn)).
Proof.
  intros Hat Hs Hl HT. rewrite <- app_assoc in Hat.
  assert (Hat2 : at_ data (offset + 2) (tid :: sn ++ rest))
    by (apply (at_skip [t; l] (tid :: sn ++ rest) Hat); reflexivity).
  param_unfold. rewrite (unpack_BB_at Hat), Hl, HT. cbn [bind]. zcmp.
  replace (1 + len sn - 1) with (len sn) by lia.
  rewrite (unpack_Bs_at sn rest Hat2). reflexivity.
Qed.

(** A service discovery response. *)
Lemma param_decode_sdres (data : buffer) (offset size : Z) (t l tid sap : byte)
      (rest : list byte) :
  at_ data offset ([t; l; tid; sap] ++ rest) -> 4 <= size ->
  Z_of_byte l = 2 -> Z_of_byte t = 9 ->
  Param.decode data offset size
  = Ok (Some (9, 2, V_pair (Z_of_byte tid) (Z_of_byte sap))).
Proof.
  intros Hat Hs Hl HT.
  assert (Hat2 : at_ data (offset + 2) (tid :: sap :: rest))
    by (apply (at_skip [t; l] (tid :: sap :: rest) Hat); reflexivity).
  param_unfold. rewrite (unpack_BB_at Hat), Hl, HT. cbn [bind]. zcmp.
  rewrite (unpack_BB_at Hat2). reflexivity.
Qed.

Ltac enc_unfold :=
  unfold Param.encode, Param.VERSION, Param.MIUX, Param.WKS, Param.LTO,
    Param.RW, Param.SN, Param.OPT, Param.SDREQ, Param.SDRES, Param.ECPK,
    Param.RN;
  zcmp; cbn [orb andb].

(** A TLV of a type code with a value of its shape and range is encoded, in
    two bytes and the value, and [Parameter.decode] reads the type code, the
    length and the value back wherever the TLV lies in a buffer. *)
Lemma param_roundtrip (T : Z) (V : value) :
  tlv_ok T V = true ->
  exists b,
    Param.encode T V = Ok b
    /\ 2 <= len b
    /\ forall data offset rest size,
        at_ data offset (b ++ rest) -> len b <= size ->
        Param.decode data offset size = Ok (Some (T, len b - 2, V)).
Proof.
  unfold tlv_ok, Param.VERSION, Param.MIUX, Param.WKS, Param.LTO, Param.RW,
    Param.SN, Param.OPT, Param.SDREQ, Param.SDRES, Param.ECPK, Param.RN.
  intros Hok. destruct V as [n | a b | s | tid sn].
  - (* an integer *)
    apply orb_true_iff in Hok. destruct Hok as [Hok | Hok];
      [apply orb_true_iff in Hok; destruct Hok as [Hok | Hok]|].
    + (* MIUX *)
      bools Hok. subst T. enc_unfold.
      destruct (@pack_H_cons_some [] n [] [] ltac:(lia) pack_nil)
        as (hi & lo & Hp & Hv).
      destruct (@pack_B_cons_some _ 2 _ _ ltac:(lia) Hp) as (l & Hp2 & Hl).
      destruct (@pack_B_cons_some _ 2 _ _ ltac:(lia) Hp2) as (t & Hp3 & Ht).
      exists [t; l; hi; lo]. rewrite Hp3. split; [reflexivity|].
      split; [rewrite !len_cons, len_nil; lia|].
      intros data offset rest size Hat Hsz.
      rewrite !len_cons, len_nil in Hsz.
      destruct (@param_decode_H data offset size t l hi lo rest Hat
                                ltac:(lia) Hl) as [HM _].
      rewrite (HM Ht), Hv.
      change 2047 with (2 ^ 11 - 1). rewrite land_mask by lia.
      rewrite Z.mod_small by (change (2 ^ 11) with 2048; lia). reflexivity.
    + (* WKS *)
      bools Hok. subst T. enc_unfold.
      destruct (@pack_H_cons_some [] n [] [] ltac:(lia) pack_nil)
        as (hi & lo & Hp & Hv).
      destruct (@pack_B_cons_some _ 2 _ _ ltac:(lia) Hp) as (l & Hp2 & Hl).
      destruct (@pack_B_cons_some _ 3 _ _ ltac:(lia) Hp2) as (t & Hp3 & Ht).
      exists [t; l; hi; lo]. rewrite Hp3. split; [reflexivity|].
      split; [rewrite !len_cons, len_nil; lia|].
      intros data offset rest size Hat Hsz.
      rewrite !len_cons, len_nil in Hsz.
      destruct (@param_decode_H data offset size t l hi lo rest Hat
                                ltac:(lia) Hl) as [_ HW].
      rewrite (HW Ht), Hv. reflexivity.
    + (* LTO, RW, OPT *)
      apply andb_true_iff in Hok. destruct Hok as [HT Hn]. bools Hn.
      assert (HT' : T = 4 \/ T = 5 \/ T = 7).
      { apply orb_true_iff in HT. destruct HT as [HT | HT];
          [apply orb_true_iff in HT; destruct HT as [HT | HT]|];
          apply Z.eqb_eq in HT; auto. }
      clear HT.
      assert (Henc : Param.encode T (V_int n) = pack [fmt_B; fmt_B; fmt_B] [T; 1; n])
        by (destruct HT' as [-> | [-> | ->]]; reflexivity).
      rewrite Henc.
      destruct (@pack_B_cons_some [] n [] [] ltac:(lia) pack_nil) as (v & Hp & Hv).
      destruct (@pack_B_cons_some _ 1 _ _ ltac:(lia) Hp) as (l & Hp2 & Hl).
      destruct (@pack_B_cons_some _ T _ _ ltac:(lia) Hp2) as (t & Hp3 & Ht).
      exists [t; l; v]. rewrite Hp3. split; [reflexivity|].
      split; [rewrite !len_cons, len_nil; lia|].
      intros data offset rest size Hat Hsz.
      rewrite !len_cons, len_nil in Hsz.
      destruct (@param_decode_B data offset size t l v rest Hat
                                ltac:(lia) Hl) as [_ HB].
      rewrite HB by (rewrite Ht; exact HT'). rewrite Ht, Hv. reflexivity.
  - (* a pair *)
    apply orb_true_iff in Hok. destruct Hok as [Hok | Hok].
    + (* VERSION *)
      bools Hok. subst T. enc_unfold.
      rewrite lor_shiftl by (change (2 ^ 4) with 16; lia).
      change (2 ^ 4) with 16.
      destruct (@pack_B_cons_some [] (a * 16 + b) [] [] ltac:(lia) pack_nil)
        as (v & Hp & Hv).
      destruct (@pack_B_cons_some _ 1 _ _ ltac:(lia) Hp) as (l & Hp2 & Hl).
      destruct (@pack_B_cons_some _ 1 _ _ ltac:(lia) Hp2) as (t & Hp3 & Ht).
      exists [t; l; v]. rewrite Hp3. split; [reflexivity|].
      split; [rewrite !len_cons, len_nil; lia|].
      intros data offset rest size Hat Hsz.
      rewrite !len_cons, len_nil in Hsz.
      destruct (@param_decode_B data offset size t l v rest Hat
                                ltac:(lia) Hl) as [HV _].
      rewrite (HV Ht), Hv.
      change 15 with (2 ^ 4 - 1). rewrite land_mask, shiftr_div by lia.
      change (2 ^ 4) with 16.
      replace ((a * 16 + b) / 16) with a
        by (Z.to_euclidean_division_equations; lia).
      replace ((a * 16 + b) mod 16) with b
        by (Z.to_euclidean_division_equations; lia).
      reflexivity.
    + (* SDRES *)
      bools Hok. subst T. enc_unfold.
      destruct (@pack_B_cons_some [] b [] [] ltac:(lia) pack_nil) as (sap & Hp & Hsap).
      destruct (@pack_B_cons_some _ a _ _ ltac:(lia) Hp) as (tid & Hp1 & Htid).
      destruct (@pack_B_cons_some _ 2 _ _ ltac:(lia) Hp1) as (l & Hp2 & Hl).
      destruct (@pack_B_cons_some _ 9 _ _ ltac:(lia) Hp2) as (t & Hp3 & Ht).
      exists [t; l; tid; sap]. rewrite Hp3. split; [reflexivity|].
      split; [rewrite !len_cons, len_nil; lia|].
      intros data offset rest size Hat Hsz.
      rewrite !len_cons, len_nil in Hsz.
      rewrite (@param_decode_sdres data offset size t l tid sap rest Hat
                                   ltac:(lia) Hl Ht).
      rewrite Htid, Hsap. reflexivity.
  - (* a byte string *)
    apply andb_true_iff in Hok. destruct Hok as [HT Hs]. apply Z.leb_le in Hs.
    pose proof (len_nonneg s) as Hs0.
    assert (HT' : T = 6 \/ T = 10 \/ T = 11).
    { apply orb_true_iff in HT. destruct HT as [HT | HT];
        [apply orb_true_iff in HT; destruct HT as [HT | HT]|];
        apply Z.eqb_eq in HT; auto. }
    clear HT.
    assert (Henc : Param.encode T (V_bytes s)
                   = (hd <- pack [fmt_B; fmt_B] [T; len s] ;; Ok (hd ++ s))).
    { destruct HT' as [-> | [-> | ->]]; enc_unfold; reflexivity. }
    rewrite Henc.
    destruct (@pack_B_cons_some [] (len s) [] [] ltac:(lia) pack_nil)
      as (l & Hp & Hl).
    destruct (@pack_B_cons_some _ T _ _ ltac:(lia) Hp) as (t & Hp2 & Ht).
    exists ([t; l] ++ s). rewrite Hp2. split; [reflexivity|].
    split; [rewrite len_app, !len_cons, len_nil; lia|].
    intros data offset rest size Hat Hsz.
    rewrite len_app, !len_cons, len_nil in *.
    rewrite (@param_decode_bytes data offset size t l s rest Hat ltac:(lia) Hl)
      by (rewrite Ht; exact HT').
    rewrite Ht. match goal with
    | |- Ok (Some (_, ?x, _)) = Ok (Some (_, ?y, _)) => replace y with x by lia
    end.
    reflexivity.
  - (* a service discovery request *)
    bools Hok. subst T. pose proof (len_nonneg sn) as Hs0.
    enc_unfold.
    destruct (@pack_B_cons_some [] tid [] [] ltac:(lia) pack_nil) as (d & Hp & Hd).
    destruct (@pack_B_cons_some _ (1 + len sn) _ _ ltac:(lia) Hp) as (l & Hp2 & Hl).
    destruct (@pack_B_cons_some _ 8 _ _ ltac:(lia) Hp2) as (t & Hp3 & Ht).
    exists ([t; l; d] ++ sn). rewrite Hp3. split; [reflexivity|].
    split; [rewrite len_app, !len_cons, len_nil; lia|].
    intros data offset rest size Hat Hsz.
    rewrite len_app, !len_cons, len_nil in *.
    rewrite (@param_decode_sdreq data offset size t l d sn rest Hat
                                 ltac:(lia) Hl Ht).
    rewrite Hd. match goal with
    | |- Ok (Some (_, ?x, _)) = Ok (Some (_, ?y, _)) => replace y with x by lia
    end.
    reflexivity.
Qed.

(** ** The TLV loop on what the encoders write *)

Section TlvLoopEncoded.
Variable St : Type.
Variable body : St -> tlv -> result St.

(** One pass of the loop over an encoded TLV. *)
Lemma tlv_loop_step (T : Z) (V : value) (b : list byte) (data : buffer)
      (offset size : Z) (rest : list byte) (st : St) :
  tlv_ok T V = true -> Param.encode T V = Ok b ->
  at_ data offset (b ++ rest) -> len b <= size ->
  tlv_loop body data offset size st
  = (st' <- body st (T, tlv_L T V, V) ;;
     tlv_loop body data (offset + len b) (size - len b) st').
Proof.
  intros Hok Henc Hat Hsz.
  destruct (param_roundtrip T V Hok) as (b' & Henc' & Hlen & Hdec).
  rewrite Henc in Henc'. injection Henc' as <-.
  rewrite tlv_loop_eq. zcmp. rewrite (Hdec data offset rest size Hat Hsz).
  cbn [bind]. unfold tlv_L. rewrite Henc.
  replace (offset + 2 + (len b - 2)) with (offset + len b) by lia.
  replace (size - 2 - (len b - 2)) with (size - len b) by lia.
  reflexivity.
Qed.

(** The loop over a run of encoded TLVs, followed by [k] more bytes. *)
Lemma tlv_loop_opts (opts : list (bool * Z * value)) :
  opts_ok opts ->
  forall hd out, add_opts opts hd = Ok out ->
  exists p,
    out = hd ++ p
    /\ forall data offset rest k st,
        at_ data offset (p ++ rest) -> 0 <= k ->
        tlv_loop body data offset (len p + k) st
        = (st' <- run_opts body opts st ;;
           tlv_loop body data (offset + len p) k st').
Proof.
  induction opts as [|[[c T] V] opts IH]; intros Hok hd out Hadd.
  - simpl in Hadd. injection Hadd as <-. exists []. split.
    + symmetry. apply app_nil_r.
    + intros data offset rest k st Hat Hk. cbn [run_opts bind].
      rewrite len_nil, Z.add_0_r, Z.add_0_l. reflexivity.
  - inversion Hok as [|? ? Hc Hrest]; subst.
    cbn [add_opts] in Hadd. apply bind_inv in Hadd.
    destruct Hadd as (d & Hd & Hadd).
    destruct (IH Hrest _ _ Hadd) as (p & -> & Hloop).
    unfold add_if in Hd. destruct c.
    + apply bind_inv in Hd. destruct Hd as (b & Hb & Hd). injection Hd as <-.
      exists (b ++ p). split; [rewrite app_assoc; reflexivity|].
      intros data offset rest k st Hat Hk. rewrite <- app_assoc in Hat.
      pose proof (len_nonneg p) as Hp.
      rewrite (@tlv_loop_step T V b data offset (len (b ++ p) + k)
                              (p ++ rest) st (Hc eq_refl) Hb Hat)
        by (rewrite len_app; lia).
      cbn [run_opts].
      destruct (body st (T, tlv_L T V, V)) as [st'|e]; [|reflexivity].
      cbn [bind].
      replace (len (b ++ p) + k - len b) with (len p + k)
        by (rewrite len_app; lia).
      rewrite (Hloop data (offset + len b) rest k st')
        by (try apply (at_skip b (p ++ rest) Hat); auto).
      rewrite len_app, Z.add_assoc. reflexivity.
    + injection Hd as <-. exists p. split; [reflexivity|].
      intros data offset rest k st Hat Hk. cbn [run_opts bind].
      apply (Hloop data offset rest k st Hat Hk).
Qed.

(** The loop over exactly the bytes of such a run. *)
Lemma tlv_loop_run (opts : list (bool * Z * value)) (hd out : list byte) :
  opts_ok opts -> add_opts opts hd = Ok out ->
  exists p,
    out = hd ++ p
    /\ forall data offset rest st,
        at_ data offset (p ++ rest) ->
        tlv_loop body data offset (len p) st = run_opts body opts st.
Proof.
  intros Hok Hadd. destruct (tlv_loop_opts Hok _ Hadd) as (p & Hout & Hloop).
  exists p. split; [exact Hout|].
  intros data offset rest st Hat.
  replace (len p) with (len p + 0) at 1 by lia.
  rewrite (Hloop data offset rest 0 st Hat) by lia.
  destruct (run_opts body opts st) as [st'|e]; [|reflexivity].
  cbn [bind]. apply tlv_loop_done. lia.
Qed.
End TlvLoopEncoded.

(** Such a run is encoded whenever its TLVs are representable. *)
Lemma add_opts_ok (opts : list (bool * Z * value)) (hd : list byte) :
  opts_ok opts -> exists out, add_opts opts hd = Ok out.
Proof.
  revert hd. induction opts as [|[[c T] V] opts IH]; intros hd Hok.
  - exists hd. reflexivity.
  - inversion Hok as [|? ? Hc Hrest]; subst. cbn [add_opts]. unfold add_if.
    destruct c.
    + destruct (param_roundtrip T V (Hc eq_refl)) as (b & Hb & _).
      rewrite Hb. cbn [bind]. apply IH. exact Hrest.
    + cbn [bind]. apply IH. exact Hrest.
Qed.

Lemma tlv_run_exists (St : Type) (body : St -> tlv -> result St)
      (opts : list (bool * Z * value)) (hd : list byte) :
  opts_ok opts ->
  exists p,
    add_opts opts hd = Ok (hd ++ p)
    /\ forall data offset rest st,
        at_ data offset (p ++ rest) ->
        tlv_loop body data offset (len p) st = run_opts body opts st.
Proof.
  intros Hok. destruct (add_opts_ok hd Hok) as (out & Hout).
  destruct (tlv_loop_run body hd Hok Hout) as (p & -> & Hloop).
  exists p. split; assumption.
Qed.

(** ** Decoding what [encode] wrote, class by class *)

(** The dispatch on a header that is in the buffer. *)
Lemma decode_n_dispatch (n : nat) (data : buffer) (offset size : Z)
      (hi lo : byte) (rest : list byte) :
  at_ data offset (hi :: lo :: rest) -> 2 <= size -> offset + size <= len data ->
  decode_n (S n) data offset size
  = class_decode
      (decode_n n)
      (match pdu_type_map
               (Z.land (Z.shiftr (Z_of_byte hi * 256 + Z_of_byte lo) 6) 15) with
       | Some c => c
       | None => Cls.UnknownProtocolDataUnit
       end)
      data offset size.
Proof.
  intros Hat Hs Hl. cbn [decode_n]. unfold raise_if. zcmp.
  rewrite (unpack_H_at Hat). reflexivity.
Qed.

Lemma at_fits (data : buffer) (offset : Z) (b rest : list byte) :
  at_ data offset (b ++ rest) -> offset + len b <= len data.
Proof.
  intros H. apply at_len in H. rewrite len_app in H.
  pose proof (len_nonneg rest). lia.
Qed.

(** Turns the boolean facts of the context into arithmetic. *)
Ltac norm_bools :=
  repeat match goal with
    | H : (_ && _) = false |- _ => apply andb_false_iff in H
    | H : (_ && _) = true |- _ => apply andb_true_iff in H; destruct H
    | H : (_ || _) = false |- _ => apply orb_false_iff in H; destruct H
    | H : (_ || _) = true |- _ => apply orb_true_iff in H
    | H : negb _ = true |- _ => apply negb_true_iff in H
    | H : negb _ = false |- _ => apply negb_false_iff in H
    | H : (_ =? _) = true |- _ => apply Z.eqb_eq in H
    | H : (_ =? _) = false |- _ => apply Z.eqb_neq in H
    | H : (_ <=? _) = true |- _ => apply Z.leb_le in H
    | H : (_ <=? _) = false |- _ => apply Z.leb_gt in H
    | H : (_ >? _) = true |- _ => apply Z.gtb_lt in H
    | H : (_ >? _) = false |- _ => rewrite Z.gtb_ltb in H; apply Z.ltb_ge in H
    end.

(** Settles that the TLVs of a run are representable, from the ranges in
    the context. *)
Ltac opts_ok_tac :=
  unfold opts_ok;
  repeat (apply Forall_cons; [| ]); try apply Forall_nil;
  let Hcond := fresh "Hcond" in
  intros Hcond; unfold truthy in Hcond; norm_bools;
  unfold tlv_ok, Param.VERSION, Param.MIUX, Param.WKS, Param.LTO, Param.RW,
    Param.OPT, Param.SN, Param.ECPK, Param.RN, Param.SDREQ, Param.SDRES,
    u4, u8;
  zcmp; reflexivity.

(** The last step of a class with TLVs: the attributes that the loop has
    set are the attributes of the value. *)
Ltac fields_eq :=
  unfold truthy in *; norm_bools;
  repeat match goal with
         | H : _ \/ _ |- _ => destruct H
         end;
  try (f_equal; f_equal; lia).

Lemma connect_roundtrip (dsap ssap miu rw : Z) (sn : list byte) :
  canonical (CONNECT dsap ssap miu rw sn) = true ->
  reads_back (CONNECT dsap ssap miu rw sn) 4 Connect.decode.
Proof.
  cbn [canonical]. intros Hc. bools Hc.
  unfold miu_ok, rw_ok in *. bools H1. bools H2.
  destruct (@encode_header_ok 4 dsap ssap ltac:(lia) ltac:(lia) ltac:(lia))
    as (hi & lo & Hhdr & Hd & Hs & Ht).
  set (opts := [(truthy miu && (miu >? 128), Param.MIUX, V_int (miu - 128));
                (truthy rw && negb (rw =? 1), Param.RW, V_int rw);
                (negb (len sn =? 0), Param.SN, V_bytes sn)]).
  assert (Hok : opts_ok opts) by (unfold opts; opts_ok_tac).
  destruct (tlv_run_exists Connect.body [hi; lo] Hok) as (p & Hadd & Hloop).
  exists hi, lo, p. split; [|split; [exact Ht|]].
  - cbn [encode]. unfold Connect.encode. rewrite Hhdr. exact Hadd.
  - intros data offset rest Hat. change (hi :: lo :: p) with ([hi; lo] ++ p) in *.
    rewrite <- app_assoc in Hat.
    assert (Hat2 : at_ data (offset + 2) (p ++ rest))
      by (apply (at_skip [hi; lo] (p ++ rest) Hat); reflexivity).
    pose proof (len_nonneg p) as Hp.
    assert (Hlen : len ([hi; lo] ++ p) = 2 + len p)
      by (rewrite len_app, !len_cons, len_nil; lia).
    unfold Connect.decode.
    rewrite (decode_header_at (size := len ([hi; lo] ++ p)) Hat) by lia.
    cbn [bind]. replace (len ([hi; lo] ++ p) - 2) with (len p) by lia.
    rewrite (Hloop data (offset + 2) rest Connect.init Hat2).
    rewrite Hd, Hs. unfold opts. cbn [run_opts].
    unfold Connect.body, Connect.init, Param.MIUX, Param.RW, Param.SN.
    destruct (truthy miu && (miu >? 128)) eqn:E1;
      destruct (truthy rw && negb (rw =? 1)) eqn:E2;
      destruct (negb (len sn =? 0)) eqn:E3;
      cbn [bind Connect.miu Connect.rw Connect.sn Z.eqb Pos.eqb];
      fields_eq.
    all: f_equal; f_equal; try lia.
    all: destruct sn; [reflexivity | rewrite len_cons in *;
                                       pose proof (len_nonneg sn); lia].
Qed.

Lemma cc_roundtrip (dsap ssap miu rw : Z) :
  canonical (CC dsap ssap miu rw) = true ->
  reads_back (CC dsap ssap miu rw) 6 ConnectionComplete.decode.
Proof.
  cbn [canonical]. intros Hc. bools Hc.
  unfold miu_ok, rw_ok in *. bools H1. bools Hc.
  destruct (@encode_header_ok 6 dsap ssap ltac:(lia) ltac:(lia) ltac:(lia))
    as (hi & lo & Hhdr & Hd & Hs & Ht).
  set (opts := [(truthy miu && (miu >? 128), Param.MIUX, V_int (miu - 128));
                (truthy rw && negb (rw =? 1), Param.RW, V_int rw)]).
  assert (Hok : opts_ok opts) by (unfold opts; opts_ok_tac).
  destruct (tlv_run_exists ConnectionComplete.body [hi; lo] Hok)
    as (p & Hadd & Hloop).
  exists hi, lo, p. split; [|split; [exact Ht|]].
  - cbn [encode]. unfold ConnectionComplete.encode. rewrite Hhdr. exact Hadd.
  - intros data offset rest Hat. change (hi :: lo :: p) with ([hi; lo] ++ p) in *.
    rewrite <- app_assoc in Hat.
    assert (Hat2 : at_ data (offset + 2) (p ++ rest))
      by (apply (at_skip [hi; lo] (p ++ rest) Hat); reflexivity).
    pose proof (len_nonneg p) as Hp.
    assert (Hlen : len ([hi; lo] ++ p) = 2 + len p)
      by (rewrite len_app, !len_cons, len_nil; lia).
    unfold ConnectionComplete.decode.
    rewrite (decode_header_at (size := len ([hi; lo] ++ p)) Hat) by lia.
    cbn [bind]. replace (len ([hi; lo] ++ p) - 2) with (len p) by lia.
    rewrite (Hloop data (offset + 2) rest ConnectionComplete.init Hat2).
    rewrite Hd, Hs. unfold opts. cbn [run_opts].
    unfold ConnectionComplete.body, ConnectionComplete.init, Param.MIUX, Param.RW.
    destruct (truthy miu && (miu >? 128)) eqn:E1;
      destruct (truthy rw && negb (rw =? 1)) eqn:E2;
      cbn [bind ConnectionComplete.miu ConnectionComplete.rw Z.eqb Pos.eqb];
      fields_eq.
Qed.

Lemma dps_roundtrip (dsap ssap : Z) (ecpk rn : option (list byte)) :
  canonical (DPS dsap ssap ecpk rn) = true ->
  reads_back (DPS dsap ssap ecpk rn) 10 DataProtectionSetup.decode.
Proof.
  cbn [canonical]. intros Hc. bools Hc.
  destruct (@encode_header_ok 10 dsap ssap ltac:(lia) ltac:(lia) ltac:(lia))
    as (hi & lo & Hhdr & Hd & Hs & Ht).
  set (opts := [(DataProtectionSetup.present ecpk, Param.ECPK,
                 V_bytes (DataProtectionSetup.bytes_of ecpk));
                (DataProtectionSetup.present rn, Param.RN,
                 V_bytes (DataProtectionSetup.bytes_of rn))]).
  assert (Hok : opts_ok opts).
  { unfold opts, opts_ok. repeat apply Forall_cons; try apply Forall_nil;
      intros _; unfold tlv_ok, Param.ECPK, Param.RN, Param.SN; cbn [Z.eqb Pos.eqb orb andb].
    - destruct ecpk as [s|]; cbn [bytes_ok DataProtectionSetup.bytes_of] in *;
        [bools H1; zcmp; reflexivity | reflexivity].
    - destruct rn as [s|]; cbn [bytes_ok DataProtectionSetup.bytes_of] in *;
        [bools Hc; zcmp; reflexivity | reflexivity]. }
  destruct (tlv_run_exists DataProtectionSetup.body [hi; lo] Hok)
    as (p & Hadd & Hloop).
  exists hi, lo, p. split; [|split; [exact Ht|]].
  - cbn [encode]. unfold DataProtectionSetup.encode. rewrite Hhdr. exact Hadd.
  - intros data offset rest Hat. change (hi :: lo :: p) with ([hi; lo] ++ p) in *.
    rewrite <- app_assoc in Hat.
    assert (Hat2 : at_ data (offset + 2) (p ++ rest))
      by (apply (at_skip [hi; lo] (p ++ rest) Hat); reflexivity).
    pose proof (len_nonneg p) as Hp.
    assert (Hlen : len ([hi; lo] ++ p) = 2 + len p)
      by (rewrite len_app, !len_cons, len_nil; lia).
    unfold DataProtectionSetup.decode.
    rewrite (decode_header_at (size := len ([hi; lo] ++ p)) Hat) by lia.
    cbn [bind]. replace (len ([hi; lo] ++ p) - 2) with (len p) by lia.
    rewrite (Hloop data (offset + 2) rest DataProtectionSetup.init Hat2).
    rewrite Hd, Hs. unfold opts. cbn [run_opts].
    unfold DataProtectionSetup.body, DataProtectionSetup.init, Param.ECPK, Param.RN.
    destruct ecpk as [e|]; destruct rn as [r|];
      cbn [bytes_ok DataProtectionSetup.present DataProtectionSetup.bytes_of] in *;
      try bools H1; try bools Hc; zcmp;
      cbn [negb bind DataProtectionSetup.ecpk DataProtectionSetup.rn Z.eqb Pos.eqb];
      reflexivity.
Qed.

Lemma pax_roundtrip (dsap ssap : Z) (version : Z * Z) (miu wks lto lsc dpc : Z) :
  canonical (PAX dsap ssap version miu wks lto lsc dpc) = true ->
  reads_back (PAX dsap ssap version miu wks lto lsc dpc) 1
             ParameterExchange.decode.
Proof.
  cbn [canonical]. destruct version as [major minor]. cbn [fst snd].
  intros Hc. unfold miu_ok in Hc. bools Hc. subst dsap ssap.
  unfold truthy in *. norm_bools.
  assert (Hq : exists q, lto = q * 10 /\ 1 <= q <= 255).
  { exists (lto / 10). Z.to_euclidean_division_equations. lia. }
  destruct Hq as (q & -> & Hq).
  assert (Eq : q * 10 / 10 = q) by (apply Z.div_mul; lia).
  assert (Eopt : Z.lor (Z.shiftl dpc 2) lsc = dpc * 4 + lsc)
    by (rewrite lor_shiftl by (change (2 ^ 2) with 4; lia); reflexivity).
  destruct (@encode_header_ok 1 0 0 ltac:(lia) ltac:(lia) ltac:(lia))
    as (hi & lo & Hhdr & Hd & Hs & Ht).
  set (opts := [(true, Param.VERSION, V_pair major minor);
                (truthy miu && (miu >? 128), Param.MIUX, V_int (miu - 128));
                (truthy wks, Param.WKS, V_int wks);
                (truthy (q * 10) && negb (q * 10 =? 100), Param.LTO, V_int q);
                (truthy lsc || truthy dpc, Param.OPT, V_int (dpc * 4 + lsc))]).
  assert (Hok : opts_ok opts) by (unfold opts; opts_ok_tac).
  destruct (tlv_run_exists ParameterExchange.body [hi; lo] Hok)
    as (p & Hadd & Hloop).
  exists hi, lo, p. split; [|split; [exact Ht|]].
  - cbn [encode]. unfold ParameterExchange.encode. rewrite Hhdr.
    cbn [fst snd]. rewrite Eq, Eopt. exact Hadd.
  - intros data offset rest Hat. change (hi :: lo :: p) with ([hi; lo] ++ p) in *.
    rewrite <- app_assoc in Hat.
    assert (Hat2 : at_ data (offset + 2) (p ++ rest))
      by (apply (at_skip [hi; lo] (p ++ rest) Hat); reflexivity).
    pose proof (len_nonneg p) as Hp.
    assert (Hlen : len ([hi; lo] ++ p) = 2 + len p)
      by (rewrite len_app, !len_cons, len_nil; lia).
    unfold ParameterExchange.decode.
    rewrite (decode_header_at (size := len ([hi; lo] ++ p)) Hat) by lia.
    cbn [bind]. rewrite Hd, Hs. unfold raise_if. cbn [Z.eqb negb].
    replace (len ([hi; lo] ++ p) - 2) with (len p) by lia.
    rewrite (Hloop data (offset + 2) rest ParameterExchange.init Hat2).
    unfold opts. cbn [run_opts].
    unfold ParameterExchange.body, ParameterExchange.init, Param.VERSION,
      Param.MIUX, Param.WKS, Param.LTO, Param.OPT.
    assert (Elsc : Z.land (dpc * 4 + lsc) 3 = lsc).
    { change 3 with (2 ^ 2 - 1). rewrite land_mask by lia.
      change (2 ^ 2) with 4. Z.to_euclidean_division_equations. lia. }
    assert (Edpc : Z.land (Z.shiftr (dpc * 4 + lsc) 2) 1 = dpc).
    { pose proof (@land_mask (Z.shiftr (dpc * 4 + lsc) 2) 1 ltac:(lia)) as Hm.
      change (2 ^ 1 - 1) with 1 in Hm. rewrite Hm, shiftr_div by lia.
      change (2 ^ 2) with 4. change (2 ^ 1) with 2.
      Z.to_euclidean_division_equations. lia. }
    destruct (truthy miu && (miu >? 128)) eqn:E1;
      destruct (truthy wks) eqn:E2;
      destruct (truthy (q * 10) && negb (q * 10 =? 100)) eqn:E3;
      destruct (truthy lsc || truthy dpc) eqn:E4;
      cbn [bind ParameterExchange.version ParameterExchange.miu
             ParameterExchange.wks ParameterExchange.lto ParameterExchange.lsc
             ParameterExchange.dpc Z.eqb Pos.eqb];
      rewrite ?Elsc, ?Edpc; fields_eq.
Qed.

(** *** Service Name Lookup: two runs of TLVs, one per list *)

Lemma add_all_opts (A : Type) (T : Z) (to_value : A -> value) (xs : list A)
      (data : list byte) :
  ServiceNameLookup.add_all T to_value xs data
  = add_opts (map (fun x => (true, T, to_value x)) xs) data.
Proof.
  revert data. induction xs as [|x xs IH]; intros data; [reflexivity|].
  cbn [ServiceNameLookup.add_all map add_opts].
  destruct (add_if true T (to_value x) data) as [d|e]; [|reflexivity].
  cbn [bind]. apply IH.
Qed.

Lemma add_opts_app (o1 o2 : list (bool * Z * value)) (data : list byte) :
  add_opts (o1 ++ o2) data = (d <- add_opts o1 data ;; add_opts o2 d).
Proof.
  revert data. induction o1 as [|[[c T] V] o1 IH]; intros data; [reflexivity|].
  cbn [app add_opts].
  destruct (add_if c T V data) as [d|e]; [|reflexivity].
  cbn [bind]. apply IH.
Qed.

Lemma run_opts_app (St : Type) (body : St -> tlv -> result St)
      (o1 o2 : list (bool * Z * value)) (st : St) :
  run_opts body (o1 ++ o2) st = (st' <- run_opts body o1 st ;; run_opts body o2 st').
Proof.
  revert st. induction o1 as [|[[c T] V] o1 IH]; intros st; [reflexivity|].
  cbn [app run_opts].
  destruct (if c then body st (T, tlv_L T V, V) else Ok st) as [st'|e];
    [|reflexivity].
  cbn [bind]. apply IH.
Qed.

Lemma snl_run_sdres (sdres : list (Z * Z)) (st : ServiceNameLookup.fields) :
  run_opts ServiceNameLookup.body
           (map (fun x : Z * Z => (true, Param.SDRES, V_pair (fst x) (snd x))) sdres)
           st
  = Ok (ServiceNameLookup.mk (ServiceNameLookup.sdreq st)
                             (ServiceNameLookup.sdres st ++ sdres)).
Proof.
  revert st. induction sdres as [|[tid sap] l IH]; intros st.
  - cbn [map run_opts]. rewrite app_nil_r. destruct st; reflexivity.
  - cbn [map run_opts fst snd]. unfold ServiceNameLookup.body at 1.
    unfold Param.SDRES, Param.SDREQ. cbn [Z.eqb Pos.eqb bind].
    rewrite IH. cbn [ServiceNameLookup.sdreq ServiceNameLookup.sdres].
    rewrite <- app_assoc. reflexivity.
Qed.

Lemma snl_run_sdreq (sdreq : list (Z * list byte)) (st : ServiceNameLookup.fields) :
  run_opts ServiceNameLookup.body
           (map (fun x : Z * list byte =>
                   (true, Param.SDREQ, V_tid_sn (fst x) (snd x))) sdreq)
           st
  = Ok (ServiceNameLookup.mk (ServiceNameLookup.sdreq st ++ sdreq)
                             (ServiceNameLookup.sdres st)).
Proof.
  revert st. induction sdreq as [|[tid sn] l IH]; intros st.
  - cbn [map run_opts]. rewrite app_nil_r. destruct st; reflexivity.
  - cbn [map run_opts fst snd]. unfold ServiceNameLookup.body at 1.
    unfold Param.SDRES, Param.SDREQ. cbn [Z.eqb Pos.eqb bind].
    rewrite IH. cbn [ServiceNameLookup.sdreq ServiceNameLookup.sdres].
    rewrite <- app_assoc. reflexivity.
Qed.

Lemma snl_roundtrip (dsap ssap : Z) (sdreq : list (Z * list byte))
      (sdres : list (Z * Z)) :
  canonical (SNL dsap ssap sdreq sdres) = true ->
  reads_back (SNL dsap ssap sdreq sdres) 9 ServiceNameLookup.decode.
Proof.
  cbn [canonical]. intros Hc.
  apply andb_true_iff in Hc. destruct Hc as [Hc Hres].
  apply andb_true_iff in Hc. destruct Hc as [Hc Hreq]. bools Hc.
  destruct (@encode_header_ok 9 dsap ssap ltac:(lia) ltac:(lia) ltac:(lia))
    as (hi & lo & Hhdr & Hd & Hs & Ht).
  set (o_res := map (fun x : Z * Z =>
                       (true, Param.SDRES, V_pair (fst x) (snd x))) sdres).
  set (o_req := map (fun x : Z * list byte =>
                       (true, Param.SDREQ, V_tid_sn (fst x) (snd x))) sdreq).
  assert (Hok : opts_ok (o_res ++ o_req)).
  { unfold opts_ok. apply Forall_app. split.
    - unfold o_res. apply Forall_map. rewrite forallb_forall in Hres.
      apply Forall_forall. intros [tid sap] Hin _.
      specialize (Hres _ Hin). cbn [fst snd] in *. bools Hres.
      unfold tlv_ok, Param.VERSION, Param.SDRES, u4, u8. zcmp. reflexivity.
    - unfold o_req. apply Forall_map. rewrite forallb_forall in Hreq.
      apply Forall_forall. intros [tid sn] Hin _.
      specialize (Hreq _ Hin). cbn [fst snd] in *. bools Hreq.
      unfold tlv_ok, Param.SDREQ, u8. zcmp. reflexivity. }
  destruct (tlv_run_exists ServiceNameLookup.body [hi; lo] Hok)
    as (p & Hadd & Hloop).
  exists hi, lo, p. split; [|split; [exact Ht|]].
  - cbn [encode]. unfold ServiceNameLookup.encode. rewrite Hhdr. cbn [bind].
    rewrite add_all_opts. fold o_res.
    rewrite add_opts_app in Hadd.
    destruct (add_opts o_res [hi; lo]) as [d|e]; [|discriminate].
    cbn [bind] in *. rewrite add_all_opts. fold o_req. rewrite Hadd. reflexivity.
  - intros data offset rest Hat. change (hi :: lo :: p) with ([hi; lo] ++ p) in *.
    rewrite <- app_assoc in Hat.
    assert (Hat2 : at_ data (offset + 2) (p ++ rest))
      by (apply (at_skip [hi; lo] (p ++ rest) Hat); reflexivity).
    pose proof (len_nonneg p) as Hp.
    assert (Hlen : len ([hi; lo] ++ p) = 2 + len p)
      by (rewrite len_app, !len_cons, len_nil; lia).
    unfold ServiceNameLookup.decode.
    rewrite (decode_header_at (size := len ([hi; lo] ++ p)) Hat) by lia.
    cbn [bind]. replace (len ([hi; lo] ++ p) - 2) with (len p) by lia.
    rewrite (Hloop data (offset + 2) rest ServiceNameLookup.init Hat2).
    rewrite run_opts_app. unfold o_res, o_req.
    rewrite snl_run_sdres. cbn [bind]. rewrite snl_run_sdreq. cbn [bind].
    rewrite Hd, Hs. reflexivity.
Qed.

(** *** The classes without TLVs *)

Lemma symm_roundtrip (dsap ssap : Z) :
  canonical (SYMM dsap ssap) = true ->
  reads_back (SYMM dsap ssap) 0 Symmetry.decode.
Proof.
  cbn [canonical]. intros Hc. bools Hc. subst dsap ssap.
  destruct (@encode_header_ok 0 0 0 ltac:(lia) ltac:(lia) ltac:(lia))
    as (hi & lo & Hhdr & Hd & Hs & Ht).
  exists hi, lo, []. split; [exact Hhdr|]. split; [exact Ht|].
  intros data offset rest Hat. cbn [app] in Hat.
  unfold Symmetry.decode.
  rewrite (decode_header_at (size := len [hi; lo]) Hat)
    by (rewrite !len_cons, len_nil; lia).
  cbn [bind]. rewrite Hd, Hs. reflexivity.
Qed.

Lemma disc_roundtrip (dsap ssap : Z) :
  canonical (DISC dsap ssap) = true ->
  reads_back (DISC dsap ssap) 5 Disconnect.decode.
Proof.
  cbn [canonical]. intros Hc. bools Hc.
  destruct (@encode_header_ok 5 dsap ssap ltac:(lia) ltac:(lia) ltac:(lia))
    as (hi & lo & Hhdr & Hd & Hs & Ht).
  exists hi, lo, []. split; [exact Hhdr|]. split; [exact Ht|].
  intros data offset rest Hat. cbn [app] in Hat.
  unfold Disconnect.decode.
  rewrite (decode_header_at (size := len [hi; lo]) Hat)
    by (rewrite !len_cons, len_nil; lia).
  cbn [bind]. rewrite Hd, Hs. reflexivity.
Qed.

Lemma ui_roundtrip (dsap ssap : Z) (payload : list byte) :
  canonical (UI dsap ssap payload) = true ->
  reads_back (UI dsap ssap payload) 3 UnnumberedInformation.decode.
Proof.
  cbn [canonical]. intros Hc. bools Hc.
  destruct (@encode_header_ok 3 dsap ssap ltac:(lia) ltac:(lia) ltac:(lia))
    as (hi & lo & Hhdr & Hd & Hs & Ht).
  exists hi, lo, payload. split; [|split; [exact Ht|]].
  - cbn [encode]. unfold UnnumberedInformation.encode. rewrite Hhdr. reflexivity.
  - intros data offset rest Hat.
    change (hi :: lo :: payload) with ([hi; lo] ++ payload) in *.
    rewrite <- app_assoc in Hat.
    assert (Hat2 : at_ data (offset + 2) (payload ++ rest))
      by (apply (at_skip [hi; lo] (payload ++ rest) Hat); reflexivity).
    pose proof (len_nonneg payload) as Hp.
    assert (Hlen : len ([hi; lo] ++ payload) = 2 + len payload)
      by (rewrite len_app, !len_cons, len_nil; lia).
    unfold UnnumberedInformation.decode.
    rewrite (decode_header_at (size := len ([hi; lo] ++ payload)) Hat) by lia.
    cbn [bind].
    rewrite (slice_at payload rest Hat2) by lia.
    rewrite Hd, Hs. reflexivity.
Qed.

Lemma dm_roundtrip (dsap ssap reason : Z) :
  canonical (DM dsap ssap reason) = true ->
  reads_back (DM dsap ssap reason) 7 DisconnectedMode.decode.
Proof.
  cbn [canonical]. intros Hc. bools Hc.
  destruct (@encode_header_ok 7 dsap ssap ltac:(lia) ltac:(lia) ltac:(lia))
    as (hi & lo & Hhdr & Hd & Hs & Ht).
  destruct (@pack_B_cons_some [] reason [] [] ltac:(lia) pack_nil)
    as (r & Hr & Hv).
  exists hi, lo, [r]. split; [|split; [exact Ht|]].
  - cbn [encode]. unfold DisconnectedMode.encode. rewrite Hhdr, Hr. reflexivity.
  - intros data offset rest Hat. cbn [app] in Hat.
    assert (Hat2 : at_ data (offset + 2) (r :: rest))
      by (apply (at_skip [hi; lo] (r :: rest) Hat); reflexivity).
    unfold DisconnectedMode.decode, raise_if.
    replace (len [hi; lo; r]) with 3 by reflexivity.
    cbn [Z.eqb Pos.eqb negb].
    rewrite (decode_header_at (size := 3) Hat) by lia.
    cbn [bind]. rewrite (unpack_B_at Hat2). cbn [bind].
    rewrite Hd, Hs, Hv. reflexivity.
Qed.

Lemma numbered_decode_header_at (data : buffer) (offset size : Z)
      (a b c : byte) (rest : list byte) :
  at_ data offset (a :: b :: c :: rest) -> 3 <= size ->
  NumberedProtocolDataUnit.decode_header data offset size
  = Ok (Z.shiftr (Z_of_byte a) 2, Z.land (Z_of_byte b) 63,
        Z.shiftr (Z_of_byte c) 4, Z.land (Z_of_byte c) 15).
Proof.
  intros Hat Hs. unfold NumberedProtocolDataUnit.decode_header, raise_if.
  zcmp. rewrite (unpack_BBB_at Hat). reflexivity.
Qed.

Lemma info_roundtrip (dsap ssap : Z) (ns nr : option Z) (payload : list byte) :
  canonical (INFO dsap ssap ns nr payload) = true ->
  reads_back (INFO dsap ssap ns nr payload) 12 Information.decode.
Proof.
  cbn [canonical]. intros Hc.
  destruct ns as [s|]; [|rewrite !andb_false_r in Hc; discriminate].
  destruct nr as [r|]; [|rewrite !andb_false_r in Hc; discriminate].
  cbn [seq_ok] in Hc. bools Hc.
  destruct (@numbered_encode_header_ok 12 dsap ssap s r true
              ltac:(lia) ltac:(lia) ltac:(lia) ltac:(lia) ltac:(lia)
              ltac:(discriminate))
    as (hi & lo & sq & Hhdr & Hd & Hs & Ht & Hns & Hnr).
  exists hi, lo, (sq :: payload). split; [|split; [exact Ht|]].
  - cbn [encode]. unfold Information.encode. rewrite Hhdr. reflexivity.
  - intros data offset rest Hat.
    change (hi :: lo :: sq :: payload) with ([hi; lo; sq] ++ payload) in *.
    rewrite <- app_assoc in Hat.
    assert (Hat2 : at_ data (offset + 3) (payload ++ rest))
      by (apply (at_skip [hi; lo; sq] (payload ++ rest) Hat); reflexivity).
    pose proof (len_nonneg payload) as Hp.
    assert (Hlen : len ([hi; lo; sq] ++ payload) = 3 + len payload)
      by (rewrite len_app, !len_cons, len_nil; lia).
    unfold Information.decode.
    rewrite (numbered_decode_header_at (size := len ([hi; lo; sq] ++ payload)) Hat)
      by lia.
    cbn [bind].
    rewrite (slice_at payload rest Hat2) by lia.
    rewrite Hd, Hs, Hns, Hnr. reflexivity.
Qed.

Lemma rr_roundtrip (dsap ssap : Z) (nr : option Z) :
  canonical (RR dsap ssap nr) = true ->
  reads_back (RR dsap ssap nr) 13 ReceiveReady.decode.
Proof.
  cbn [canonical]. intros Hc.
  destruct nr as [r|]; [|rewrite !andb_false_r in Hc; discriminate].
  cbn [seq_ok] in Hc. bools Hc.
  destruct (@numbered_encode_header_ok 13 dsap ssap 0 r false
              ltac:(lia) ltac:(lia) ltac:(lia) ltac:(lia) ltac:(lia)
              ltac:(reflexivity))
    as (hi & lo & sq & Hhdr & Hd & Hs & Ht & Hns & Hnr).
  exists hi, lo, [sq]. split; [exact Hhdr|]. split; [exact Ht|].
  intros data offset rest Hat. cbn [app] in Hat.
  unfold ReceiveReady.decode.
  rewrite (numbered_decode_header_at (size := len [hi; lo; sq]) Hat)
    by (rewrite !len_cons, len_nil; lia).
  cbn [bind]. rewrite Hd, Hs, Hnr. reflexivity.
Qed.

Lemma rnr_roundtrip (dsap ssap : Z) (nr : option Z) :
  canonical (RNR dsap ssap nr) = true ->
  reads_back (RNR dsap ssap nr) 14 ReceiveNotReady.decode.
Proof.
  cbn [canonical]. intros Hc.
  destruct nr as [r|]; [|rewrite !andb_false_r in Hc; discriminate].
  cbn [seq_ok] in Hc. bools Hc.
  destruct (@numbered_encode_header_ok 14 dsap ssap 0 r false
              ltac:(lia) ltac:(lia) ltac:(lia) ltac:(lia) ltac:(lia)
              ltac:(reflexivity))
    as (hi & lo & sq & Hhdr & Hd & Hs & Ht & Hns & Hnr).
  exists hi, lo, [sq]. split; [exact Hhdr|]. split; [exact Ht|].
  intros data offset rest Hat. cbn [app] in Hat.
  unfold ReceiveNotReady.decode.
  rewrite (numbered_decode_header_at (size := len [hi; lo; sq]) Hat)
    by (rewrite !len_cons, len_nil; lia).
  cbn [bind]. rewrite Hd, Hs, Hnr. reflexivity.
Qed.

(** ** The loop of an aggregated frame *)

Lemma unpack_H_range (data : buffer) (offset w : Z) :
  unpack_H data offset = Ok w -> 0 <= w <= 65535.
Proof.
  unfold unpack_H. destruct (read data offset 2) as [bs|e]; [|discriminate].
  destruct bs as [|x [|y [|z bs]]]; cbn [bind]; try discriminate.
  intros [= <-]. pose proof (Z_of_byte_range x). pose proof (Z_of_byte_range y).
  lia.
Qed.

Section AgfLoopFacts.
Variable dec : buffer -> Z -> Z -> result pdu.

Lemma agf_loop_n_enough (n m : nat) (data : buffer) (offset size : Z)
      (acc : list pdu) :
  size <= Z.of_nat n -> size <= Z.of_nat m ->
  AggregatedFrame.loop_n dec n data offset size acc
  = AggregatedFrame.loop_n dec m data offset size acc.
Proof.
  revert m offset size acc.
  induction n as [|n IH]; intros m offset size acc Hn Hm.
  - destruct m; cbn [AggregatedFrame.loop_n]; [reflexivity|]. zcmp. reflexivity.
  - cbn [AggregatedFrame.loop_n]. destruct (size >? 0) eqn:E.
    + apply Z.gtb_lt in E. destruct m as [|m]; [simpl in Hm; lia|].
      cbn [AggregatedFrame.loop_n]. zcmp.
      destruct (unpack_H data offset) as [w|e] eqn:Ew; [|reflexivity].
      cbn [bind]. destruct (dec data (offset + 2) w) as [p|e]; [|reflexivity].
      cbn [bind]. apply unpack_H_range in Ew. apply IH; lia.
    + rewrite Z.gtb_ltb in E. apply Z.ltb_ge in E.
      destruct m; cbn [AggregatedFrame.loop_n]; [reflexivity|]. zcmp. reflexivity.
Qed.

(** The loop's own equation: one entry, then the loop again. *)
Lemma agf_loop_eq (data : buffer) (offset size : Z) (acc : list pdu) :
  AggregatedFrame.loop dec data offset size acc
  = if size >? 0 then
      pdu_size <- unpack_H data offset ;;
      p <- dec data (offset + 2) pdu_size ;;
      AggregatedFrame.loop dec data (offset + 2 + pdu_size)
                           (size - 2 - pdu_size) (acc ++ [p])
    else Ok acc.
Proof.
  unfold AggregatedFrame.loop. destruct (size >? 0) eqn:E.
  - apply Z.gtb_lt in E. destruct (Z.to_nat size) as [|n] eqn:En; [lia|].
    cbn [AggregatedFrame.loop_n]. zcmp.
    destruct (unpack_H data offset) as [w|e] eqn:Ew; [|reflexivity].
    cbn [bind]. destruct (dec data (offset + 2) w) as [p|e]; [|reflexivity].
    cbn [bind]. apply unpack_H_range in Ew. apply agf_loop_n_enough; lia.
  - rewrite Z.gtb_ltb in E. apply Z.ltb_ge in E.
    destruct (Z.to_nat size); cbn [AggregatedFrame.loop_n]; [reflexivity|].
    zcmp. reflexivity.
Qed.

(** The loop on the entries that [encode] wrote, when [dec] reads each
    entry back. *)
Lemma agf_loop_joined (l : list pdu) :
  forall es hd acc,
    mapM encode l = Ok es ->
    Forall (fun e => len e <= 65535) es ->
    exists q,
      AggregatedFrame.join hd es = Ok (hd ++ q)
      /\ forall data offset rest,
          (forall p e off' rest',
              In p l -> encode p = Ok e -> at_ data off' (e ++ rest') ->
              dec data off' (len e) = Ok p) ->
          at_ data offset (q ++ rest) ->
          AggregatedFrame.loop dec data offset (len q) acc = Ok (acc ++ l).
Proof.
  induction l as [|p l IH]; intros es hd acc Hm Hfit.
  - cbn [mapM] in Hm. injection Hm as <-. exists []. split.
    + cbn [AggregatedFrame.join]. rewrite app_nil_r. reflexivity.
    + intros data offset rest _ _. rewrite agf_loop_eq, len_nil.
      cbn [Z.gtb Z.compare]. rewrite app_nil_r. reflexivity.
  - cbn [mapM] in Hm. apply bind_inv in Hm. destruct Hm as (e & He & Hm).
    apply bind_inv in Hm. destruct Hm as (es' & Hes & Hm). injection Hm as <-.
    inversion Hfit as [|? ? Hfe Hfes]; subst.
    pose proof (len_nonneg e) as He0.
    destruct (@pack_H_cons_some [] (len e) [] [] ltac:(lia) pack_nil)
      as (h1 & h0 & Hpk & Hw).
    destruct (IH es' (hd ++ [h1; h0] ++ e) (acc ++ [p]) Hes Hfes)
      as (q & Hjoin & Hloop).
    exists (([h1; h0] ++ e) ++ q). split.
    + cbn [AggregatedFrame.join]. rewrite Hpk. cbn [bind]. rewrite Hjoin.
      rewrite <- !app_assoc. reflexivity.
    + intros data offset rest Hdec Hat.
      rewrite <- !app_assoc in Hat.
      assert (Hat2 : at_ data (offset + 2) (e ++ q ++ rest))
        by (apply (at_skip [h1; h0] (e ++ q ++ rest) Hat); reflexivity).
      assert (Hat3 : at_ data (offset + 2 + len e) (q ++ rest))
        by (apply (at_skip e (q ++ rest) Hat2); reflexivity).
      pose proof (len_nonneg q) as Hq0.
      assert (Hlen : len (([h1; h0] ++ e) ++ q) = 2 + len e + len q)
        by (rewrite !len_app, !len_cons, len_nil; lia).
      rewrite agf_loop_eq. zcmp.
      rewrite (unpack_H_at Hat), Hw. cbn [bind].
      rewrite (Hdec p e (offset + 2) (q ++ rest) (or_introl eq_refl) He Hat2).
      cbn [bind].
      replace (len (([h1; h0] ++ e) ++ q) - 2 - len e) with (len q) by lia.
      rewrite (Hloop data (offset + 2 + len e) rest).
      * rewrite <- app_assoc. reflexivity.
      * intros p' e' off' rest' Hin. apply Hdec. right. exact Hin.
      * exact Hat3.
Qed.
End AgfLoopFacts.

Lemma depth_entry (p : pdu) (l : list pdu) :
  In p l -> (depth p <= fold_right Nat.max 0 (map depth l))%nat.
Proof.
  induction l as [|x l IH]; intros Hin; [destruct Hin|].
  cbn [map fold_right]. destruct Hin as [-> | Hin]; [lia|].
  specialize (IH Hin). lia.
Qed.

(** ** Decoding what [encode] wrote *)

(** From a class method to the module-level [decode_n]. *)
Lemma reads_back_decode_n (v : pdu) (t : Z) (c : Cls.class)
      (dec : buffer -> Z -> Z -> result pdu) :
  reads_back v t dec ->
  pdu_type_map t = Some c ->
  (forall f data offset size, class_decode f c data offset size = dec data offset size) ->
  exists b,
    encode v = Ok b
    /\ forall n data offset rest,
        (0 < n)%nat -> at_ data offset (b ++ rest) ->
        decode_n n data offset (len b) = Ok v.
Proof.
  intros (hi & lo & tl & Henc & Ht & Hdec) Hmap Hcls.
  exists (hi :: lo :: tl). split; [exact Henc|].
  intros n data offset rest Hn Hat. destruct n as [|n]; [lia|].
  pose proof (at_fits _ _ Hat) as Hfit.
  pose proof (len_nonneg tl) as Htl.
  rewrite (@decode_n_dispatch n data offset (len (hi :: lo :: tl)) hi lo
                              (tl ++ rest) Hat)
    by (rewrite ?len_cons in *; lia).
  rewrite Ht, Hmap, Hcls. apply (Hdec data offset rest Hat).
Qed.

Lemma mapM_fits (l : list pdu) :
  forallb (fun p => canonical p && fits encode p) l = true ->
  exists es, mapM encode l = Ok es /\ Forall (fun e => len e <= 65535) es.
Proof.
  induction l as [|p l IH]; intros H.
  - exists []. split; [reflexivity | constructor].
  - cbn [forallb] in H. apply andb_true_iff in H. destruct H as [Hp Hl].
    apply andb_true_iff in Hp. destruct Hp as [_ Hfit].
    destruct (IH Hl) as (es & Hes & Hall).
    unfold fits in Hfit. destruct (encode p) as [e|] eqn:He; [|discriminate].
    apply Z.leb_le in Hfit.
    exists (e :: es). cbn [mapM]. rewrite He, Hes. split; [reflexivity|].
    constructor; assumption.
Qed.

(** Every canonical value is encoded, and the bytes decode to the value
    wherever they lie in a buffer, under any bound on the nesting that
    exceeds the nesting of the value. *)
Lemma roundtrip_n (v : pdu) :
  canonical v = true ->
  exists b,
    encode v = Ok b
    /\ forall n data offset rest,
        (depth v < n)%nat -> at_ data offset (b ++ rest) ->
        decode_n n data offset (len b) = Ok v.
Proof.
  induction v as [v IH] using pdu_ind_entries. intros Hc.
  assert (Hlift : forall t c dec,
             reads_back v t dec -> pdu_type_map t = Some c ->
             (forall f data offset size,
                 class_decode f c data offset size = dec data offset size) ->
             exists b,
               encode v = Ok b
               /\ forall n data offset rest,
                   (depth v < n)%nat -> at_ data offset (b ++ rest) ->
                   decode_n n data offset (len b) = Ok v).
  { intros t c dec Hrb Hmap Hcls.
    destruct (reads_back_decode_n Hrb Hmap Hcls) as (b & Henc & Hdec).
    exists b. split; [exact Henc|].
    intros n data offset rest Hn Hat. apply (Hdec n data offset rest); [lia | exact Hat]. }
  destruct v; try discriminate Hc.
  - apply (Hlift 0 Cls.Symmetry Symmetry.decode (symm_roundtrip _ _ Hc));
      reflexivity.
  - apply (Hlift 1 Cls.ParameterExchange ParameterExchange.decode
                 (pax_roundtrip _ _ _ _ _ _ _ _ Hc)); reflexivity.
  - (* AGF *)
    clear Hlift. cbn [canonical] in Hc.
    apply andb_true_iff in Hc. destruct Hc as [Hc Hall]. bools Hc.
    subst dsap ssap. cbn [entries] in IH.
    destruct (mapM_fits _ Hall) as (es & Hes & Hfit).
    destruct (@encode_header_ok 2 0 0 ltac:(lia) ltac:(lia) ltac:(lia))
      as (hi & lo & Hhdr & Hd & Hs & Ht).
    assert (Hq : forall dec acc,
               exists q,
                 AggregatedFrame.join [hi; lo] es = Ok ([hi; lo] ++ q)
                 /\ forall data offset rest,
                     (forall p e off' rest',
                         In p aggregate -> encode p = Ok e ->
                         at_ data off' (e ++ rest') ->
                         dec data off' (len e) = Ok p) ->
                     at_ data offset (q ++ rest) ->
                     AggregatedFrame.loop dec data offset (len q) acc
                     = Ok (acc ++ aggregate))
      by (intros dec acc; apply (@agf_loop_joined dec aggregate es [hi; lo] acc Hes Hfit)).
    destruct (Hq (fun _ _ _ => Raise RecursionDepth) []) as (q & Hjoin & _).
    exists ([hi; lo] ++ q). split.
    + cbn [encode]. unfold AggregatedFrame.encode. rewrite Hhdr. cbn [bind].
      rewrite Hes. cbn [bind]. exact Hjoin.
    + intros n data offset rest Hn Hat. destruct n as [|n]; [lia|].
      cbn [depth] in Hn.
      pose proof (at_fits _ _ Hat) as Hfits.
      pose proof (len_nonneg q) as Hq0.
      assert (Hlen : len ([hi; lo] ++ q) = 2 + len q)
        by (rewrite len_app, !len_cons, len_nil; lia).
      rewrite <- app_assoc in Hat.
      rewrite (@decode_n_dispatch n data offset (len ([hi; lo] ++ q)) hi lo
                                  (q ++ rest) Hat) by lia.
      rewrite Ht. cbn [pdu_type_map class_decode].
      unfold AggregatedFrame.decode.
      rewrite (decode_header_at (size := len ([hi; lo] ++ q)) Hat) by lia.
      cbn [bind]. rewrite Hd, Hs. unfold raise_if. cbn [Z.eqb negb].
      replace (len ([hi; lo] ++ q) - 2) with (len q) by lia.
      destruct (Hq (decode_n n) []) as (q' & Hjoin' & Hloop).
      rewrite Hjoin in Hjoin'. injection Hjoin' as Hqq. subst q'.
      assert (Hat2 : at_ data (offset + 2) (q ++ rest))
        by (apply (at_skip [hi; lo] (q ++ rest) Hat); reflexivity).
      rewrite (Hloop data (offset + 2) rest); [reflexivity | | exact Hat2].
      intros p e off' rest' Hin He Hat'.
      rewrite Forall_forall in IH.
      rewrite forallb_forall in Hall. specialize (Hall p Hin).
      apply andb_true_iff in Hall. destruct Hall as [Hcp _].
      destruct (IH p Hin Hcp) as (b & Hb & Hdec).
      rewrite He in Hb. injection Hb as <-.
      apply (Hdec n data off' rest'); [|exact Hat'].
      pose proof (depth_entry p aggregate Hin). lia.
  - apply (Hlift 3 Cls.UnnumberedInformation UnnumberedInformation.decode
                 (ui_roundtrip _ _ _ Hc)); reflexivity.
  - apply (Hlift 4 Cls.Connect Connect.decode
                 (connect_roundtrip _ _ _ _ _ Hc)); reflexivity.
  - apply (Hlift 5 Cls.Disconnect Disconnect.decode (disc_roundtrip _ _ Hc));
      reflexivity.
  - apply (Hlift 6 Cls.ConnectionComplete ConnectionComplete.decode
                 (cc_roundtrip _ _ _ _ Hc)); reflexivity.
  - apply (Hlift 7 Cls.DisconnectedMode DisconnectedMode.decode
                 (dm_roundtrip _ _ _ Hc)); reflexivity.
  - apply (Hlift 9 Cls.ServiceNameLookup ServiceNameLookup.decode
                 (snl_roundtrip _ _ _ _ Hc)); reflexivity.
  - apply (Hlift 10 Cls.DataProtectionSetup DataProtectionSetup.decode
                 (dps_roundtrip _ _ _ _ Hc)); reflexivity.
  - apply (Hlift 12 Cls.Information Information.decode
                 (info_roundtrip _ _ _ _ _ Hc)); reflexivity.
  - apply (Hlift 13 Cls.ReceiveReady ReceiveReady.decode (rr_roundtrip _ _ _ Hc));
      reflexivity.
  - apply (Hlift 14 Cls.ReceiveNotReady ReceiveNotReady.decode
                 (rnr_roundtrip _ _ _ Hc)); reflexivity.
Qed.

(** ** The bound on the nesting that [decode] starts with *)

(** A value nests no deeper than its encoding is long. *)
Lemma depth_le_len (v : pdu) :
  forall b, encode v = Ok b -> Z.of_nat (depth v) <= len b.
Proof.
  induction v as [v IH] using pdu_ind_entries. intros b H.
  destruct v; try (cbn [depth]; apply len_nonneg).
  cbn [encode] in H. unfold AggregatedFrame.encode in H. unbind H.
  apply encode_header_len in Hx. apply join_len in H. cbn [entries] in IH.
  cbn [depth]. rewrite H, Hx.
  assert (Hm : Z.of_nat (fold_right Nat.max 0%nat (map depth aggregate))
               <= fold_right Z.add 0 (map (fun e => 2 + len e) x0)).
  { clear H Hx. revert x0 Hx0.
    induction aggregate as [|p l IHl]; intros es Hes; cbn [mapM] in Hes.
    - injection Hes as <-. cbn [map fold_right]. lia.
    - unbind Hes. injection Hes as <-.
      inversion IH as [|? ? IHp IHl']; subst.
      specialize (IHl IHl' _ Hx0). specialize (IHp _ Hx).
      cbn [map fold_right]. lia. }
  lia.
Qed.

(** C1, as amended.  Every canonical value is encoded; decoding the bytes
    gives the value back, field by field, also when the bytes lie inside a
    larger buffer; and encoding what was decoded gives the same bytes. *)
Theorem roundtrip_canonical (v : pdu) :
  canonical v = true ->
  exists b,
    encode v = Ok b
    /\ decode b 0 None = Ok v
    /\ (forall pre post,
           decode (pre ++ b ++ post) (len pre) (Some (len b)) = Ok v)
    /\ (v' <- decode b 0 None ;; encode v') = Ok b.
Proof.
  intros Hc. destruct (roundtrip_n v Hc) as (b & Henc & Hdec).
  pose proof (depth_le_len v Henc) as Hdepth.
  assert (Hat : forall pre post,
             decode (pre ++ b ++ post) (len pre) (Some (len b)) = Ok v).
  { intros pre post. unfold decode, size_of.
    apply (Hdec _ (pre ++ b ++ post) (len pre) post); [|apply at_app].
    rewrite !length_app. unfold len in Hdepth. lia. }
  assert (H0 : decode b 0 None = Ok v).
  { unfold decode, size_of. apply (Hdec (S (List.length b)) b 0 []).
    - unfold len in Hdepth. lia.
    - rewrite app_nil_r. apply at_start. }
  exists b. repeat split; try assumption.
  rewrite H0. cbn [bind]. exact Henc.
Qed.

Lemma roundtrip_canonical_witness :
  exists b,
    encode (AGF 0 0 [CONNECT 2 32 130 4 [x61; x62]%byte; RR 1 2 (Some 3)]) = Ok b
    /\ decode b 0 None
       = Ok (AGF 0 0 [CONNECT 2 32 130 4 [x61; x62]%byte; RR 1 2 (Some 3)])
    /\ (forall pre post,
           decode (pre ++ b ++ post) (len pre) (Some (len b))
           = Ok (AGF 0 0 [CONNECT 2 32 130 4 [x61; x62]%byte; RR 1 2 (Some 3)]))
    /\ (v' <- decode b 0 None ;; encode v') = Ok b.
Proof. apply roundtrip_canonical. reflexivity. Defined.

(** C1, as stated, fails in both directions.  A Parameter Exchange value
    with a link timeout of 105 is encoded in units of 10 and decodes to a
    timeout of 100, and a Symmetry value with a nonzero address is encoded
    but not accepted back.  A Receive Ready PDU whose reserved nibble is set
    and a Parameter Exchange PDU that carries a service name TLV are both
    accepted, and encoding the decoded value gives other bytes. *)
Lemma roundtrip_counterexample :
  (encode (PAX 0 0 (1, 0) 128 3 105 3 0)
   = Ok [x00; x40; x01; x01; x10; x03; x02; x00; x03;
         x04; x01; x0a; x07; x01; x03]%byte
   /\ decode [x00; x40; x01; x01; x10; x03; x02; x00; x03;
              x04; x01; x0a; x07; x01; x03]%byte 0 None
      = Ok (PAX 0 0 (1, 0) 128 3 100 3 0)
   /\ PAX 0 0 (1, 0) 128 3 100 3 0 <> PAX 0 0 (1, 0) 128 3 105 3 0)
  /\ (encode (SYMM 1 0) = Ok [x04; x00]%byte
      /\ decode [x04; x00]%byte 0 None
         = Raise (DecodeError "SYMM PDU DSAP must be zero"))
  /\ (decode [x07; x42; x53]%byte 0 None = Ok (RR 1 2 (Some 3))
      /\ encode (RR 1 2 (Some 3)) = Ok [x07; x42; x03]%byte
      /\ [x07; x42; x03]%byte <> [x07; x42; x53]%byte)
  /\ (decode [x00; x40; x06; x01; x61]%byte 0 None
      = Ok (PAX 0 0 (1, 0) 128 3 100 3 0)
      /\ encode (PAX 0 0 (1, 0) 128 3 100 3 0)
         = Ok [x00; x40; x01; x01; x10; x03; x02; x00; x03; x07; x01; x03]%byte
      /\ [x00; x40; x01; x01; x10; x03; x02; x00; x03; x07; x01; x03]%byte
         <> [x00; x40; x06; x01; x61]%byte).
Proof.
  repeat split; try reflexivity; discriminate.
Qed.

(** ** The attributes of a decoded Parameter Exchange PDU *)

Lemma last_value_ok (T : Z) (ts : list (Z * value)) (V : value) :
  Forall (fun tv => tlv_ok (fst tv) (snd tv) = true) ts ->
  last_value T ts = Some V -> tlv_ok T V = true.
Proof.
  induction ts as [|[T' V'] ts IH]; intros Hok H; [discriminate|].
  inversion Hok as [|? ? HTV Hrest]; subst. cbn [last_value] in H.
  destruct (last_value T ts) as [x|].
  - injection H as ->. apply IH; [exact Hrest | reflexivity].
  - destruct (T' =? T) eqn:E; [|discriminate]. injection H as ->.
    apply Z.eqb_eq in E. subst T'. exact HTV.
Qed.

(** The loop body over a sequence of TLVs leaves, in every attribute, the
    conversion of the last TLV of its type, or what was there before. *)
Lemma pax_run_written (ts : list (Z * value)) :
  Forall (fun tv => tlv_ok (fst tv) (snd tv) = true) ts ->
  forall st,
    run_opts ParameterExchange.body (written ts) st
    = Ok (ParameterExchange.mk
            (match last_value Param.VERSION ts with
             | Some (V_pair a b) => (a, b)
             | _ => ParameterExchange.version st
             end)
            (match last_value Param.MIUX ts with
             | Some (V_int v) => 128 + v
             | _ => ParameterExchange.miu st
             end)
            (match last_value Param.WKS ts with
             | Some (V_int w) => w
             | _ => ParameterExchange.wks st
             end)
            (match last_value Param.LTO ts with
             | Some (V_int t) => t * 10
             | _ => ParameterExchange.lto st
             end)
            (match last_value Param.OPT ts with
             | Some (V_int o) => Z.land o 3
             | _ => ParameterExchange.lsc st
             end)
            (match last_value Param.OPT ts with
             | Some (V_int o) => Z.land (Z.shiftr o 2) 1
             | _ => ParameterExchange.dpc st
             end)).
Proof.
  induction ts as [|[T V] ts IH]; intros Hok st.
  - destruct st; reflexivity.
  - inversion Hok as [|? ? HTV Hrest]; subst. cbn [fst snd] in HTV.
    unfold written. cbn [map run_opts fst snd]. fold (written ts).
    assert (Hbody : exists st1,
               ParameterExchange.body st (T, tlv_L T V, V) = Ok st1
               /\ ParameterExchange.version st1
                  = (match (if T =? Param.VERSION then Some V else None) with
                     | Some (V_pair a b) => (a, b)
                     | _ => ParameterExchange.version st
                     end)
               /\ ParameterExchange.miu st1
                  = (match (if T =? Param.MIUX then Some V else None) with
                     | Some (V_int v) => 128 + v
                     | _ => ParameterExchange.miu st
                     end)
               /\ ParameterExchange.wks st1
                  = (match (if T =? Param.WKS then Some V else None) with
                     | Some (V_int w) => w
                     | _ => ParameterExchange.wks st
                     end)
               /\ ParameterExchange.lto st1
                  = (match (if T =? Param.LTO then Some V else None) with
                     | Some (V_int t) => t * 10
                     | _ => ParameterExchange.lto st
                     end)
               /\ ParameterExchange.lsc st1
                  = (match (if T =? Param.OPT then Some V else None) with
                     | Some (V_int o) => Z.land o 3
                     | _ => ParameterExchange.lsc st
                     end)
               /\ ParameterExchange.dpc st1
                  = (match (if T =? Param.OPT then Some V else None) with
                     | Some (V_int o) => Z.land (Z.shiftr o 2) 1
                     | _ => ParameterExchange.dpc st
                     end)).
    { clear IH Hok Hrest.
      unfold ParameterExchange.body, tlv_ok, Param.VERSION, Param.MIUX,
        Param.WKS, Param.LTO, Param.RW, Param.SN, Param.OPT, Param.SDREQ,
        Param.SDRES, Param.ECPK, Param.RN in *.
      destruct V;
        repeat (norm_bools;
                match goal with
                | H : _ \/ _ |- _ => destruct H
                end);
        norm_bools; subst; cbn [Z.eqb Pos.eqb];
        eexists; (split; [reflexivity|]); cbn; repeat split; reflexivity. }
    destruct Hbody as (st1 & Hst1 & Ever & Emiu & Ewks & Elto & Elsc & Edpc).
    rewrite Hst1. cbn [bind]. rewrite (IH Hrest st1). cbn [last_value].
    rewrite Ever, Emiu, Ewks, Elto, Elsc, Edpc.
    f_equal. f_equal.
    all: match goal with
         | |- context [last_value ?T ?l] =>
             pose proof (@last_value_ok T l) as Hlast;
             destruct (last_value T l) as [[]|];
             try reflexivity;
             specialize (Hlast _ Hrest eq_refl); discriminate Hlast
         end.
Qed.

(** C7.  A Parameter Exchange PDU whose payload is any sequence of
    well-formed TLVs decodes with the documented conversions: the MIU is 128
    plus the value of the (last) MIUX TLV, or 128 without one; the LTO is 10
    times the value of the LTO TLV, or 100; LSC and DPC are [o & 3] and
    [(o >> 2) & 1] of the value [o] of the OPT TLV, or 3 and 0.  The value of
    a MIUX TLV is the low 11 bits of its word. *)
Theorem pax_decode_conversions (ts : list (Z * value)) :
  Forall (fun tv => tlv_ok (fst tv) (snd tv) = true) ts ->
  (exists payload version wks,
      add_opts (written ts) [] = Ok payload
      /\ decode ([x00; x40]%byte ++ payload) 0 None
         = Ok (PAX 0 0 version
                   (match last_value Param.MIUX ts with
                    | Some (V_int v) => 128 + v
                    | _ => 128
                    end)
                   wks
                   (match last_value Param.LTO ts with
                    | Some (V_int t) => t * 10
                    | _ => 100
                    end)
                   (match last_value Param.OPT ts with
                    | Some (V_int o) => Z.land o 3
                    | _ => 3
                    end)
                   (match last_value Param.OPT ts with
                    | Some (V_int o) => Z.land (Z.shiftr o 2) 1
                    | _ => 0
                    end)))
  /\ (forall hi lo : byte,
         decode [x00; x40; x02; x02; hi; lo]%byte 0 None
         = Ok (PAX 0 0 (1, 0)
                   (128 + Z.land (Z_of_byte hi * 256 + Z_of_byte lo) 2047)
                   3 100 3 0)).
Proof.
  intros Hts. split; [|intros hi lo; reflexivity].
  assert (Hok : opts_ok (written ts)).
  { unfold opts_ok, written. apply Forall_map.
    revert Hts. apply Forall_impl. intros [T V] H _. exact H. }
  destruct (tlv_run_exists ParameterExchange.body [] Hok) as (p & Hadd & Hloop).
  cbn [app] in Hadd.
  eexists p, _, _. split; [exact Hadd|].
  unfold decode, size_of.
  assert (Hat : at_ ([x00; x40]%byte ++ p) 0 (x00%byte :: x40%byte :: p ++ []))
    by (rewrite app_nil_r; apply at_start).
  assert (Hat2 : at_ ([x00; x40]%byte ++ p) (0 + 2) (p ++ []))
    by (apply (at_skip [x00; x40]%byte (p ++ []) Hat); reflexivity).
  pose proof (len_nonneg p) as Hp.
  assert (Hlen : len ([x00; x40]%byte ++ p) = 2 + len p)
    by (rewrite len_app, !len_cons, len_nil; lia).
  remember ([x00; x40]%byte ++ p) as data eqn:Edata.
  rewrite (@decode_n_dispatch (List.length data) data 0 (len data)
                              x00%byte x40%byte (p ++ []) Hat) by lia.
  change (pdu_type_map _) with (Some Cls.ParameterExchange).
  cbn [class_decode]. unfold ParameterExchange.decode.
  rewrite (decode_header_at (size := len data) Hat) by lia.
  cbn [bind]. unfold raise_if.
  change (Z.shiftr (Z_of_byte x00) 2) with 0.
  change (Z.land (Z_of_byte x40) 63) with 0.
  cbn [Z.eqb negb].
  replace (len data - 2) with (len p) by lia.
  rewrite (Hloop data (0 + 2) [] ParameterExchange.init Hat2).
  rewrite (pax_run_written Hts). cbn [bind]. reflexivity.
Qed.

Lemma pax_decode_conversions_witness :
  (exists payload version wks,
      add_opts (written [(2, V_int 5); (4, V_int 7); (7, V_int 6)]) [] = Ok payload
      /\ decode ([x00; x40]%byte ++ payload) 0 None
         = Ok (PAX 0 0 version 133 wks 70 2 1))
  /\ (forall hi lo : byte,
         decode [x00; x40; x02; x02; hi; lo]%byte 0 None
         = Ok (PAX 0 0 (1, 0)
                   (128 + Z.land (Z_of_byte hi * 256 + Z_of_byte lo) 2047)
                   3 100 3 0)).
Proof.
  apply (@pax_decode_conversions [(2, V_int 5); (4, V_int 7); (7, V_int 6)]).
  repeat constructor.
Defined.

(** ** [decode] is total

    The bound on the nesting is a device of the embedding; no call of
    [decode] reaches it. *)

Lemma no_rd_Ok (A : Type) (a : A) : no_rd (Ok a).
Proof. intros H. discriminate H. Qed.

Lemma no_rd_bind (A B : Type) (m : result A) (f : A -> result B) :
  no_rd m -> (forall a, m = Ok a -> no_rd (f a)) -> no_rd (bind m f).
Proof.
  intros Hm Hf. destruct m as [a|e]; cbn [bind].
  - apply Hf. reflexivity.
  - intros H. apply Hm. injection H as ->. reflexivity.
Qed.

Lemma no_rd_read (data : buffer) (offset : Z) (n : nat) :
  no_rd (read data offset n).
Proof.
  unfold read. cbv zeta.
  match goal with |- no_rd (if ?c then _ else _) => destruct c end;
    intros H; discriminate H.
Qed.

(** Decomposes a goal [no_rd r] along the structure of [r]. *)
Ltac no_rd_step :=
  match goal with
  | |- no_rd (Ok _) => apply no_rd_Ok
  | |- no_rd (Raise _) => let H := fresh in intros H; discriminate H
  | |- no_rd (read _ _ _) => apply no_rd_read
  | |- no_rd (bind _ _) => apply no_rd_bind; [|intros ? ?]
  | |- no_rd (raise_if _ _ _) => unfold raise_if
  | |- no_rd (assert_ _ _ _) => unfold assert_
  | |- no_rd (if ?c then _ else _) => destruct c
  | |- no_rd (match ?x with _ => _ end) => destruct x
  | |- no_rd (let '(_, _) := ?p in _) => destruct p
  | H : no_rd ?r |- no_rd ?r => exact H
  end.

Ltac no_rd_tac := repeat no_rd_step.

Lemma no_rd_unpack_B (data : buffer) (offset : Z) : no_rd (unpack_B data offset).
Proof. unfold unpack_B. no_rd_tac. Qed.

Lemma no_rd_unpack_BB (data : buffer) (offset : Z) : no_rd (unpack_BB data offset).
Proof. unfold unpack_BB. no_rd_tac. Qed.

Lemma no_rd_unpack_BBB (data : buffer) (offset : Z) : no_rd (unpack_BBB data offset).
Proof. unfold unpack_BBB. no_rd_tac. Qed.

Lemma no_rd_unpack_BBBB (data : buffer) (offset : Z) :
  no_rd (unpack_BBBB data offset).
Proof. unfold unpack_BBBB. no_rd_tac. Qed.

Lemma no_rd_unpack_H (data : buffer) (offset : Z) : no_rd (unpack_H data offset).
Proof. unfold unpack_H. no_rd_tac. Qed.

Lemma no_rd_unpack_Bs (n : Z) (data : buffer) (offset : Z) :
  no_rd (unpack_Bs n data offset).
Proof. unfold unpack_Bs. no_rd_tac. Qed.

Lemma no_rd_index (data : buffer) (i : Z) : no_rd (index data i).
Proof. unfold index. cbv zeta. no_rd_tac. Qed.

Lemma no_rd_param_decode (data : buffer) (offset size : Z) :
  no_rd (Param.decode data offset size).
Proof.
  unfold Param.decode.
  apply no_rd_bind; [apply no_rd_unpack_BB|]. intros [T L] _.
  unfold assert_.
  repeat match goal with
         | |- no_rd (if ?c then _ else _) => destruct c
         end;
    try (intros H; discriminate H);
    try (apply no_rd_bind;
         [first [apply no_rd_unpack_B | apply no_rd_unpack_H
                | apply no_rd_unpack_BB | apply no_rd_unpack_Bs]
         | intros ? _; no_rd_tac]).
Qed.

Lemma no_rd_decode_header (data : buffer) (offset size : Z) :
  no_rd (ProtocolDataUnit.decode_header data offset size).
Proof.
  unfold ProtocolDataUnit.decode_header, raise_if.
  destruct (size <? 2); [intros H; discriminate H|].
  apply no_rd_bind; [apply no_rd_unpack_BB | intros [a b] _; apply no_rd_Ok].
Qed.

Lemma no_rd_numbered_decode_header (data : buffer) (offset size : Z) :
  no_rd (NumberedProtocolDataUnit.decode_header data offset size).
Proof.
  unfold NumberedProtocolDataUnit.decode_header, raise_if.
  destruct (size <? 3); [intros H; discriminate H|].
  apply no_rd_bind; [apply no_rd_unpack_BBB | intros [[a b] c] _; apply no_rd_Ok].
Qed.

Lemma no_rd_tlv_loop (St : Type) (body : St -> tlv -> result St)
      (data : buffer) (offset size : Z) (st : St) :
  (forall s t, no_rd (body s t)) ->
  no_rd (tlv_loop body data offset size st).
Proof.
  intros Hbody. unfold tlv_loop. generalize (Z.to_nat size) as n.
  intros n. revert offset size st.
  induction n as [|n IH]; intros offset size st; cbn [tlv_loop_n].
  - apply no_rd_Ok.
  - destruct (size >=? 2); [|apply no_rd_Ok].
    apply no_rd_bind; [apply no_rd_param_decode|].
    intros [[[T L] V]|] _; [|intros H; discriminate H].
    apply no_rd_bind; [apply Hbody|]. intros st' _. apply IH.
Qed.

(** The loop bodies only raise [TypeError]. *)
Ltac no_rd_body :=
  let s := fresh "s" in
  let T := fresh "T" in
  let L := fresh "L" in
  let V := fresh "V" in
  intros s [[T L] V]; cbv beta iota;
  repeat match goal with
         | |- no_rd (if ?c then _ else _) => destruct c
         | |- no_rd (match ?x with _ => _ end) => destruct x
         | |- no_rd (bind _ _) => apply no_rd_bind; [|intros ? ?]
         | |- no_rd (Ok _) => apply no_rd_Ok
         | |- no_rd (Raise _) => let H := fresh in intros H; discriminate H
         end.

Lemma no_rd_class_decode (dec : buffer -> Z -> Z -> result pdu) (c : Cls.class)
      (data : buffer) (offset size : Z) :
  c <> Cls.AggregatedFrame ->
  no_rd (class_decode dec c data offset size).
Proof.
  intros Hc. destruct c; try congruence; cbn [class_decode].
  - intros H; discriminate H.
  - intros H; discriminate H.
  - intros H; discriminate H.
  - unfold Symmetry.decode.
    apply no_rd_bind; [apply no_rd_decode_header | intros [d s] _; no_rd_tac].
  - unfold ParameterExchange.decode.
    apply no_rd_bind; [apply no_rd_decode_header | intros [d s] _].
    unfold raise_if. no_rd_tac.
    apply no_rd_tlv_loop. unfold ParameterExchange.body. no_rd_body.
  - unfold UnnumberedInformation.decode.
    apply no_rd_bind; [apply no_rd_decode_header | intros [d s] _; no_rd_tac].
  - unfold Connect.decode.
    apply no_rd_bind; [apply no_rd_decode_header | intros [d s] _].
    apply no_rd_bind; [|intros; apply no_rd_Ok].
    apply no_rd_tlv_loop. unfold Connect.body. no_rd_body.
  - unfold Disconnect.decode.
    apply no_rd_bind; [apply no_rd_decode_header | intros [d s] _; no_rd_tac].
  - unfold ConnectionComplete.decode.
    apply no_rd_bind; [apply no_rd_decode_header | intros [d s] _].
    apply no_rd_bind; [|intros; apply no_rd_Ok].
    apply no_rd_tlv_loop. unfold ConnectionComplete.body. no_rd_body.
  - unfold DisconnectedMode.decode, raise_if.
    destruct (negb (size =? 3)); [intros H; discriminate H|].
    apply no_rd_bind; [apply no_rd_decode_header | intros [d s] _].
    apply no_rd_bind; [apply no_rd_unpack_B | intros; apply no_rd_Ok].
  - unfold FrameReject.decode, raise_if.
    destruct (negb (size =? 6)); [intros H; discriminate H|].
    apply no_rd_bind; [apply no_rd_decode_header | intros [d s] _].
    apply no_rd_bind; [apply no_rd_unpack_BBBB | intros [[[b0 b1] b2] b3] _].
    apply no_rd_Ok.
  - unfold ServiceNameLookup.decode.
    apply no_rd_bind; [apply no_rd_decode_header | intros [d s] _].
    apply no_rd_bind; [|intros; apply no_rd_Ok].
    apply no_rd_tlv_loop. unfold ServiceNameLookup.body. no_rd_body.
  - unfold DataProtectionSetup.decode.
    apply no_rd_bind; [apply no_rd_decode_header | intros [d s] _].
    apply no_rd_bind; [|intros; apply no_rd_Ok].
    apply no_rd_tlv_loop. unfold DataProtectionSetup.body. no_rd_body.
  - unfold Information.decode.
    apply no_rd_bind; [apply no_rd_numbered_decode_header|].
    intros [[[d s] ns] nr] _. apply no_rd_Ok.
  - unfold ReceiveReady.decode.
    apply no_rd_bind; [apply no_rd_numbered_decode_header|].
    intros [[[d s] ns] nr] _. apply no_rd_Ok.
  - unfold ReceiveNotReady.decode.
    apply no_rd_bind; [apply no_rd_numbered_decode_header|].
    intros [[[d s] ns] nr] _. apply no_rd_Ok.
  - unfold UnknownProtocolDataUnit.decode.
    apply no_rd_bind; [apply no_rd_decode_header | intros [d s] _].
    apply no_rd_bind; [apply no_rd_index | intros b0 _].
    apply no_rd_bind; [apply no_rd_index | intros b1 _].
    cbv zeta. intros H. discriminate H.
Qed.

(** Where [struct.unpack_from] can read two bytes. *)
Lemma unpack_H_offset (data : buffer) (offset w : Z) :
  unpack_H data offset = Ok w -> - len data <= offset <= len data - 2.
Proof.
  unfold unpack_H, read. cbv zeta. pose proof (len_nonneg data) as Hl.
  destruct (offset <? 0) eqn:E0.
  - apply Z.ltb_lt in E0.
    destruct ((offset + len data <? 0)
              || (len data - (offset + len data) <? Z.of_nat 2)) eqn:E;
      [discriminate|].
    apply orb_false_iff in E. destruct E as [E1 E2].
    apply Z.ltb_ge in E1, E2. intros _. lia.
  - apply Z.ltb_ge in E0.
    destruct ((offset <? 0) || (len data - offset <? Z.of_nat 2)) eqn:E;
      [discriminate|].
    apply orb_false_iff in E. destruct E as [E1 E2].
    apply Z.ltb_ge in E2. intros _. lia.
Qed.

(** The loop of an aggregated frame is not cut off when no call for an
    entry is: the entries lie two bytes after a readable length field, at
    or after the offset of the loop. *)
Lemma no_rd_agf_loop (dec : buffer -> Z -> Z -> result pdu) (data : buffer)
      (n : nat) :
  forall offset size acc,
    (forall o s, offset + 2 <= o <= len data -> no_rd (dec data o s)) ->
    no_rd (AggregatedFrame.loop_n dec n data offset size acc).
Proof.
  induction n as [|n IH]; intros offset size acc Hdec; cbn [AggregatedFrame.loop_n].
  - apply no_rd_Ok.
  - destruct (size >? 0); [|apply no_rd_Ok].
    apply no_rd_bind; [apply no_rd_unpack_H|]. intros w Hw.
    pose proof (unpack_H_offset _ _ Hw) as Ho.
    pose proof (unpack_H_range _ _ Hw) as Hr.
    apply no_rd_bind; [apply Hdec; lia|]. intros p _.
    apply IH. intros o s Hos. apply Hdec. lia.
Qed.

Lemma no_rd_decode_n (n : nat) :
  forall data offset size,
    (1 <= n)%nat ->
    (- len data <= offset -> len data - offset <= 4 * Z.of_nat n - 2) ->
    no_rd (decode_n n data offset size).
Proof.
  induction n as [|n IH]; intros data offset size Hn Hfuel; [lia|].
  cbn [decode_n]. unfold raise_if.
  destruct (offset + size >? len data); [intros H; discriminate H|].
  destruct (size <? 2); [intros H; discriminate H|].
  apply no_rd_bind; [apply no_rd_unpack_H|]. intros word Hw. cbv zeta.
  pose proof (unpack_H_offset _ _ Hw) as Ho.
  set (c := match pdu_type_map (Z.land (Z.shiftr word 6) 15) with
            | Some c => c
            | None => Cls.UnknownProtocolDataUnit
            end).
  destruct (Cls.class_eqb c Cls.AggregatedFrame) eqn:Ec.
  - assert (Hc : c = Cls.AggregatedFrame) by (destruct c; try discriminate; reflexivity).
    rewrite Hc. cbn [class_decode]. unfold AggregatedFrame.decode.
    apply no_rd_bind; [apply no_rd_decode_header | intros [d s] _].
    unfold raise_if.
    destruct (negb (d =? 0)); [intros H; discriminate H|].
    destruct (negb (s =? 0)); [intros H; discriminate H|].
    apply no_rd_bind; [|intros; apply no_rd_Ok].
    unfold AggregatedFrame.loop. apply no_rd_agf_loop.
    intros o s' Hos. apply IH; lia.
  - apply no_rd_class_decode. intros Hc. rewrite Hc in Ec. discriminate Ec.
Qed.

(** No call of [decode] is cut off by the bound on the nesting: it returns
    a value or raises one of Python's exceptions. *)
Theorem decode_total (data : buffer) (offset : Z) (size : option Z) :
  no_rd (decode data offset size).
Proof.
  unfold decode. apply no_rd_decode_n; [lia|].
  intros Ho. unfold len in *. lia.
Qed.

Lemma no_rd_Raise (A B : Type) (e : exn) :
  no_rd (@Raise A e) -> no_rd (@Raise B e).
Proof. intros H E. apply H. injection E as ->. reflexivity. Qed.

(** A larger bound changes no result. *)
Lemma agf_loop_mono (dec1 dec2 : buffer -> Z -> Z -> result pdu) (data : buffer)
      (n : nat) :
  (forall o s, no_rd (dec1 data o s) -> dec2 data o s = dec1 data o s) ->
  forall offset size acc,
    no_rd (AggregatedFrame.loop_n dec1 n data offset size acc) ->
    AggregatedFrame.loop_n dec2 n data offset size acc
    = AggregatedFrame.loop_n dec1 n data offset size acc.
Proof.
  intros Hdec. induction n as [|n IH]; intros offset size acc Hrd;
    cbn [AggregatedFrame.loop_n] in *; [reflexivity|].
  destruct (size >? 0); [|reflexivity].
  destruct (unpack_H data offset) as [w|e]; [|reflexivity]. cbn [bind] in *.
  destruct (dec1 data (offset + 2) w) as [p|e] eqn:E1.
  - rewrite Hdec by (rewrite E1; apply no_rd_Ok). rewrite E1. cbn [bind] in *.
    apply IH. exact Hrd.
  - cbn [bind] in Hrd.
    rewrite Hdec by (rewrite E1; exact (@no_rd_Raise _ _ _ Hrd)). rewrite E1.
    reflexivity.
Qed.

Lemma decode_n_mono (n : nat) :
  forall m data offset size,
    (n <= m)%nat -> no_rd (decode_n n data offset size) ->
    decode_n m data offset size = decode_n n data offset size.
Proof.
  induction n as [|n IH]; intros m data offset size Hnm Hrd.
  - exfalso. apply Hrd. reflexivity.
  - destruct m as [|m]; [lia|]. cbn [decode_n] in *. unfold raise_if in *.
    destruct (offset + size >? len data); [reflexivity|].
    destruct (size <? 2); [reflexivity|].
    destruct (unpack_H data offset) as [word|e]; [|reflexivity].
    cbn [bind] in *. cbv zeta in *.
    destruct (match pdu_type_map (Z.land (Z.shiftr word 6) 15) with
              | Some c => c
              | None => Cls.UnknownProtocolDataUnit
              end); try reflexivity.
    cbn [class_decode] in *. unfold AggregatedFrame.decode in *.
    destruct (ProtocolDataUnit.decode_header data offset size) as [[d s]|e];
      [|reflexivity].
    cbn [bind] in *. unfold raise_if in *.
    destruct (negb (d =? 0)); [reflexivity|].
    destruct (negb (s =? 0)); [reflexivity|].
    unfold AggregatedFrame.loop in *.
    rewrite (@agf_loop_mono (decode_n n) (decode_n m) data).
    + reflexivity.
    + intros o s' Hs'. apply IH; [lia | exact Hs'].
    + intros H. apply Hrd.
      rewrite H. reflexivity.
Qed.

(** * Further properties *)

(** ** Lengths *)

(** X1.  For every value of the fourteen classes of the dispatch table, at
    every nesting level of aggregated frames, [len] is the number of bytes
    that [encode] returns. *)
Theorem len_agrees_with_encode (v : pdu) (b : list byte) :
  known v = true -> encode v = Ok b -> pdu_len v = Ok (len b).
Proof. intros Hk H. apply len_encode_known; assumption. Qed.

Lemma len_agrees_with_encode_witness :
  pdu_len (AGF 0 0 [CONNECT 2 32 130 4 [x61; x62]%byte; RR 1 2 (Some 3)])
  = Ok (len [x00; x80; x00; x0d; x09; x20; x02; x02; x00; x02; x05; x01;
             x04; x06; x02; x61; x62; x00; x03; x07; x42; x03]%byte).
Proof. apply len_agrees_with_encode; reflexivity. Defined.

(** ** The TLV codec *)

(** X2.  A TLV with a value of the shape and range of its type code is
    encoded, in two bytes more than its length byte says, and
    [Parameter.decode] reads the type, the length and the value back from
    those bytes wherever they lie in a buffer. *)
Theorem parameter_roundtrip (T : Z) (V : value) :
  tlv_ok T V = true ->
  exists b,
    Param.encode T V = Ok b
    /\ 2 <= len b
    /\ forall data offset rest size,
        at_ data offset (b ++ rest) -> len b <= size ->
        Param.decode data offset size = Ok (Some (T, len b - 2, V)).
Proof. intros H. apply param_roundtrip. exact H. Qed.

Lemma parameter_roundtrip_witness :
  exists b,
    Param.encode Param.SDREQ (V_tid_sn 7 [x75; x72; x6e]%byte) = Ok b
    /\ 2 <= len b
    /\ forall data offset rest size,
        at_ data offset (b ++ rest) -> len b <= size ->
        Param.decode data offset size
        = Ok (Some (Param.SDREQ, len b - 2, V_tid_sn 7 [x75; x72; x6e]%byte)).
Proof. apply parameter_roundtrip. reflexivity. Defined.

(** ** Errors of [encode] *)

(** X3.  Whatever the class, [encode] starts with the header and rejects an
    address above 63 with an [EncodeError] that names the address, the
    destination address first. *)
Theorem encode_address_out_of_bounds (v : pdu) :
  63 < dsap_of v \/ 63 < ssap_of v ->
  encode v = Raise (EncodeError (if dsap_of v >? 63 then "DSAP out of bounds"
                                 else "SSAP out of bounds")).
Proof.
  intros H.
  assert (E : forall (A : Type) ptype (k : list byte -> result A),
             (hd <- ProtocolDataUnit.encode_header ptype (dsap_of v) (ssap_of v) ;; k hd)
             = Raise (EncodeError (if dsap_of v >? 63 then "DSAP out of bounds"
                                   else "SSAP out of bounds"))).
  { intros A ptype k. unfold ProtocolDataUnit.encode_header, raise_if.
    destruct (dsap_of v >? 63) eqn:Ed; [reflexivity|].
    rewrite Z.gtb_ltb in Ed. apply Z.ltb_ge in Ed.
    rewrite gtb_true by lia. reflexivity. }
  assert (N : forall ptype ns nr,
             NumberedProtocolDataUnit.encode_header ptype (dsap_of v) (ssap_of v) ns nr
             = Raise (EncodeError (if dsap_of v >? 63 then "DSAP out of bounds"
                                   else "SSAP out of bounds"))).
  { intros ptype ns nr. unfold NumberedProtocolDataUnit.encode_header, raise_if.
    destruct (dsap_of v >? 63) eqn:Ed; [reflexivity|].
    rewrite Z.gtb_ltb in Ed. apply Z.ltb_ge in Ed.
    rewrite gtb_true by lia. reflexivity. }
  destruct v; cbn [dsap_of ssap_of] in *; cbn [encode].
  - unfold Symmetry.encode. rewrite <- (E _ 0 (fun hd => Ok hd)).
    destruct (ProtocolDataUnit.encode_header 0 dsap ssap); reflexivity.
  - unfold ParameterExchange.encode. apply E.
  - unfold AggregatedFrame.encode. apply E.
  - unfold UnnumberedInformation.encode. apply E.
  - unfold Connect.encode. apply E.
  - unfold Disconnect.encode. rewrite <- (E _ 5 (fun hd => Ok hd)).
    destruct (ProtocolDataUnit.encode_header 5 dsap ssap); reflexivity.
  - unfold ConnectionComplete.encode. apply E.
  - unfold DisconnectedMode.encode. apply E.
  - unfold FrameReject.encode. apply E.
  - unfold ServiceNameLookup.encode. apply E.
  - unfold DataProtectionSetup.encode. apply E.
  - unfold Information.encode. rewrite N. reflexivity.
  - unfold ReceiveReady.encode. apply N.
  - unfold ReceiveNotReady.encode. apply N.
  - unfold UnknownProtocolDataUnit.encode. apply E.
Qed.

Lemma encode_address_out_of_bounds_witness :
  encode (AGF 64 0 [DISC 1 2]) = Raise (EncodeError "DSAP out of bounds")
  /\ encode (RR 1 64 None) = Raise (EncodeError "SSAP out of bounds").
Proof.
  split.
  - apply (encode_address_out_of_bounds (AGF 64 0 [DISC 1 2])). left. reflexivity.
  - apply (encode_address_out_of_bounds (RR 1 64 None)). right. reflexivity.
Defined.

(** X4.  A numbered PDU cannot be encoded without a receive sequence
    number: [ReceiveReady] and [Information] default it to [None], and the
    header then fails with a [TypeError] in [... | self.nr].  A receive
    sequence number above 15 is an [EncodeError]. *)
Theorem numbered_encode_sequence_errors (dsap ssap : Z) :
  dsap <= 63 -> ssap <= 63 ->
  encode (RR dsap ssap None) = Raise TypeError
  /\ encode (RNR dsap ssap None) = Raise TypeError
  /\ (forall ns data,
         (forall s, ns = Some s -> s <= 15) ->
         encode (INFO dsap ssap ns None data) = Raise TypeError)
  /\ (forall nr, 15 < nr ->
         encode (RR dsap ssap (Some nr)) = Raise (EncodeError "N(R) out of bounds")
         /\ encode (RNR dsap ssap (Some nr)) = Raise (EncodeError "N(R) out of bounds")
         /\ forall ns data,
             encode (INFO dsap ssap ns (Some nr) data)
             = Raise (EncodeError "N(R) out of bounds")).
Proof.
  intros Hd Hs.
  cbn [encode]. unfold ReceiveReady.encode, ReceiveNotReady.encode,
    Information.encode, NumberedProtocolDataUnit.encode_header, raise_if.
  rewrite !gtb_false by lia. repeat split.
  - intros ns data Hns. destruct ns as [s|]; [|reflexivity].
    specialize (Hns s eq_refl). rewrite (gtb_false (a := s)) by lia.
    rewrite andb_false_r. reflexivity.
  - rewrite gtb_true by lia. reflexivity.
  - rewrite gtb_true by lia. reflexivity.
  - rewrite gtb_true by lia. reflexivity.
Qed.

Lemma numbered_encode_sequence_errors_witness :
  encode (RR 1 2 None) = Raise TypeError
  /\ encode (RNR 1 2 None) = Raise TypeError
  /\ (forall ns data,
         (forall s, ns = Some s -> s <= 15) ->
         encode (INFO 1 2 ns None data) = Raise TypeError)
  /\ (forall nr, 15 < nr ->
         encode (RR 1 2 (Some nr)) = Raise (EncodeError "N(R) out of bounds")
         /\ encode (RNR 1 2 (Some nr)) = Raise (EncodeError "N(R) out of bounds")
         /\ forall ns data,
             encode (INFO 1 2 ns (Some nr) data)
             = Raise (EncodeError "N(R) out of bounds")).
Proof. apply numbered_encode_sequence_errors; lia. Defined.

(** ** Errors of [decode] *)

Lemma unpack_H_BB (data : buffer) (offset w : Z) :
  unpack_H data offset = Ok w ->
  exists a b,
    unpack_BB data offset = Ok (a, b)
    /\ w = a * 256 + b /\ 0 <= a <= 255 /\ 0 <= b <= 255.
Proof.
  unfold unpack_H, unpack_BB.
  destruct (read data offset 2) as [[|x [|y [|z l]]]|e]; cbn [bind];
    try discriminate.
  intros H. injection H as <-. exists (Z_of_byte x), (Z_of_byte y).
  pose proof (Z_of_byte_range x). pose proof (Z_of_byte_range y).
  repeat split; lia.
Qed.

(** X5.  A PDU of a class with a fixed or a minimal size is rejected with a
    [DecodeError] when the size is another one: more than the two header
    bytes for SYMM, other than three bytes for DM, other than six for FRMR,
    fewer than three for I, RR and RNR. *)
Theorem decode_wrong_size (data : buffer) (offset size word : Z) :
  offset + size <= len data -> 2 <= size ->
  unpack_H data offset = Ok word ->
  let t := Z.land (Z.shiftr word 6) 15 in
  (t = 0 /\ 3 <= size) \/ (t = 7 /\ size <> 3) \/ (t = 8 /\ size <> 6)
  \/ ((t = 12 \/ t = 13 \/ t = 14) /\ size < 3) ->
  is_DecodeError (decode data offset (Some size)).
Proof.
  intros Hfit Hsz Hw t Ht. unfold decode, size_of. cbn [decode_n].
  unfold raise_if. zcmp. rewrite Hw. cbn [bind]. fold t.
  destruct (unpack_H_BB _ _ Hw) as (a & b & Hab & _).
  unfold is_DecodeError.
  destruct Ht as [[-> H]|[[-> H]|[[-> H]|[[-> |[-> | ->]] H]]]];
    cbn [pdu_type_map class_decode].
  - unfold Symmetry.decode, ProtocolDataUnit.decode_header, raise_if.
    zcmp. rewrite Hab. cbn [bind].
    destruct (negb (Z.shiftr a 2 =? 0)); [eexists; reflexivity|].
    destruct (negb (Z.land b 63 =? 0)); [eexists; reflexivity|].
    eexists; reflexivity.
  - unfold DisconnectedMode.decode, raise_if.
    replace (size =? 3) with false by (symmetry; apply Z.eqb_neq; exact H).
    eexists; reflexivity.
  - unfold FrameReject.decode, raise_if.
    replace (size =? 6) with false by (symmetry; apply Z.eqb_neq; exact H).
    eexists; reflexivity.
  - unfold Information.decode, NumberedProtocolDataUnit.decode_header, raise_if.
    zcmp. eexists; reflexivity.
  - unfold ReceiveReady.decode, NumberedProtocolDataUnit.decode_header, raise_if.
    zcmp. eexists; reflexivity.
  - unfold ReceiveNotReady.decode, NumberedProtocolDataUnit.decode_header, raise_if.
    zcmp. eexists; reflexivity.
Qed.

Lemma decode_wrong_size_witness :
  is_DecodeError (decode [x1d; xc0; x03; x00]%byte 0 (Some 4))
  /\ is_DecodeError (decode [x07; x42]%byte 0 (Some 2)).
Proof.
  split.
  - apply (@decode_wrong_size [x1d; xc0; x03; x00]%byte 0 4 7616);
      [vm_compute; congruence | lia | reflexivity |].
    right; left. split; [reflexivity | lia].
  - apply (@decode_wrong_size [x07; x42]%byte 0 2 1858);
      [vm_compute; congruence | lia | reflexivity |].
    right; right; right. split; [right; left; reflexivity | lia].
Defined.

(** X6.  SYMM, PAX and AGF belong to the link itself: [decode] rejects
    them with a [DecodeError] when an address in the header is not zero. *)
Theorem decode_link_pdu_address (data : buffer) (offset size h0 h1 : Z) :
  offset + size <= len data -> 2 <= size ->
  unpack_BB data offset = Ok (h0, h1) ->
  Z.land (Z.shiftr (h0 * 256 + h1) 6) 15 <= 2 ->
  Z.shiftr h0 2 <> 0 \/ Z.land h1 63 <> 0 ->
  is_DecodeError (decode data offset (Some size)).
Proof.
  intros Hfit Hsz Hbb Ht Ha. unfold decode, size_of. cbn [decode_n].
  unfold raise_if. zcmp.
  assert (Hw : unpack_H data offset = Ok (h0 * 256 + h1)).
  { revert Hbb. unfold unpack_H, unpack_BB.
    destruct (read data offset 2) as [[|x [|y [|z l]]]|e]; cbn [bind];
      try discriminate.
    intros H. injection H as <- <-. reflexivity. }
  rewrite Hw. cbn [bind].
  pose proof (Z.land_nonneg (Z.shiftr (h0 * 256 + h1) 6) 15) as Hn.
  assert (Hc : Z.land (Z.shiftr (h0 * 256 + h1) 6) 15 = 0
               \/ Z.land (Z.shiftr (h0 * 256 + h1) 6) 15 = 1
               \/ Z.land (Z.shiftr (h0 * 256 + h1) 6) 15 = 2)
    by (assert (0 <= Z.land (Z.shiftr (h0 * 256 + h1) 6) 15)
          by (apply Hn; right; lia); lia).
  assert (Hz : (negb (Z.shiftr h0 2 =? 0)) = true
               \/ ((negb (Z.shiftr h0 2 =? 0)) = false
                   /\ (negb (Z.land h1 63 =? 0)) = true)).
  { destruct (Z.shiftr h0 2 =? 0) eqn:E0; [right | left; reflexivity].
    split; [reflexivity|]. apply Z.eqb_eq in E0.
    destruct Ha as [Ha|Ha]; [contradiction|].
    apply negb_true_iff. apply Z.eqb_neq. exact Ha. }
  unfold is_DecodeError.
  destruct Hc as [-> |[-> | ->]]; cbn [pdu_type_map class_decode].
  - unfold Symmetry.decode, ProtocolDataUnit.decode_header, raise_if.
    zcmp. rewrite Hbb. cbn [bind].
    destruct Hz as [-> | [-> ->]]; eexists; reflexivity.
  - unfold ParameterExchange.decode, ProtocolDataUnit.decode_header, raise_if.
    zcmp. rewrite Hbb. cbn [bind].
    destruct Hz as [-> | [-> ->]]; eexists; reflexivity.
  - unfold AggregatedFrame.decode, ProtocolDataUnit.decode_header, raise_if.
    zcmp. rewrite Hbb. cbn [bind].
    destruct Hz as [-> | [-> ->]]; eexists; reflexivity.
Qed.

Lemma decode_link_pdu_address_witness :
  is_DecodeError (decode [x04; x40; x01; x01; x10]%byte 0 (Some 5)).
Proof.
  apply (@decode_link_pdu_address [x04; x40; x01; x01; x10]%byte 0 5 4 64);
    [vm_compute; congruence | lia | reflexivity | vm_compute; congruence |].
  left. vm_compute. congruence.
Defined.

(** ** Comparison *)

Lemma bytes_eqb_eq (a b : list byte) : bytes_eqb a b = true <-> a = b.
Proof.
  revert b. induction a as [|x a IH]; intros [|y b]; cbn [bytes_eqb];
    try (split; [discriminate | discriminate]); [tauto|].
  rewrite andb_true_iff, IH. split.
  - intros [Hxy ->]. apply Byte.byte_dec_bl in Hxy. subst. reflexivity.
  - intros H. injection H as -> ->. split; [apply Byte.byte_dec_lb|]; reflexivity.
Qed.

(** X7.  [==] compares the encodings.  On the values that the wire format
    represents exactly it returns a truth value, and the truth value says
    whether the two values have the same class and the same attributes. *)
Theorem eq_on_canonical (v w : pdu) :
  canonical v = true -> canonical w = true ->
  exists r, pdu_eq v w = Ok r /\ (r = true <-> v = w).
Proof.
  intros Hv Hw.
  destruct (roundtrip_n v Hv) as (bv & Hbv & Hdv).
  destruct (roundtrip_n w Hw) as (bw & Hbw & Hdw).
  exists (bytes_eqb bv bw). unfold pdu_eq. rewrite Hbv, Hbw. cbn [bind].
  split; [reflexivity|]. rewrite bytes_eqb_eq. split.
  - intros ->.
    assert (Hat : at_ bw 0 (bw ++ [])) by (rewrite app_nil_r; apply at_start).
    specialize (Hdv (S (depth v + depth w)) bw 0 [] ltac:(lia) Hat).
    specialize (Hdw (S (depth v + depth w)) bw 0 [] ltac:(lia) Hat).
    congruence.
  - intros ->. congruence.
Qed.

Lemma eq_on_canonical_witness :
  exists r, pdu_eq (CC 1 2 200 3) (CC 1 2 200 4) = Ok r
            /\ (r = true <-> CC 1 2 200 3 = CC 1 2 200 4).
Proof. apply eq_on_canonical; reflexivity. Defined.

(** ** Aggregated frames *)

Lemma mapM_app (A B : Type) (f : A -> result B) (l1 l2 : list A) :
  mapM f (l1 ++ l2)
  = (ys1 <- mapM f l1 ;; ys2 <- mapM f l2 ;; Ok (ys1 ++ ys2)).
Proof.
  induction l1 as [|x l1 IH]; cbn [mapM app bind].
  - destruct (mapM f l2); reflexivity.
  - destruct (f x) as [y|e]; cbn [bind]; [|reflexivity].
    rewrite IH. destruct (mapM f l1) as [ys1|e]; cbn [bind]; [|reflexivity].
    destruct (mapM f l2); reflexivity.
Qed.

Lemma join_app (es1 es2 : list (list byte)) :
  forall data,
    AggregatedFrame.join data (es1 ++ es2)
    = (d <- AggregatedFrame.join data es1 ;; AggregatedFrame.join d es2).
Proof.
  induction es1 as [|e es1 IH]; intros data; cbn [AggregatedFrame.join app bind].
  - reflexivity.
  - destruct (pack [fmt_H] [len e]) as [hd|x]; cbn [bind]; [|reflexivity].
    apply IH.
Qed.

(** X8.  [append] adds an entry at the end of the frame: the encoding of
    the longer frame is the encoding of the frame followed by the two-byte
    length of the entry and the entry.  An entry of more than 65535 bytes
    makes [encode] fail in [struct.pack]. *)
Theorem agf_append_encode (dsap ssap : Z) (aggregate : list pdu) (p : pdu)
        (b e : list byte) :
  encode (AGF dsap ssap aggregate) = Ok b ->
  encode p = Ok e ->
  (len e <= 65535 ->
   exists hi lo,
     encode (AGF dsap ssap (AggregatedFrame.append aggregate p))
     = Ok (b ++ hi :: lo :: e)
     /\ Z_of_byte hi * 256 + Z_of_byte lo = len e)
  /\ (65535 < len e ->
      encode (AGF dsap ssap (AggregatedFrame.append aggregate p))
      = Raise StructError).
Proof.
  intros Hb He. cbn [encode] in *.
  unfold AggregatedFrame.encode, AggregatedFrame.append in *.
  destruct (ProtocolDataUnit.encode_header 2 dsap ssap) as [hd|x];
    cbn [bind] in *; [|discriminate].
  rewrite mapM_app.
  destruct (mapM encode aggregate) as [es|x]; cbn [bind mapM] in *; [|discriminate].
  rewrite He. cbn [bind]. rewrite join_app, Hb. cbn [bind AggregatedFrame.join].
  pose proof (len_nonneg e) as H0. split; intros Hlen.
  - destruct (@pack_H_cons_some [] (len e) [] [] ltac:(lia) pack_nil)
      as (hi & lo & Hpk & Hw).
    exists hi, lo. rewrite Hpk. cbn [bind app]. split; [reflexivity | exact Hw].
  - rewrite pack_cons_H. unfold pack_H.
    replace ((0 <=? len e) && (len e <=? 65535)) with false; [reflexivity|].
    symmetry. apply andb_false_iff. right. apply Z.leb_gt. exact Hlen.
Qed.

Lemma agf_append_encode_witness :
  (len [x15; x40]%byte <= 65535 ->
   exists hi lo,
     encode (AGF 0 0 (AggregatedFrame.append [DM 7 0 3] (DISC 5 0)))
     = Ok ([x00; x80; x00; x03; x1d; xc0; x03]%byte ++ hi :: lo :: [x15; x40]%byte)
     /\ Z_of_byte hi * 256 + Z_of_byte lo = len [x15; x40]%byte)
  /\ (65535 < len [x15; x40]%byte ->
      encode (AGF 0 0 (AggregatedFrame.append [DM 7 0 3] (DISC 5 0)))
      = Raise StructError).
Proof. apply agf_append_encode; reflexivity. Defined.

Lemma item_nth (A : Type) (seq : list A) (k : nat) (x : A) :
  nth_error seq k = Some x -> item seq (Z.of_nat k) = Ok x.
Proof.
  intros H. unfold item.
  assert (Hk : (k < List.length seq)%nat) by (apply nth_error_Some; congruence).
  unfold len. zcmp. cbn [orb]. rewrite Nat2Z.id, H. reflexivity.
Qed.

Lemma skipn_nth (A : Type) (l : list A) (k : nat) (x : A) :
  nth_error l k = Some x -> skipn k l = x :: skipn (S k) l.
Proof.
  revert k. induction l as [|y l IH]; intros [|k] H; cbn in *; try discriminate.
  - injection H as ->. reflexivity.
  - apply IH. exact H.
Qed.

Lemma drain_from (aggregate : list pdu) (n : nat) :
  forall k acc,
    (k <= List.length aggregate)%nat ->
    (List.length aggregate - k < n)%nat ->
    AggregatedFrameIterator.drain
      n (AggregatedFrameIterator.mk aggregate (Z.of_nat k)) acc
    = Ok (acc ++ skipn k aggregate).
Proof.
  induction n as [|n IH]; intros k acc Hk Hn; [lia|].
  cbn [AggregatedFrameIterator.drain]. unfold AggregatedFrameIterator.next.
  cbn [AggregatedFrameIterator.current AggregatedFrameIterator.aggregate].
  destruct (Z.of_nat k =? len aggregate) eqn:E.
  - apply Z.eqb_eq in E. unfold len in E. apply Nat2Z.inj in E. subst k.
    rewrite skipn_all, app_nil_r. reflexivity.
  - apply Z.eqb_neq in E. unfold len in E.
    assert (Hlt : (k < List.length aggregate)%nat) by lia.
    destruct (nth_error aggregate k) as [x|] eqn:Ex;
      [|apply nth_error_None in Ex; lia].
    replace (Z.of_nat k + 1 - 1) with (Z.of_nat k) by lia.
    rewrite (item_nth _ _ Ex).
    replace (Z.of_nat k + 1) with (Z.of_nat (S k)) by lia.
    rewrite IH by lia. rewrite (skipn_nth _ _ Ex), <- app_assoc. reflexivity.
Qed.

(** X9.  Iterating over an aggregated frame returns its entries, in the
    order of the frame, and then stops: [next] raises [StopIteration] after
    the last entry and never fails in the subscript. *)
Theorem agf_iter_entries (aggregate : list pdu) (n : nat) :
  (List.length aggregate < n)%nat ->
  AggregatedFrameIterator.drain n (AggregatedFrame.iter aggregate) []
  = Ok aggregate.
Proof.
  intros Hn. unfold AggregatedFrame.iter, AggregatedFrameIterator.init.
  change 0 with (Z.of_nat 0).
  rewrite drain_from by lia. reflexivity.
Qed.

Lemma agf_iter_entries_witness :
  AggregatedFrameIterator.drain 3 (AggregatedFrame.iter [DM 7 0 3; DISC 5 0]) []
  = Ok [DM 7 0 3; DISC 5 0].
Proof. apply agf_iter_entries. simpl. lia. Defined.

(** ** What [Parameter.decode] returns *)

Lemma read_length (data : buffer) (offset : Z) (n : nat) (bs : list byte) :
  read data offset n = Ok bs -> List.length bs = n.
Proof.
  unfold read.
  set (off := if offset <? 0 then offset + len data else offset).
  destruct ((off <? 0) || (len data - off <? Z.of_nat n)) eqn:E; [discriminate|].
  apply orb_false_iff in E. destruct E as [E1 E2].
  apply Z.ltb_ge in E1. apply Z.ltb_ge in E2.
  intros H. injection H as <-. rewrite length_firstn, length_skipn.
  unfold len in E2. lia.
Qed.

Lemma unpack_B_range (data : buffer) (offset v : Z) :
  unpack_B data offset = Ok v -> 0 <= v <= 255.
Proof.
  unfold unpack_B. destruct (read data offset 1) as [[|a [|b l]]|e];
    cbn [bind]; try discriminate.
  intros H. injection H as <-. apply Z_of_byte_range.
Qed.

Lemma unpack_Bs_range (n : Z) (data : buffer) (offset tid : Z) (sn : list byte) :
  unpack_Bs n data offset = Ok (tid, sn) -> 0 <= tid <= 255 /\ len sn = n.
Proof.
  unfold unpack_Bs. destruct (n <? 0) eqn:En; [discriminate|].
  apply Z.ltb_ge in En.
  destruct (read data offset (S (Z.to_nat n))) as [bs|e] eqn:Er;
    cbn [bind]; [|discriminate].
  apply read_length in Er. destruct bs as [|a s]; [discriminate|].
  intros H. injection H as <- <-. split; [apply Z_of_byte_range|].
  cbn [List.length] in Er. unfold len. lia.
Qed.

Lemma slice_len_le (A : Type) (data : list A) (a L : Z) :
  0 <= L -> len (slice data a (a + L)) <= L.
Proof.
  intros HL. unfold slice, len at 1. rewrite length_firstn.
  pose proof (len_nonneg data) as Hn.
  assert (clip (len data) (a + L) - clip (len data) a <= L).
  { unfold clip. destruct (a + L <? 0) eqn:E1; destruct (a <? 0) eqn:E2;
      try apply Z.ltb_lt in E1; try apply Z.ltb_ge in E1;
      try apply Z.ltb_lt in E2; try apply Z.ltb_ge in E2; lia. }
  lia.
Qed.

Lemma shiftr4_u4 (v : Z) : 0 <= v <= 255 -> 0 <= Z.shiftr v 4 <= 15.
Proof.
  intros H. rewrite shiftr_div by lia. change (2 ^ 4) with 16.
  split; [apply Z.div_pos; lia|].
  assert (v / 16 < 16) by (apply Z.div_lt_upper_bound; lia). lia.
Qed.

Lemma land_low (v k : Z) : 0 <= k -> 0 <= Z.land v (2 ^ k - 1) <= 2 ^ k - 1.
Proof.
  intros Hk. rewrite land_mask by exact Hk.
  pose proof (Z.mod_pos_bound v (2 ^ k) ltac:(apply Z.pow_pos_nonneg; lia)). lia.
Qed.

Lemma land15_u4 (v : Z) : 0 <= Z.land v 15 <= 15.
Proof. apply (land_low v (k := 4)). lia. Qed.

(** X10.  Whatever [Parameter.decode] returns is a TLV that
    [Parameter.encode] accepts: the value has the shape of its type code,
    its numbers fit their fields and its byte strings their length byte. *)
Theorem param_decode_encodable (data : buffer) (offset size T L : Z) (V : value) :
  Param.decode data offset size = Ok (Some (T, L, V)) ->
  tlv_ok T V = true /\ exists b, Param.encode T V = Ok b.
Proof.
  intros H.
  assert (Hok : tlv_ok T V = true).
  { pose proof (param_decode_length _ _ _ H) as HL.
    destruct (param_decode_head _ _ _ H) as [Hhead _].
    apply unpack_BB_range in Hhead. destruct Hhead as [_ HL255].
    unfold Param.decode, assert_ in H.
    destruct (unpack_BB data offset) as [[T0 L0]|e]; cbn [bind] in H;
      [|discriminate].
    destruct (L0 <=? size - 2); [|discriminate].
    unfold Param.VERSION, Param.MIUX, Param.WKS, Param.LTO, Param.RW, Param.SN,
      Param.OPT, Param.SDREQ, Param.SDRES, Param.ECPK, Param.RN in H.
    repeat match type of H with
           | (if ?T =? ?k then _ else _) = _ =>
               let E := fresh "E" in
               destruct (T =? k) eqn:E;
               [apply Z.eqb_eq in E; subst T0 | clear E]
           end;
      repeat match type of H with
             | (if ?c then _ else _) = _ => destruct c; [|discriminate]
             end;
      repeat match type of H with
             | bind ?m _ = _ =>
                 let E := fresh "Er" in
                 destruct m as [?|?] eqn:E; cbn [bind] in H; [|discriminate]
             | context [match ?p with (_, _) => _ end] => destruct p
             end;
      try discriminate;
      injection H as <- <- <-; unfold tlv_ok;
      cbn [Param.VERSION Param.MIUX Param.WKS Param.LTO Param.RW Param.SN
           Param.OPT Param.SDREQ Param.SDRES Param.ECPK Param.RN
           Z.eqb Pos.eqb andb orb];
      unfold u4, u8;
      repeat match goal with
             | Hr : unpack_B _ _ = Ok _ |- _ => apply unpack_B_range in Hr
             | Hr : unpack_H _ _ = Ok _ |- _ => apply unpack_H_range in Hr
             | Hr : unpack_BB _ _ = Ok _ |- _ =>
                 apply unpack_BB_range in Hr; destruct Hr
             | Hr : unpack_Bs _ _ _ = Ok _ |- _ =>
                 apply unpack_Bs_range in Hr; destruct Hr
             end.
    all: try match goal with
             | |- context [Z.shiftr ?a 4] =>
                 pose proof (@shiftr4_u4 a ltac:(lia)); pose proof (land15_u4 a)
             | |- context [Z.land ?a 2047] =>
                 let Hm := fresh "Hm" in
                 pose proof (land_low a (k := 11) ltac:(lia)) as Hm;
                 change (2 ^ 11 - 1) with 2047 in Hm
             | |- context [slice ?d ?a (?a + ?L)] =>
                 pose proof (slice_len_le d a (L := L) ltac:(lia))
             end.
    all: zcmp; reflexivity. }
  split; [exact Hok|].
  destruct (param_roundtrip T V Hok) as (b & Hb & _). exists b. exact Hb.
Qed.

Lemma param_decode_encodable_witness :
  tlv_ok 2 (V_int 1) = true /\ exists b, Param.encode 2 (V_int 1) = Ok b.
Proof.
  apply (@param_decode_encodable [x02; x02; xf8; x01]%byte 0 4 2 2 (V_int 1)).
  reflexivity.
Defined.

(** ** What [decode] returns *)

Section TlvLoopInvariant.
Variable St : Type.
Variable body : St -> tlv -> result St.
Variable P : St -> Prop.
Hypothesis body_keeps :
  forall st T L V st',
    P st -> tlv_ok T V = true -> body st (T, L, V) = Ok st' -> P st'.

Lemma tlv_loop_n_inv (n : nat) :
  forall data offset size st st',
    P st -> tlv_loop_n body n data offset size st = Ok st' -> P st'.
Proof.
  induction n as [|n IH]; intros data offset size st st' Hst H;
    cbn [tlv_loop_n] in H.
  - injection H as <-. exact Hst.
  - destruct (size >=? 2); [|injection H as <-; exact Hst].
    destruct (Param.decode data offset size) as [[[[T L] V]|]|e] eqn:ED;
      cbn [bind] in H; try discriminate.
    destruct (body st (T, L, V)) as [st1|e] eqn:EB; cbn [bind] in H;
      [|discriminate].
    destruct (@param_decode_encodable _ _ _ _ _ _ ED) as [Hok _].
    eapply IH; [|exact H]. eapply body_keeps; [exact Hst | exact Hok | exact EB].
Qed.

Lemma tlv_loop_inv (data : buffer) (offset size : Z) (st st' : St) :
  P st -> tlv_loop body data offset size st = Ok st' -> P st'.
Proof. apply tlv_loop_n_inv. Qed.
End TlvLoopInvariant.

Lemma decode_header_range (data : buffer) (offset size d s : Z) :
  ProtocolDataUnit.decode_header data offset size = Ok (d, s) ->
  0 <= d <= 63 /\ 0 <= s <= 63.
Proof.
  unfold ProtocolDataUnit.decode_header, raise_if.
  destruct (size <? 2); [discriminate|].
  destruct (unpack_BB data offset) as [[a b]|e] eqn:E; cbn [bind];
    [|discriminate].
  apply unpack_BB_range in E. destruct E as [Ha Hb].
  intros H. injection H as <- <-. split.
  - rewrite shiftr_div by lia. change (2 ^ 2) with 4.
    split; [apply Z.div_pos; lia|].
    assert (a / 4 < 64) by (apply Z.div_lt_upper_bound; lia). lia.
  - apply (land_low b (k := 6)). lia.
Qed.

Lemma numbered_decode_header_range (data : buffer) (offset size d s ns nr : Z) :
  NumberedProtocolDataUnit.decode_header data offset size = Ok (d, s, ns, nr) ->
  (0 <= d <= 63 /\ 0 <= s <= 63) /\ 0 <= ns <= 15 /\ 0 <= nr <= 15.
Proof.
  unfold NumberedProtocolDataUnit.decode_header, raise_if.
  destruct (size <? 3); [discriminate|].
  unfold unpack_BBB.
  destruct (read data offset 3) as [[|a [|b [|c [|x l]]]]|e]; cbn [bind];
    try discriminate.
  pose proof (Z_of_byte_range a) as Ha. pose proof (Z_of_byte_range b) as Hb.
  pose proof (Z_of_byte_range c) as Hc.
  intros H. injection H as <- <- <- <-. repeat split.
  - rewrite shiftr_div by lia. apply Z.div_pos; lia.
  - rewrite shiftr_div by lia. change (2 ^ 2) with 4.
    assert (Z_of_byte a / 4 < 64) by (apply Z.div_lt_upper_bound; lia). lia.
  - apply (land_low (Z_of_byte b) (k := 6)). lia.
  - apply (land_low (Z_of_byte b) (k := 6)). lia.
  - apply shiftr4_u4. exact Hc.
  - apply shiftr4_u4. exact Hc.
  - apply land15_u4.
  - apply land15_u4.
Qed.

Lemma unpack_BBBB_range (data : buffer) (offset a b c d : Z) :
  unpack_BBBB data offset = Ok (a, b, c, d) ->
  0 <= a <= 255 /\ 0 <= b <= 255 /\ 0 <= c <= 255 /\ 0 <= d <= 255.
Proof.
  unfold unpack_BBBB.
  destruct (read data offset 4) as [[|w [|x [|y [|z [|u l]]]]]|e]; cbn [bind];
    try discriminate.
  intros H. injection H as <- <- <- <-.
  repeat split; apply Z_of_byte_range.
Qed.

Lemma Ok_inj (A : Type) (a b : A) : Ok a = Ok b -> a = b.
Proof. congruence. Qed.

(** Proves a conjunction of comparisons on integers. *)
Ltac bools_intro :=
  repeat (apply andb_true_intro; split);
  try (apply Z.leb_le; lia); try (apply Z.eqb_eq; lia).

Ltac tlv_ok_inv H :=
  unfold tlv_ok in H;
  cbn [Param.VERSION Param.MIUX Param.WKS Param.LTO Param.RW Param.SN
       Param.OPT Param.SDREQ Param.SDRES Param.ECPK Param.RN
       Z.eqb Pos.eqb andb orb] in H;
  rewrite ?orb_false_r in H; bools H.

Ltac body_cases H :=
  unfold Param.VERSION, Param.MIUX, Param.WKS, Param.LTO, Param.RW, Param.SN,
    Param.OPT, Param.SDREQ, Param.SDRES, Param.ECPK, Param.RN in H;
  repeat match type of H with
         | (if ?T =? ?k then _ else _) = _ =>
             let E := fresh "E" in
             destruct (T =? k) eqn:E; [apply Z.eqb_eq in E; subst T | clear E]
         end.

Lemma pax_body_keeps (st : ParameterExchange.fields) (T L : Z) (V : value)
      (st' : ParameterExchange.fields) :
  pax_ok st -> tlv_ok T V = true ->
  ParameterExchange.body st (T, L, V) = Ok st' -> pax_ok st'.
Proof.
  unfold pax_ok. intros Hst Hok H. destruct st as [[va vb] miu wks lto lsc dpc].
  cbn [in_range ParameterExchange.version ParameterExchange.miu
       ParameterExchange.wks ParameterExchange.lto ParameterExchange.lsc
       ParameterExchange.dpc fst snd] in *.
  unfold miu_ok in *. bools Hst.
  unfold ParameterExchange.body in H.
  cbn [ParameterExchange.version ParameterExchange.miu
       ParameterExchange.wks ParameterExchange.lto ParameterExchange.lsc
       ParameterExchange.dpc] in H.
  body_cases H.
  all: lazymatch type of H with
       | Ok _ = _ => idtac
       | _ => destruct V; try discriminate
       end.
  all: apply Ok_inj in H; subst st'.
  all: cbn [in_range ParameterExchange.version ParameterExchange.miu
            ParameterExchange.wks ParameterExchange.lto ParameterExchange.lsc
            ParameterExchange.dpc fst snd].
  all: unfold miu_ok, u4.
  all: try tlv_ok_inv Hok.
  all: try match goal with
           | |- context [Z.land ?n 3] =>
               let Ha := fresh "Ha" in
               let Hb := fresh "Hb" in
               pose proof (land_low n (k := 2) ltac:(lia)) as Ha;
               pose proof (land_low (Z.shiftr n 2) (k := 1) ltac:(lia)) as Hb;
               change (2 ^ 2 - 1) with 3 in Ha; change (2 ^ 1 - 1) with 1 in Hb
           end.
  all: bools_intro.
  rewrite Z.mod_mul by lia. reflexivity.
Qed.

Lemma connect_body_keeps (st : Connect.fields) (T L : Z) (V : value)
      (st' : Connect.fields) :
  connect_ok st -> tlv_ok T V = true ->
  Connect.body st (T, L, V) = Ok st' -> connect_ok st'.
Proof.
  unfold connect_ok. intros Hst Hok H. destruct st as [miu rw sn].
  cbn [in_range Connect.miu Connect.rw Connect.sn] in *.
  unfold miu_ok in *. bools Hst.
  unfold Connect.body in H. cbn [Connect.miu Connect.rw Connect.sn] in H.
  body_cases H.
  all: lazymatch type of H with
       | Ok _ = _ => idtac
       | _ => destruct V; try discriminate
       end.
  all: apply Ok_inj in H; subst st'.
  all: cbn [in_range Connect.miu Connect.rw Connect.sn].
  all: unfold miu_ok, u6, u8.
  all: try tlv_ok_inv Hok.
  all: bools_intro.
Qed.

Lemma cc_body_keeps (st : ConnectionComplete.fields) (T L : Z) (V : value)
      (st' : ConnectionComplete.fields) :
  cc_ok st -> tlv_ok T V = true ->
  ConnectionComplete.body st (T, L, V) = Ok st' -> cc_ok st'.
Proof.
  unfold cc_ok. intros Hst Hok H. destruct st as [miu rw].
  cbn [in_range ConnectionComplete.miu ConnectionComplete.rw] in *.
  unfold miu_ok in *. bools Hst.
  unfold ConnectionComplete.body in H.
  cbn [ConnectionComplete.miu ConnectionComplete.rw] in H.
  body_cases H.
  all: lazymatch type of H with
       | Ok _ = _ => idtac
       | _ => destruct V; try discriminate
       end.
  all: apply Ok_inj in H; subst st'.
  all: cbn [in_range ConnectionComplete.miu ConnectionComplete.rw].
  all: unfold miu_ok, u6, u8.
  all: try tlv_ok_inv Hok.
  all: bools_intro.
Qed.

Lemma dps_body_keeps (st : DataProtectionSetup.fields) (T L : Z) (V : value)
      (st' : DataProtectionSetup.fields) :
  dps_ok st -> tlv_ok T V = true ->
  DataProtectionSetup.body st (T, L, V) = Ok st' -> dps_ok st'.
Proof.
  unfold dps_ok. intros Hst Hok H. destruct st as [ecpk rn].
  cbn [in_range DataProtectionSetup.ecpk DataProtectionSetup.rn] in *.
  cbn [u6 Z.leb Z.compare andb] in *.
  apply andb_true_iff in Hst. destruct Hst as [He Hr].
  unfold DataProtectionSetup.body in H.
  cbn [DataProtectionSetup.ecpk DataProtectionSetup.rn] in H.
  body_cases H.
  all: lazymatch type of H with
       | Ok _ = _ => idtac
       | _ => destruct V; try discriminate
       end.
  all: apply Ok_inj in H; subst st'.
  all: cbn [in_range DataProtectionSetup.ecpk DataProtectionSetup.rn
            u6 Z.leb Z.compare andb opt_bytes_ok].
  all: try tlv_ok_inv Hok.
  all: apply andb_true_intro; split; try assumption; apply Z.leb_le; lia.
Qed.

Lemma snl_body_keeps (st : ServiceNameLookup.fields) (T L : Z) (V : value)
      (st' : ServiceNameLookup.fields) :
  snl_ok st -> tlv_ok T V = true ->
  ServiceNameLookup.body st (T, L, V) = Ok st' -> snl_ok st'.
Proof.
  unfold snl_ok. intros Hst Hok H. destruct st as [sdreq sdres].
  cbn [in_range ServiceNameLookup.sdreq ServiceNameLookup.sdres] in *.
  cbn [u6 Z.leb Z.compare andb] in *.
  apply andb_true_iff in Hst. destruct Hst as [Hq Hs].
  unfold ServiceNameLookup.body in H.
  cbn [ServiceNameLookup.sdreq ServiceNameLookup.sdres] in H.
  unfold Param.SDREQ, Param.SDRES in H.
  destruct (T =? 8) eqn:E8.
  - apply Z.eqb_eq in E8. subst T. destruct V; try discriminate.
    cbn [bind Z.eqb Pos.eqb ServiceNameLookup.sdreq ServiceNameLookup.sdres] in H.
    apply Ok_inj in H; subst st'.
    cbn [in_range ServiceNameLookup.sdreq ServiceNameLookup.sdres
         u6 Z.leb Z.compare andb].
    rewrite forallb_app, Hq, Hs. cbn [forallb fst snd andb].
    unfold tlv_ok in Hok. cbn [Param.SDREQ Z.eqb Pos.eqb andb] in Hok.
    rewrite Hok. reflexivity.
  - cbn [bind ServiceNameLookup.sdreq ServiceNameLookup.sdres] in H.
    destruct (T =? 9) eqn:E9.
    + apply Z.eqb_eq in E9. subst T. destruct V; try discriminate.
      apply Ok_inj in H; subst st'.
      cbn [in_range ServiceNameLookup.sdreq ServiceNameLookup.sdres
           u6 Z.leb Z.compare andb].
      rewrite forallb_app, Hq, Hs. cbn [forallb fst snd andb].
      unfold tlv_ok in Hok.
      cbn [Param.VERSION Param.SDRES Z.eqb Pos.eqb andb orb] in Hok.
      rewrite Hok. reflexivity.
    + apply Ok_inj in H; subst st'.
      cbn [in_range ServiceNameLookup.sdreq ServiceNameLookup.sdres
           u6 Z.leb Z.compare andb].
      rewrite Hq, Hs. reflexivity.
Qed.

Lemma agf_loop_n_inv (dec : buffer -> Z -> Z -> result pdu) (Q : pdu -> Prop) :
  (forall data o s p, dec data o s = Ok p -> Q p) ->
  forall n data offset size acc out,
    Forall Q acc ->
    AggregatedFrame.loop_n dec n data offset size acc = Ok out ->
    Forall Q out.
Proof.
  intros Hdec. induction n as [|n IH]; intros data offset size acc out Hacc H;
    cbn [AggregatedFrame.loop_n] in H.
  - apply Ok_inj in H. subst out. exact Hacc.
  - destruct (size >? 0); [|apply Ok_inj in H; subst out; exact Hacc].
    destruct (unpack_H data offset) as [w|e]; cbn [bind] in H; [|discriminate].
    destruct (dec data (offset + 2) w) as [p|e] eqn:Ep; cbn [bind] in H;
      [|discriminate].
    eapply IH; [|exact H]. apply Forall_app. split; [exact Hacc|].
    constructor; [|constructor]. eapply Hdec. exact Ep.
Qed.

(** Inverts a successful call of a class method [decode] down to the value
    it returns. *)
Ltac decode_inv H :=
  unfold raise_if in H;
  repeat match type of H with
         | bind ?m _ = Ok _ =>
             let E := fresh "E" in
             destruct m as [?|?] eqn:E; cbn [bind] in H; [|discriminate]
         | context [match ?p with (_, _) => _ end] => destruct p
         | (if ?c then _ else _) = Ok _ =>
             let E := fresh "E" in
             destruct c eqn:E; [discriminate|]
         end;
  apply Ok_inj in H.

Ltac header_range :=
  repeat match goal with
         | E : ProtocolDataUnit.decode_header _ _ _ = Ok _ |- _ =>
             apply decode_header_range in E; destruct E
         | E : NumberedProtocolDataUnit.decode_header _ _ _ = Ok _ |- _ =>
             apply numbered_decode_header_range in E; destruct E as ([? ?] & ? & ?)
         | E : negb (_ =? _) = false |- _ =>
             apply negb_false_iff in E; apply Z.eqb_eq in E
         end.

Lemma class_decode_in_range (f : buffer -> Z -> Z -> result pdu) (c : Cls.class)
      (data : buffer) (offset size : Z) (v : pdu) :
  (forall data o s p, f data o s = Ok p -> in_range p = true) ->
  class_decode f c data offset size = Ok v ->
  in_range v = true /\ class_of v = c.
Proof.
  intros Hf H. destruct c; cbn [class_decode] in H; try discriminate.
  - unfold Symmetry.decode in H. decode_inv H. subst v. header_range.
    split; [|reflexivity]. cbn [in_range]. bools_intro.
  - unfold ParameterExchange.decode in H. decode_inv H. subst v. header_range.
    split; [|reflexivity]. subst.
    eapply (@tlv_loop_inv _ _ pax_ok pax_body_keeps); [|eassumption].
    reflexivity.
  - unfold AggregatedFrame.decode in H. decode_inv H. subst v. header_range.
    split; [|reflexivity]. subst. cbn [in_range Z.eqb andb].
    apply forallb_forall. apply Forall_forall.
    eapply (@agf_loop_n_inv f (fun p => in_range p = true) Hf); [|].
    + constructor.
    + unfold AggregatedFrame.loop in *. eassumption.
  - unfold UnnumberedInformation.decode in H. decode_inv H. subst v. header_range.
    split; [|reflexivity]. cbn [in_range]. unfold u6. bools_intro.
  - unfold Connect.decode in H. decode_inv H. subst v. header_range.
    split; [|reflexivity].
    match goal with
    | E : tlv_loop _ _ _ _ _ = Ok _ |- _ =>
        apply (@tlv_loop_inv _ _ connect_ok connect_body_keeps) in E;
        [|reflexivity]; unfold connect_ok in E; cbn [in_range] in E;
        unfold miu_ok, u8 in E; bools E
    end.
    cbn [in_range]. unfold u6, miu_ok, u8. bools_intro.
  - unfold Disconnect.decode in H. decode_inv H. subst v. header_range.
    split; [|reflexivity]. cbn [in_range]. unfold u6. bools_intro.
  - unfold ConnectionComplete.decode in H. decode_inv H. subst v. header_range.
    split; [|reflexivity].
    match goal with
    | E : tlv_loop _ _ _ _ _ = Ok _ |- _ =>
        apply (@tlv_loop_inv _ _ cc_ok cc_body_keeps) in E;
        [|reflexivity]; unfold cc_ok in E; cbn [in_range] in E;
        unfold miu_ok, u8 in E; bools E
    end.
    cbn [in_range]. unfold u6, miu_ok, u8. bools_intro.
  - unfold DisconnectedMode.decode in H. decode_inv H. subst v. header_range.
    match goal with
    | E : unpack_B _ _ = Ok _ |- _ => apply unpack_B_range in E
    end.
    split; [|reflexivity]. cbn [in_range]. unfold u6, u8. bools_intro.
  - unfold FrameReject.decode in H. decode_inv H. subst v. header_range.
    match goal with
    | E : unpack_BBBB _ _ = Ok _ |- _ =>
        apply unpack_BBBB_range in E; destruct E as (? & ? & ? & ?)
    end.
    split; [|reflexivity]. cbn [in_range]. unfold u6, u4.
    repeat match goal with
           | |- context [Z.shiftr ?a 4] =>
               lazymatch goal with
               | _ : 0 <= Z.shiftr a 4 <= 15 |- _ => fail
               | _ => pose proof (@shiftr4_u4 a ltac:(lia));
                      pose proof (land15_u4 a)
               end
           end.
    bools_intro.
  - unfold ServiceNameLookup.decode in H. decode_inv H. subst v. header_range.
    split; [|reflexivity].
    match goal with
    | E : tlv_loop _ _ _ _ _ = Ok _ |- _ =>
        apply (@tlv_loop_inv _ _ snl_ok snl_body_keeps) in E;
        [|reflexivity]; unfold snl_ok in E; cbn [in_range] in E;
        cbn [u6 Z.leb Z.compare andb] in E;
        apply andb_true_iff in E; destruct E as [Eq Es]
    end.
    cbn [in_range]. rewrite Eq, Es. unfold u6. bools_intro; reflexivity.
  - unfold DataProtectionSetup.decode in H. decode_inv H. subst v. header_range.
    split; [|reflexivity].
    match goal with
    | E : tlv_loop _ _ _ _ _ = Ok _ |- _ =>
        apply (@tlv_loop_inv _ _ dps_ok dps_body_keeps) in E;
        [|reflexivity]; unfold dps_ok in E; cbn [in_range] in E;
        cbn [u6 Z.leb Z.compare andb] in E;
        apply andb_true_iff in E; destruct E as [Ee Er]
    end.
    cbn [in_range]. rewrite Ee, Er. unfold u6. bools_intro; reflexivity.
  - unfold Information.decode in H. decode_inv H. subst v. header_range.
    split; [|reflexivity]. cbn [in_range seq_ok]. unfold u6, u4. bools_intro.
  - unfold ReceiveReady.decode in H. decode_inv H. subst v. header_range.
    split; [|reflexivity]. cbn [in_range seq_ok]. unfold u6, u4. bools_intro.
  - unfold ReceiveNotReady.decode in H. decode_inv H. subst v. header_range.
    split; [|reflexivity]. cbn [in_range seq_ok]. unfold u6, u4. bools_intro.
  - exfalso. unfold UnknownProtocolDataUnit.decode in H.
    destruct (ProtocolDataUnit.decode_header data offset size) as [[d s]|e];
      cbn [bind] in H; [|discriminate].
    destruct (index data offset); cbn [bind] in H; [|discriminate].
    destruct (index data (offset + 1)); cbn [bind] in H; discriminate.
Qed.

Lemma decode_n_in_range (n : nat) :
  forall data offset size v,
    decode_n n data offset size = Ok v ->
    in_range v = true
    /\ exists word,
        unpack_H data offset = Ok word
        /\ pdu_type_map (Z.land (Z.shiftr word 6) 15) = Some (class_of v).
Proof.
  induction n as [|n IH]; intros data offset size v H; [discriminate|].
  cbn [decode_n] in H. unfold raise_if in H.
  destruct (offset + size >? len data); [discriminate|].
  destruct (size <? 2); [discriminate|].
  destruct (unpack_H data offset) as [word|e]; cbn [bind] in H; [|discriminate].
  cbv zeta in H.
  apply class_decode_in_range in H;
    [|intros d o s p Hp; apply (IH _ _ _ _ Hp)].
  destruct H as [Hr Hc]. split; [exact Hr|]. exists word. split; [reflexivity|].
  destruct (pdu_type_map (Z.land (Z.shiftr word 6) 15)) as [c|].
  - rewrite Hc. reflexivity.
  - destruct v; cbn [in_range] in Hr; try discriminate; cbn in Hc; discriminate.
Qed.

(** X11.  Every value that [decode] returns has its attributes in the
    ranges of the wire format (six-bit addresses, four-bit sequence and
    version numbers, a MIU in 128..2175, a link timeout that is a multiple
    of 10 up to 2550, a link service class in 0..3, ...), at every nesting
    level, and its class is the one the dispatch table gives for the type
    code in the header: [decode] never returns a value of the unknown
    class. *)
Theorem decode_in_range (data : buffer) (offset : Z) (size : option Z) (v : pdu) :
  decode data offset size = Ok v ->
  in_range v = true
  /\ exists word,
      unpack_H data offset = Ok word
      /\ pdu_type_map (Z.land (Z.shiftr word 6) 15) = Some (class_of v).
Proof. unfold decode. apply decode_n_in_range. Qed.

Lemma decode_in_range_witness :
  in_range (CONNECT 2 32 2047 15 [x61]%byte) = true
  /\ exists word,
      unpack_H [x09; x20; x02; x02; xff; x7f; x05; x01; x0f; x06; x01; x61]%byte 0
      = Ok word
      /\ pdu_type_map (Z.land (Z.shiftr word 6) 15)
         = Some (class_of (CONNECT 2 32 2047 15 [x61]%byte)).
Proof.
  apply (@decode_in_range
           [x09; x20; x02; x02; xff; x7f; x05; x01; x0f; x06; x01; x61]%byte
           0 None).
  reflexivity.
Defined.

(** A PDU whose attributes are in the ranges of the wire format is encoded,
    unless it is a frame with entries (whose encodings must fit a 16-bit
    length each). *)
Lemma in_range_encodes (v : pdu) :
  in_range v = true -> entries v = [] -> exists b, encode v = Ok b.
Proof.
  intros Hr He. destruct v; cbn [in_range] in Hr; cbn [entries] in He;
    try discriminate; cbn [encode].
  - (* SYMM *)
    bools Hr. subst. eexists. reflexivity.
  - (* PAX *)
    destruct version as [major minor]. cbn [fst snd] in Hr.
    unfold miu_ok in Hr. bools Hr. subst dsap ssap.
    assert (Hq : exists q, lto = q * 10 /\ 0 <= q <= 255).
    { exists (lto / 10). Z.to_euclidean_division_equations. lia. }
    destruct Hq as (q & -> & Hq).
    assert (Eq : q * 10 / 10 = q) by (apply Z.div_mul; lia).
    assert (Eopt : Z.lor (Z.shiftl dpc 2) lsc = dpc * 4 + lsc)
      by (rewrite lor_shiftl by (change (2 ^ 2) with 4; lia); reflexivity).
    destruct (@encode_header_ok 1 0 0 ltac:(lia) ltac:(lia) ltac:(lia))
      as (hi & lo & Hhdr & _).
    set (opts := [(true, Param.VERSION, V_pair major minor);
                  (truthy miu && (miu >? 128), Param.MIUX, V_int (miu - 128));
                  (truthy wks, Param.WKS, V_int wks);
                  (truthy (q * 10) && negb (q * 10 =? 100), Param.LTO, V_int q);
                  (truthy lsc || truthy dpc, Param.OPT, V_int (dpc * 4 + lsc))]).
    assert (Hok : opts_ok opts) by (unfold opts; opts_ok_tac).
    destruct (add_opts_ok [hi; lo] Hok) as (out & Hout).
    exists out. unfold ParameterExchange.encode. rewrite Hhdr.
    cbn [fst snd]. rewrite Eq, Eopt. exact Hout.
  - (* AGF *)
    subst aggregate. bools Hr. subst. eexists. reflexivity.
  - (* UI *)
    bools Hr.
    destruct (@encode_header_ok 3 dsap ssap ltac:(lia) ltac:(lia) ltac:(lia))
      as (hi & lo & Hhdr & _).
    unfold UnnumberedInformation.encode. rewrite Hhdr. eexists. reflexivity.
  - (* CONNECT *)
    unfold miu_ok in Hr. bools Hr.
    destruct (@encode_header_ok 4 dsap ssap ltac:(lia) ltac:(lia) ltac:(lia))
      as (hi & lo & Hhdr & _).
    set (opts := [(truthy miu && (miu >? 128), Param.MIUX, V_int (miu - 128));
                  (truthy rw && negb (rw =? 1), Param.RW, V_int rw);
                  (negb (len sn =? 0), Param.SN, V_bytes sn)]).
    assert (Hok : opts_ok opts) by (unfold opts; opts_ok_tac).
    destruct (add_opts_ok [hi; lo] Hok) as (out & Hout).
    exists out. unfold Connect.encode. rewrite Hhdr. exact Hout.
  - (* DISC *)
    bools Hr.
    destruct (@encode_header_ok 5 dsap ssap ltac:(lia) ltac:(lia) ltac:(lia))
      as (hi & lo & Hhdr & _).
    unfold Disconnect.encode. rewrite Hhdr. eexists. reflexivity.
  - (* CC *)
    unfold miu_ok in Hr. bools Hr.
    destruct (@encode_header_ok 6 dsap ssap ltac:(lia) ltac:(lia) ltac:(lia))
      as (hi & lo & Hhdr & _).
    set (opts := [(truthy miu && (miu >? 128), Param.MIUX, V_int (miu - 128));
                  (truthy rw && negb (rw =? 1), Param.RW, V_int rw)]).
    assert (Hok : opts_ok opts) by (unfold opts; opts_ok_tac).
    destruct (add_opts_ok [hi; lo] Hok) as (out & Hout).
    exists out. unfold ConnectionComplete.encode. rewrite Hhdr. exact Hout.
  - (* DM *)
    bools Hr.
    destruct (@encode_header_ok 7 dsap ssap ltac:(lia) ltac:(lia) ltac:(lia))
      as (hi & lo & Hhdr & _).
    destruct (@pack_B_cons_some [] reason [] [] ltac:(lia) pack_nil)
      as (r & Hpk & _).
    unfold DisconnectedMode.encode. rewrite Hhdr, Hpk. eexists. reflexivity.
  - (* FRMR *)
    bools Hr.
    destruct (@encode_header_ok ptype dsap ssap ltac:(lia) ltac:(lia) ltac:(lia))
      as (hi & lo & Hhdr & _).
    assert (E : forall a b, 0 <= a <= 15 -> 0 <= b <= 15 ->
                            0 <= Z.lor (Z.shiftl a 4) b <= 255).
    { intros a b Ha Hb. rewrite lor_shiftl by (change (2 ^ 4) with 16; lia).
      change (2 ^ 4) with 16. lia. }
    destruct (@pack_B_cons_some [] _ [] [] (E vsa vra ltac:(lia) ltac:(lia)) pack_nil)
      as (b3 & Hp3 & _).
    destruct (@pack_B_cons_some _ _ _ _ (E vs vr ltac:(lia) ltac:(lia)) Hp3)
      as (b2 & Hp2 & _).
    destruct (@pack_B_cons_some _ _ _ _ (E ns nr ltac:(lia) ltac:(lia)) Hp2)
      as (b1 & Hp1 & _).
    destruct (@pack_B_cons_some _ _ _ _ (E flags ptype ltac:(lia) ltac:(lia)) Hp1)
      as (b0 & Hp0 & _).
    unfold FrameReject.encode. rewrite Hhdr, Hp0. eexists. reflexivity.
  - (* SNL *)
    apply andb_true_iff in Hr. destruct Hr as [Hr Hres].
    apply andb_true_iff in Hr. destruct Hr as [Hr Hreq]. bools Hr.
    destruct (@encode_header_ok 9 dsap ssap ltac:(lia) ltac:(lia) ltac:(lia))
      as (hi & lo & Hhdr & _).
    set (o_res := map (fun x : Z * Z =>
                         (true, Param.SDRES, V_pair (fst x) (snd x))) sdres).
    set (o_req := map (fun x : Z * list byte =>
                         (true, Param.SDREQ, V_tid_sn (fst x) (snd x))) sdreq).
    assert (Hok : opts_ok (o_res ++ o_req)).
    { unfold opts_ok. apply Forall_app. split.
      - unfold o_res. apply Forall_map. rewrite forallb_forall in Hres.
        apply Forall_forall. intros [tid sap] Hin _.
        specialize (Hres _ Hin). cbn [fst snd] in *. bools Hres.
        unfold tlv_ok, Param.VERSION, Param.SDRES, u4, u8. zcmp. reflexivity.
      - unfold o_req. apply Forall_map. rewrite forallb_forall in Hreq.
        apply Forall_forall. intros [tid sn] Hin _.
        specialize (Hreq _ Hin). cbn [fst snd] in *. bools Hreq.
        unfold tlv_ok, Param.SDREQ, u8. zcmp. reflexivity. }
    destruct (add_opts_ok [hi; lo] Hok) as (out & Hout).
    exists out. unfold ServiceNameLookup.encode. rewrite Hhdr. cbn [bind].
    rewrite !add_all_opts. fold o_res. fold o_req.
    rewrite add_opts_app in Hout.
    destruct (add_opts o_res [hi; lo]) as [d|e]; [|discriminate].
    cbn [bind] in *. rewrite add_all_opts.
    match goal with
    | |- bind ?m _ = _ => replace m with (Ok out) by (symmetry; exact Hout)
    end.
    reflexivity.
  - (* DPS *)
    apply andb_true_iff in Hr. destruct Hr as [Hr Hrn].
    apply andb_true_iff in Hr. destruct Hr as [Hr Hecpk]. bools Hr.
    destruct (@encode_header_ok 10 dsap ssap ltac:(lia) ltac:(lia) ltac:(lia))
      as (hi & lo & Hhdr & _).
    set (opts := [(DataProtectionSetup.present ecpk, Param.ECPK,
                   V_bytes (DataProtectionSetup.bytes_of ecpk));
                  (DataProtectionSetup.present rn, Param.RN,
                   V_bytes (DataProtectionSetup.bytes_of rn))]).
    assert (Hok : opts_ok opts).
    { unfold opts, opts_ok. repeat apply Forall_cons; try apply Forall_nil;
        intros _; unfold tlv_ok, Param.ECPK, Param.RN, Param.SN;
        cbn [Z.eqb Pos.eqb orb andb].
      - destruct ecpk as [s|]; cbn [opt_bytes_ok DataProtectionSetup.bytes_of] in *;
          [exact Hecpk | reflexivity].
      - destruct rn as [s|]; cbn [opt_bytes_ok DataProtectionSetup.bytes_of] in *;
          [exact Hrn | reflexivity]. }
    destruct (add_opts_ok [hi; lo] Hok) as (out & Hout).
    exists out. unfold DataProtectionSetup.encode. rewrite Hhdr. exact Hout.
  - (* INFO *)
    destruct ns as [ns|]; [|bools Hr; discriminate].
    destruct nr as [nr|]; [|bools Hr; discriminate].
    cbn [seq_ok] in Hr. bools Hr.
    destruct (@numbered_encode_header_ok 12 dsap ssap ns nr true
                ltac:(lia) ltac:(lia) ltac:(lia) ltac:(lia) ltac:(lia)
                ltac:(discriminate))
      as (hi & lo & sq & Hhdr & _).
    unfold Information.encode. rewrite Hhdr. eexists. reflexivity.
  - (* RR *)
    destruct nr as [nr|]; [|bools Hr; discriminate].
    cbn [seq_ok] in Hr. bools Hr.
    destruct (@numbered_encode_header_ok 13 dsap ssap 0 nr false
                ltac:(lia) ltac:(lia) ltac:(lia) ltac:(lia) ltac:(lia)
                ltac:(reflexivity))
      as (hi & lo & sq & Hhdr & _).
    unfold ReceiveReady.encode. rewrite Hhdr. eexists. reflexivity.
  - (* RNR *)
    destruct nr as [nr|]; [|bools Hr; discriminate].
    cbn [seq_ok] in Hr. bools Hr.
    destruct (@numbered_encode_header_ok 14 dsap ssap 0 nr false
                ltac:(lia) ltac:(lia) ltac:(lia) ltac:(lia) ltac:(lia)
                ltac:(reflexivity))
      as (hi & lo & sq & Hhdr & _).
    unfold ReceiveNotReady.encode. rewrite Hhdr. eexists. reflexivity.
Qed.

(** X12.  Whatever [decode] returns can be encoded again: [encode] raises
    nothing on it.  (A frame with entries is left out: [encode] needs each
    entry's new encoding to fit a 16-bit length.) *)
Theorem decoded_value_encodes (data : buffer) (offset : Z) (size : option Z)
        (v : pdu) :
  decode data offset size = Ok v -> entries v = [] ->
  exists b, encode v = Ok b.
Proof.
  intros H He. unfold decode in H. apply decode_n_in_range in H.
  apply in_range_encodes; [apply H | exact He].
Qed.

Lemma decoded_value_encodes_witness :
  exists b, encode (PAX 0 0 (1, 0) 128 3 100 3 0) = Ok b.
Proof.
  apply (@decoded_value_encodes [x00; x40; x06; x01; x61]%byte 0 None);
    reflexivity.
Defined.

(** X13.  The texts of a Parameter Exchange PDU: [lsc_text] and [dpc_text]
    index a tuple of four and of two texts with the attribute, and raise
    [IndexError] exactly when it is outside -4..3 and -2..1.  On a PDU that
    [decode] returns they never raise. *)
Theorem pax_texts_defined (lsc dpc : Z) :
  (ParameterExchange.lsc_text lsc = Raise IndexError <-> lsc < -4 \/ 3 < lsc)
  /\ (ParameterExchange.dpc_text dpc = Raise IndexError <-> dpc < -2 \/ 1 < dpc)
  /\ forall data offset size dsap ssap version miu wks lto,
      decode data offset size = Ok (PAX dsap ssap version miu wks lto lsc dpc) ->
      exists a b,
        ParameterExchange.lsc_text lsc = Ok a
        /\ ParameterExchange.dpc_text dpc = Ok b.
Proof.
  assert (L : forall i, (-4 <= i <= 3 -> exists a, ParameterExchange.lsc_text i = Ok a)
                        /\ (i < -4 \/ 3 < i ->
                            ParameterExchange.lsc_text i = Raise IndexError)).
  { intros i. split.
    - intros Hi.
      assert (Hc : i = -4 \/ i = -3 \/ i = -2 \/ i = -1
                   \/ i = 0 \/ i = 1 \/ i = 2 \/ i = 3) by lia.
      destruct Hc as [-> |[-> |[-> |[-> |[-> |[-> |[-> | ->]]]]]]];
        eexists; reflexivity.
    - intros Hi. unfold ParameterExchange.lsc_text, item.
      change (len _) with 4.
      destruct (i <? 0) eqn:E; [apply Z.ltb_lt in E | apply Z.ltb_ge in E].
      + rewrite (proj2 (Z.ltb_lt (i + 4) 0)) by lia. reflexivity.
      + rewrite (proj2 (Z.ltb_ge i 0)) by lia.
        rewrite (proj2 (Z.leb_le 4 i)) by lia. reflexivity. }
  assert (D : forall i, (-2 <= i <= 1 -> exists a, ParameterExchange.dpc_text i = Ok a)
                        /\ (i < -2 \/ 1 < i ->
                            ParameterExchange.dpc_text i = Raise IndexError)).
  { intros i. split.
    - intros Hi.
      assert (Hc : i = -2 \/ i = -1 \/ i = 0 \/ i = 1) by lia.
      destruct Hc as [-> |[-> |[-> | ->]]]; eexists; reflexivity.
    - intros Hi. unfold ParameterExchange.dpc_text, item.
      change (len _) with 2.
      destruct (i <? 0) eqn:E; [apply Z.ltb_lt in E | apply Z.ltb_ge in E].
      + rewrite (proj2 (Z.ltb_lt (i + 2) 0)) by lia. reflexivity.
      + rewrite (proj2 (Z.ltb_ge i 0)) by lia.
        rewrite (proj2 (Z.leb_le 2 i)) by lia. reflexivity. }
  split; [|split].
  - split; [|apply L]. intros H.
    destruct (Z_lt_dec lsc (-4)) as [?|?]; [left; assumption|].
    destruct (Z_lt_dec 3 lsc) as [?|?]; [right; assumption|].
    destruct (proj1 (L lsc) ltac:(lia)) as (a & Ha). congruence.
  - split; [|apply D]. intros H.
    destruct (Z_lt_dec dpc (-2)) as [?|?]; [left; assumption|].
    destruct (Z_lt_dec 1 dpc) as [?|?]; [right; assumption|].
    destruct (proj1 (D dpc) ltac:(lia)) as (a & Ha). congruence.
  - intros data offset size dsap ssap version miu wks lto H.
    unfold decode in H. apply decode_n_in_range in H. destruct H as [H _].
    cbn [in_range] in H. bools H.
    destruct (proj1 (L lsc) ltac:(lia)) as (a & Ha).
    destruct (proj1 (D dpc) ltac:(lia)) as (b & Hb).
    exists a, b. split; assumption.
Qed.

Lemma pax_texts_defined_witness :
  exists a b,
    ParameterExchange.lsc_text 2 = Ok a /\ ParameterExchange.dpc_text 1 = Ok b.
Proof.
  apply (proj2 (proj2 (pax_texts_defined 2 1))
           [x00; x40; x07; x01; x06]%byte 0 None 0 0 (1, 0) 128 3 100).
  reflexivity.
Defined.

(** ** Frame Reject *)

Lemma pdu_type_map_frmr (t : Z) :
  pdu_type_map t = Some Cls.FrameReject -> t = 8.
Proof.
  destruct t as [|p|p]; cbn; try discriminate.
  do 4 (try (destruct p as [p|p|]; cbn; try discriminate)).
  reflexivity.
Qed.

(** X14.  No Frame Reject value survives a round trip.  [encode] writes
    the header with the type of the rejected PDU, so [decode] hands the
    bytes to the class of that type; and when that class is Frame Reject
    itself, [decode] takes the attributes from the header bytes. *)
Theorem frame_reject_never_roundtrips
        (dsap ssap flags ptype ns nr vs vr vsa vra : Z) (b : list byte) :
  encode (FRMR dsap ssap flags ptype ns nr vs vr vsa vra) = Ok b ->
  decode b 0 None <> Ok (FRMR dsap ssap flags ptype ns nr vs vr vsa vra).
Proof.
  intros He Hd. cbn [encode] in He. unfold FrameReject.encode in He.
  unbind He. apply Ok_inj in He. subst b.
  rename x into hd, x0 into body, Hx into Hhd, Hx0 into Hbody.
  unfold ProtocolDataUnit.encode_header, raise_if in Hhd.
  destruct (dsap >? 63); [discriminate|].
  destruct (ssap >? 63); [discriminate|].
  rewrite pack_cons_H in Hhd. unbind Hhd. apply Ok_inj in Hhd. subst hd.
  rewrite pack_nil in Hx0. apply Ok_inj in Hx0. subst x0.
  apply pack_H_inv in Hx. destruct Hx as (hi & lo & -> & Hw).
  apply pack_len in Hbody. cbn [map fmt_size fold_right] in Hbody.
  destruct body as [|p0 [|p1 [|p2 [|p3 [|p4 body]]]]];
    try (exfalso; unfold len in Hbody; cbn [List.length] in Hbody; lia).
  clear Hbody. cbn [app] in Hd.
  pose proof Hd as Hc. unfold decode in Hc. apply decode_n_in_range in Hc.
  destruct Hc as (_ & word & Hword & Hmap).
  change (unpack_H [hi; lo; p0; p1; p2; p3] 0)
    with (Ok (A := Z) (Z_of_byte hi * 256 + Z_of_byte lo)) in Hword.
  apply Ok_inj in Hword. subst word. cbn [class_of] in Hmap.
  pose proof (pdu_type_map_frmr _ Hmap) as Ht.
  unfold decode, size_of in Hd.
  rewrite (@decode_n_dispatch _ [hi; lo; p0; p1; p2; p3] 0 _ hi lo [p0; p1; p2; p3])
    in Hd; [|apply at_start | vm_compute; congruence | vm_compute; congruence].
  rewrite Hmap in Hd.
  change (class_decode _ Cls.FrameReject [hi; lo; p0; p1; p2; p3] 0
                       (len [hi; lo; p0; p1; p2; p3]))
    with (Ok (FRMR (Z.shiftr (Z_of_byte hi) 2) (Z.land (Z_of_byte lo) 63)
                   (Z.shiftr (Z_of_byte hi) 4) (Z.land (Z_of_byte hi) 15)
                   (Z.shiftr (Z_of_byte lo) 4) (Z.land (Z_of_byte lo) 15)
                   (Z.shiftr (Z_of_byte p0) 4) (Z.land (Z_of_byte p0) 15)
                   (Z.shiftr (Z_of_byte p1) 4) (Z.land (Z_of_byte p1) 15))) in Hd.
  apply Ok_inj in Hd. apply (f_equal ptype_of) in Hd. cbn [ptype_of] in Hd.
  pose proof (Z_of_byte_range hi) as Hhi. pose proof (Z_of_byte_range lo) as Hlo.
  set (w := Z_of_byte hi * 256 + Z_of_byte lo) in *.
  assert (Ehi : Z_of_byte hi = Z.shiftr w 8).
  { rewrite shiftr_div by lia. change (2 ^ 8) with 256. unfold w.
    rewrite Z.div_add_l by lia. rewrite Z.div_small by lia. lia. }
  assert (B7 : Z.testbit w 7 = false).
  { apply (f_equal (fun z => Z.testbit z 1)) in Ht.
    rewrite Z.land_spec, Z.shiftr_spec in Ht by lia.
    change (Z.testbit 15 1) with true in Ht. change (Z.testbit 8 1) with false in Ht.
    rewrite andb_true_r in Ht. exact Ht. }
  assert (B9 : Z.testbit w 9 = true).
  { apply (f_equal (fun z => Z.testbit z 3)) in Ht.
    rewrite Z.land_spec, Z.shiftr_spec in Ht by lia.
    change (Z.testbit 15 3) with true in Ht. change (Z.testbit 8 3) with true in Ht.
    rewrite andb_true_r in Ht. exact Ht. }
  assert (P1 : Z.testbit ptype 1 = true).
  { rewrite <- Hd, Z.land_spec, Ehi, Z.shiftr_spec by lia.
    change (Z.testbit 15 1) with true. rewrite andb_true_r. exact B9. }
  rewrite Hw in B7.
  rewrite !Z.lor_spec, (Z.shiftl_spec ptype) in B7 by lia.
  change (7 - 6) with 1 in B7. rewrite P1 in B7.
  rewrite orb_true_r in B7. discriminate B7.
Qed.

Lemma frame_reject_never_roundtrips_witness :
  encode (FRMR 1 0 0 8 1 2 3 4 5 6) = Ok [x06; x00; x08; x12; x34; x56]%byte
  /\ decode [x06; x00; x08; x12; x34; x56]%byte 0 None
     <> Ok (FRMR 1 0 0 8 1 2 3 4 5 6).
Proof.
  split; [reflexivity|].
  apply (@frame_reject_never_roundtrips 1 0 0 8 1 2 3 4 5 6). reflexivity.
Defined.

(** ** Decoding at an offset *)

Section Shift.
Variables pre rest : list byte.

Lemma skipn_shift (o : Z) :
  0 <= o ->
  skipn (Z.to_nat (len pre + o)) (pre ++ rest) = skipn (Z.to_nat o) rest.
Proof.
  intros Ho. unfold len. rewrite skipn_app.
  rewrite skipn_all2 by lia. cbn [app]. f_equal. lia.
Qed.

Lemma read_shift (o : Z) (n : nat) :
  0 <= o -> read (pre ++ rest) (len pre + o) n = read rest o n.
Proof.
  intros Ho. unfold read. pose proof (len_nonneg pre) as Hp.
  rewrite len_app.
  rewrite (proj2 (Z.ltb_ge (len pre + o) 0)) by lia.
  rewrite (proj2 (Z.ltb_ge o 0)) by lia. cbv zeta.
  rewrite (proj2 (Z.ltb_ge (len pre + o) 0)) by lia.
  rewrite (proj2 (Z.ltb_ge o 0)) by lia. cbn [orb].
  replace (len pre + len rest - (len pre + o)) with (len rest - o) by lia.
  rewrite skipn_shift by lia. reflexivity.
Qed.

Lemma slice_shift (a b : Z) :
  0 <= a -> 0 <= b ->
  slice (pre ++ rest) (len pre + a) (len pre + b) = slice rest a b.
Proof.
  intros Ha Hb. unfold slice, clip. pose proof (len_nonneg pre) as Hp.
  rewrite len_app.
  rewrite (proj2 (Z.ltb_ge (len pre + a) 0)) by lia.
  rewrite (proj2 (Z.ltb_ge (len pre + b) 0)) by lia.
  rewrite (proj2 (Z.ltb_ge a 0)) by lia.
  rewrite (proj2 (Z.ltb_ge b 0)) by lia.
  replace (Z.min (len pre + a) (len pre + len rest))
    with (len pre + Z.min a (len rest)) by lia.
  replace (Z.min (len pre + b) (len pre + len rest))
    with (len pre + Z.min b (len rest)) by lia.
  pose proof (len_nonneg rest).
  rewrite skipn_shift by lia. f_equal. lia.
Qed.

Lemma index_shift (o : Z) :
  0 <= o -> index (pre ++ rest) (len pre + o) = index rest o.
Proof.
  intros Ho. unfold index. pose proof (len_nonneg pre) as Hp.
  rewrite len_app.
  rewrite (proj2 (Z.ltb_ge (len pre + o) 0)) by lia.
  rewrite (proj2 (Z.ltb_ge o 0)) by lia. cbv zeta.
  rewrite (proj2 (Z.ltb_ge (len pre + o) 0)) by lia.
  rewrite (proj2 (Z.ltb_ge o 0)) by lia. cbn [orb].
  replace (len pre + len rest <=? len pre + o) with (len rest <=? o)
    by (destruct (len rest <=? o) eqn:E;
        [apply Z.leb_le in E; symmetry; apply Z.leb_le; lia
        |apply Z.leb_gt in E; symmetry; apply Z.leb_gt; lia]).
  destruct (len rest <=? o); [reflexivity|].
  rewrite nth_error_app2 by (unfold len; lia).
  replace (Z.to_nat (len pre + o) - List.length pre)%nat with (Z.to_nat o)
    by (unfold len; lia).
  reflexivity.
Qed.

Lemma unpack_B_shift (o : Z) :
  0 <= o -> unpack_B (pre ++ rest) (len pre + o) = unpack_B rest o.
Proof. intros Ho. unfold unpack_B. rewrite read_shift by lia. reflexivity. Qed.

Lemma unpack_BB_shift (o : Z) :
  0 <= o -> unpack_BB (pre ++ rest) (len pre + o) = unpack_BB rest o.
Proof. intros Ho. unfold unpack_BB. rewrite read_shift by lia. reflexivity. Qed.

Lemma unpack_BBB_shift (o : Z) :
  0 <= o -> unpack_BBB (pre ++ rest) (len pre + o) = unpack_BBB rest o.
Proof. intros Ho. unfold unpack_BBB. rewrite read_shift by lia. reflexivity. Qed.

Lemma unpack_BBBB_shift (o : Z) :
  0 <= o -> unpack_BBBB (pre ++ rest) (len pre + o) = unpack_BBBB rest o.
Proof. intros Ho. unfold unpack_BBBB. rewrite read_shift by lia. reflexivity. Qed.

Lemma unpack_H_shift (o : Z) :
  0 <= o -> unpack_H (pre ++ rest) (len pre + o) = unpack_H rest o.
Proof. intros Ho. unfold unpack_H. rewrite read_shift by lia. reflexivity. Qed.

Lemma unpack_Bs_shift (n o : Z) :
  0 <= o -> unpack_Bs n (pre ++ rest) (len pre + o) = unpack_Bs n rest o.
Proof. intros Ho. unfold unpack_Bs. rewrite read_shift by lia. reflexivity. Qed.

Lemma decode_header_shift (o size : Z) :
  0 <= o ->
  ProtocolDataUnit.decode_header (pre ++ rest) (len pre + o) size
  = ProtocolDataUnit.decode_header rest o size.
Proof.
  intros Ho. unfold ProtocolDataUnit.decode_header.
  rewrite unpack_BB_shift by lia. reflexivity.
Qed.

Lemma numbered_decode_header_shift (o size : Z) :
  0 <= o ->
  NumberedProtocolDataUnit.decode_header (pre ++ rest) (len pre + o) size
  = NumberedProtocolDataUnit.decode_header rest o size.
Proof.
  intros Ho. unfold NumberedProtocolDataUnit.decode_header.
  rewrite unpack_BBB_shift by lia. reflexivity.
Qed.

Lemma param_decode_shift (o size : Z) :
  0 <= o ->
  Param.decode (pre ++ rest) (len pre + o) size = Param.decode rest o size.
Proof.
  intros Ho. unfold Param.decode. rewrite unpack_BB_shift by lia.
  destruct (unpack_BB rest o) as [[T L]|e] eqn:E; [|reflexivity].
  apply unpack_BB_range in E. destruct E as [_ HL]. cbn [bind].
  rewrite <- !Z.add_assoc.
  rewrite unpack_B_shift, unpack_H_shift, unpack_BB_shift, unpack_Bs_shift,
    slice_shift by lia.
  reflexivity.
Qed.

Lemma tlv_loop_n_shift (St : Type) (body : St -> tlv -> result St) (n : nat) :
  forall o size st,
    0 <= o ->
    tlv_loop_n body n (pre ++ rest) (len pre + o) size st
    = tlv_loop_n body n rest o size st.
Proof.
  induction n as [|n IH]; intros o size st Ho; [reflexivity|].
  cbn [tlv_loop_n]. rewrite param_decode_shift by lia.
  destruct (size >=? 2); [|reflexivity].
  destruct (Param.decode rest o size) as [[[[T L] V]|]|e] eqn:ED;
    cbn [bind]; try reflexivity.
  apply param_decode_length in ED.
  destruct (body st (T, L, V)) as [st1|e]; cbn [bind]; [|reflexivity].
  rewrite <- !Z.add_assoc. apply IH. lia.
Qed.

Lemma tlv_loop_shift (St : Type) (body : St -> tlv -> result St)
      (o size : Z) (st : St) :
  0 <= o ->
  tlv_loop body (pre ++ rest) (len pre + o) size st = tlv_loop body rest o size st.
Proof. apply tlv_loop_n_shift. Qed.

Lemma agf_loop_n_shift (dec1 dec2 : buffer -> Z -> Z -> result pdu) (n : nat) :
  (forall o size, 0 <= o -> dec1 (pre ++ rest) (len pre + o) size = dec2 rest o size) ->
  forall o size acc,
    0 <= o ->
    AggregatedFrame.loop_n dec1 n (pre ++ rest) (len pre + o) size acc
    = AggregatedFrame.loop_n dec2 n rest o size acc.
Proof.
  intros Hdec. induction n as [|n IH]; intros o size acc Ho; [reflexivity|].
  cbn [AggregatedFrame.loop_n]. rewrite unpack_H_shift by lia.
  destruct (size >? 0); [|reflexivity].
  destruct (unpack_H rest o) as [w|e] eqn:E; [|reflexivity].
  apply unpack_H_range in E. cbn [bind].
  rewrite <- !Z.add_assoc. rewrite Hdec by lia.
  destruct (dec2 rest (o + 2) w) as [p|e]; cbn [bind]; [|reflexivity].
  apply IH. lia.
Qed.

Lemma class_decode_shift (dec1 dec2 : buffer -> Z -> Z -> result pdu)
      (c : Cls.class) (o size : Z) :
  (forall o size, 0 <= o -> dec1 (pre ++ rest) (len pre + o) size = dec2 rest o size) ->
  0 <= o ->
  class_decode dec1 c (pre ++ rest) (len pre + o) size
  = class_decode dec2 c rest o size.
Proof.
  intros Hdec Ho.
  destruct c; cbn [class_decode]; try reflexivity;
    unfold Symmetry.decode, ParameterExchange.decode, AggregatedFrame.decode,
      UnnumberedInformation.decode, Connect.decode, Disconnect.decode,
      ConnectionComplete.decode, DisconnectedMode.decode, FrameReject.decode,
      ServiceNameLookup.decode, DataProtectionSetup.decode, Information.decode,
      ReceiveReady.decode, ReceiveNotReady.decode, UnknownProtocolDataUnit.decode,
      AggregatedFrame.loop;
    rewrite ?decode_header_shift, ?numbered_decode_header_shift by lia;
    rewrite <- ?Z.add_assoc;
    rewrite ?tlv_loop_shift, ?slice_shift, ?unpack_B_shift, ?unpack_BBBB_shift,
      ?index_shift by lia;
    try reflexivity.
  - (* AGF *)
    destruct (ProtocolDataUnit.decode_header rest o size) as [[d s]|e];
      [|reflexivity].
    cbn [bind]. unfold raise_if.
    destruct (negb (d =? 0)); [reflexivity|].
    destruct (negb (s =? 0)); [reflexivity|].
    rewrite (@agf_loop_n_shift dec1 dec2 _ Hdec) by lia.
    reflexivity.
  - (* UI: the header needs two bytes *)
    unfold ProtocolDataUnit.decode_header, raise_if.
    destruct (size <? 2) eqn:E; [reflexivity|]. apply Z.ltb_ge in E.
    rewrite slice_shift by lia. reflexivity.
  - (* I: the header needs three bytes *)
    unfold NumberedProtocolDataUnit.decode_header, raise_if.
    destruct (size <? 3) eqn:E; [reflexivity|]. apply Z.ltb_ge in E.
    rewrite slice_shift by lia. reflexivity.
Qed.

Lemma decode_n_shift (n : nat) :
  forall o size,
    0 <= o ->
    decode_n n (pre ++ rest) (len pre + o) size = decode_n n rest o size.
Proof.
  induction n as [|n IH]; intros o size Ho; [reflexivity|].
  cbn [decode_n]. rewrite len_app, unpack_H_shift by lia.
  replace (len pre + o + size >? len pre + len rest) with (o + size >? len rest)
    by (rewrite !Z.gtb_ltb;
        destruct (len rest <? o + size) eqn:E;
        [apply Z.ltb_lt in E; symmetry; apply Z.ltb_lt; lia
        |apply Z.ltb_ge in E; symmetry; apply Z.ltb_ge; lia]).
  unfold raise_if.
  destruct (o + size >? len rest); [reflexivity|].
  destruct (size <? 2); [reflexivity|].
  destruct (unpack_H rest o) as [word|e]; [|reflexivity].
  cbn [bind]. cbv zeta. apply class_decode_shift; [exact IH | exact Ho].
Qed.
End Shift.

(** X15.  Decoding [size] bytes at an offset is decoding the buffer without
    its first [offset] bytes: nothing before the offset is read, also by
    the entries of an aggregated frame.  The size must be given, though:
    its default is the length of the whole buffer, so a call with an
    offset and no size raises [DecodeError]. *)
Theorem decode_at_offset (pre rest : list byte) (size : Z) :
  decode (pre ++ rest) (len pre) (Some size) = decode rest 0 (Some size)
  /\ (pre <> [] -> is_DecodeError (decode (pre ++ rest) (len pre) None)).
Proof.
  split.
  - unfold decode, size_of.
    replace (len pre) with (len pre + 0) by lia.
    rewrite decode_n_shift by lia.
    apply decode_n_mono.
    + rewrite length_app. lia.
    + apply no_rd_decode_n; [lia|]. intros _. unfold len. lia.
  - intros Hpre. unfold decode, size_of. cbn [decode_n]. unfold raise_if.
    assert (0 < len pre).
    { destruct pre as [|x l]; [contradiction|]. rewrite len_cons.
      pose proof (len_nonneg l). lia. }
    rewrite gtb_true by lia. eexists. reflexivity.
Qed.

Lemma decode_at_offset_witness :
  is_DecodeError (decode ([xff]%byte ++ [x15; x40]%byte) (len [xff]%byte) None).
Proof.
  apply (proj2 (decode_at_offset [xff]%byte [x15; x40]%byte 2)). discriminate.
Defined.

(** ** TLVs that a class does not use *)

Section UnusedTlv.
Variables (h0 h1 : byte) (T : Z) (V : value) (b rest : list byte).
Hypothesis V_ok : tlv_ok T V = true.
Hypothesis b_enc : Param.encode T V = Ok b.

(** The loop over the TLV and the rest, when the body leaves the state as
    it is, is the loop over the rest. *)
Lemma tlv_loop_skip (St : Type) (body : St -> tlv -> result St) (st : St) :
  (forall L, body st (T, L, V) = Ok st) ->
  tlv_loop body (h0 :: h1 :: b ++ rest) (0 + 2)
           (len (h0 :: h1 :: b ++ rest) - 2) st
  = tlv_loop body (h0 :: h1 :: rest) (0 + 2) (len (h0 :: h1 :: rest) - 2) st.
Proof.
  intros Hbody.
  assert (Hat : at_ (h0 :: h1 :: b ++ rest) (0 + 2) (b ++ rest))
    by (apply (at_skip [h0; h1] (b ++ rest) (at_start _)); reflexivity).
  pose proof (len_nonneg b) as Hb. pose proof (len_nonneg rest) as Hr.
  assert (E1 : len (h0 :: h1 :: b ++ rest) - 2 = len b + len rest)
    by (rewrite !len_cons, len_app; lia).
  assert (E2 : len (h0 :: h1 :: rest) - 2 = len rest)
    by (rewrite !len_cons; lia).
  rewrite E1, E2.
  rewrite (@tlv_loop_step St body T V b _ _ _ rest st V_ok b_enc Hat) by lia.
  rewrite Hbody. cbn [bind].
  replace (len b + len rest - len b) with (len rest) by lia.
  change (h0 :: h1 :: b ++ rest) with ((h0 :: h1 :: b) ++ rest).
  replace (0 + 2 + len b) with (len (h0 :: h1 :: b) + 0)
    by (rewrite !len_cons; lia).
  rewrite tlv_loop_shift by lia.
  change (h0 :: h1 :: rest) with ([h0; h1] ++ rest).
  change (0 + 2) with (len [h0; h1] + 0).
  rewrite tlv_loop_shift by lia. reflexivity.
Qed.
End UnusedTlv.

(** X16.  A well-formed TLV of a type that the class of the PDU has no use
    for (a service name in a Parameter Exchange PDU, say) is skipped: the
    PDU decodes as it does without the TLV. *)
Theorem unused_tlv_skipped (c : Cls.class) (h0 h1 : byte) (T : Z) (V : value)
        (b rest : list byte) :
  pdu_type_map (Z.land (Z.shiftr (Z_of_byte h0 * 256 + Z_of_byte h1) 6) 15)
  = Some c ->
  has_tlvs c = true -> uses c T = false ->
  tlv_ok T V = true -> Param.encode T V = Ok b ->
  decode (h0 :: h1 :: b ++ rest) 0 None = decode (h0 :: h1 :: rest) 0 None.
Proof.
  intros Hmap Hc Hu Hok Hb. unfold decode, size_of.
  pose proof (len_nonneg b) as Hb0. pose proof (len_nonneg rest) as Hr0.
  rewrite (@decode_n_dispatch _ (h0 :: h1 :: b ++ rest) 0 _ h0 h1 (b ++ rest));
    [|apply at_start | rewrite !len_cons; pose proof (len_nonneg (b ++ rest)); lia
     |lia].
  rewrite (@decode_n_dispatch _ (h0 :: h1 :: rest) 0 _ h0 h1 rest);
    [|apply at_start | rewrite !len_cons; lia | lia].
  rewrite Hmap.
  assert (S1 : 2 <= len (h0 :: h1 :: b ++ rest))
    by (rewrite !len_cons; pose proof (len_nonneg (b ++ rest)); lia).
  assert (S2 : 2 <= len (h0 :: h1 :: rest)) by (rewrite !len_cons; lia).
  destruct c; cbn [has_tlvs] in Hc; try discriminate; cbn [class_decode uses] in *;
    unfold ParameterExchange.decode, Connect.decode, ConnectionComplete.decode,
      ServiceNameLookup.decode, DataProtectionSetup.decode;
    rewrite (decode_header_at (at_start (h0 :: h1 :: b ++ rest)) S1),
      (decode_header_at (at_start (h0 :: h1 :: rest)) S2);
    cbn [bind]; unfold raise_if;
    repeat match goal with
           | |- (if ?x then _ else _) = (if ?x then _ else _) =>
               destruct x; [reflexivity|]
           end;
    repeat (apply orb_false_iff in Hu; let E := fresh "E" in destruct Hu as [Hu E]);
    (rewrite (@tlv_loop_skip h0 h1 T V b rest Hok Hb); [reflexivity|]);
    intros L.
  - unfold ParameterExchange.body.
    repeat match goal with
           | E : (T =? ?k) = false |- _ => rewrite E; clear E
           end.
    cbn [bind]. repeat match goal with
                       | E : (T =? ?k) = false |- _ => rewrite E; clear E
                       end.
    reflexivity.
  - unfold Connect.body.
    repeat match goal with
           | E : (T =? ?k) = false |- _ => rewrite E; clear E
           end.
    cbn [bind]. repeat match goal with
                       | E : (T =? ?k) = false |- _ => rewrite E; clear E
                       end.
    reflexivity.
  - unfold ConnectionComplete.body.
    repeat match goal with
           | E : (T =? ?k) = false |- _ => rewrite E; clear E
           end.
    cbn [bind]. repeat match goal with
                       | E : (T =? ?k) = false |- _ => rewrite E; clear E
                       end.
    reflexivity.
  - unfold ServiceNameLookup.body.
    repeat match goal with
           | E : (T =? ?k) = false |- _ => rewrite E; clear E
           end.
    cbn [bind]. repeat match goal with
                       | E : (T =? ?k) = false |- _ => rewrite E; clear E
                       end.
    reflexivity.
  - unfold DataProtectionSetup.body.
    repeat match goal with
           | E : (T =? ?k) = false |- _ => rewrite E; clear E
           end.
    cbn [bind]. repeat match goal with
                       | E : (T =? ?k) = false |- _ => rewrite E; clear E
                       end.
    reflexivity.
Qed.

Lemma unused_tlv_skipped_witness :
  decode (x00 :: x40 :: [x06; x03; x61; x62; x63] ++ [x04; x01; x07])%byte 0 None
  = decode (x00 :: x40 :: [x04; x01; x07])%byte 0 None.
Proof.
  apply (@unused_tlv_skipped Cls.ParameterExchange x00 x40 6
           (V_bytes [x61; x62; x63]%byte)); reflexivity.
Defined.

(** ** Malformed TLVs *)

(** X17.  [Parameter.decode] turns a length byte that does not fit into a
    [DecodeError]: a length beyond the bytes that remain, and a length
    other than the one of a fixed-size type (one byte for VERSION, LTO, RW
    and OPT, two for MIUX, WKS and SDRES). *)
Theorem param_decode_length_errors (data : buffer) (offset size T L : Z) :
  unpack_BB data offset = Ok (T, L) ->
  (size - 2 < L ->
   Param.decode data offset size
   = Raise (DecodeError ("TLV length error for T=" ++ str_d T)))
  /\ (L <= size - 2 ->
      ((T = 1 \/ T = 4 \/ T = 5 \/ T = 7) /\ L <> 1)
      \/ ((T = 2 \/ T = 3 \/ T = 9) /\ L <> 2) ->
      is_DecodeError (Param.decode data offset size)).
Proof.
  intros Hh. unfold Param.decode. rewrite Hh. cbn [bind]. unfold assert_.
  split.
  - intros HL. rewrite (proj2 (Z.leb_gt L (size - 2))) by lia. reflexivity.
  - intros HL Hc. rewrite (proj2 (Z.leb_le L (size - 2))) by lia.
    unfold is_DecodeError, Param.VERSION, Param.MIUX, Param.WKS, Param.LTO,
      Param.RW, Param.SN, Param.OPT, Param.SDREQ, Param.SDRES.
    destruct Hc as [[Ht Hl]|[Ht Hl]].
    + apply Z.eqb_neq in Hl.
      destruct Ht as [-> |[-> |[-> | ->]]]; cbn [Z.eqb Pos.eqb]; rewrite Hl;
        eexists; reflexivity.
    + apply Z.eqb_neq in Hl.
      destruct Ht as [-> |[-> | ->]]; cbn [Z.eqb Pos.eqb]; rewrite Hl;
        eexists; reflexivity.
Qed.

Lemma param_decode_length_errors_witness :
  Param.decode [x02; x02; x00]%byte 0 3
  = Raise (DecodeError ("TLV length error for T=" ++ str_d 2))
  /\ is_DecodeError (Param.decode [x01; x02; x00; x00]%byte 0 4).
Proof.
  split.
  - apply (proj1 (@param_decode_length_errors [x02; x02; x00]%byte 0 3 2 2
                    eq_refl)).
    lia.
  - apply (proj2 (@param_decode_length_errors [x01; x02; x00; x00]%byte 0 4 1 2
                    eq_refl)); [lia|].
    left. split; [left; reflexivity | lia].
Defined.

(** X18.  A service discovery request TLV with a length byte of zero makes
    [decode] raise [struct.error], not [DecodeError], whatever the class
    of the PDU that carries it: the format string of its value is built
    with a negative count. *)
Theorem sdreq_without_tid_struct_error (c : Cls.class) (h0 h1 : byte)
        (rest : list byte) :
  pdu_type_map (Z.land (Z.shiftr (Z_of_byte h0 * 256 + Z_of_byte h1) 6) 15)
  = Some c ->
  has_tlvs c = true ->
  (c = Cls.ParameterExchange ->
   Z.shiftr (Z_of_byte h0) 2 = 0 /\ Z.land (Z_of_byte h1) 63 = 0) ->
  decode (h0 :: h1 :: x08 :: x00 :: rest)%byte 0 None = Raise StructError.
Proof.
  intros Hmap Hc Hpax. unfold decode, size_of.
  pose proof (len_nonneg rest) as Hr.
  assert (S1 : 4 <= len (h0 :: h1 :: x08 :: x00 :: rest)%byte)
    by (rewrite !len_cons; lia).
  rewrite (@decode_n_dispatch _ _ 0 _ h0 h1 (x08 :: x00 :: rest)%byte);
    [|apply at_start | lia | lia].
  rewrite Hmap.
  assert (Hat : at_ (h0 :: h1 :: x08 :: x00 :: rest)%byte (0 + 2)
                    (x08 :: x00 :: rest)%byte)
    by (apply (at_skip [h0; h1] _ (at_start _)); reflexivity).
  assert (Hloop : forall (St : Type) (body : St -> tlv -> result St) st,
             tlv_loop body (h0 :: h1 :: x08 :: x00 :: rest)%byte (0 + 2)
                      (len (h0 :: h1 :: x08 :: x00 :: rest)%byte - 2) st
             = Raise StructError).
  { intros St body st. rewrite tlv_loop_eq. zcmp.
    unfold Param.decode. rewrite (unpack_BB_at Hat). cbn [bind].
    unfold assert_. change (Z_of_byte x00) with 0. change (Z_of_byte x08) with 8.
    zcmp. reflexivity. }
  destruct c; cbn [has_tlvs] in Hc; try discriminate; cbn [class_decode];
    unfold ParameterExchange.decode, Connect.decode, ConnectionComplete.decode,
      ServiceNameLookup.decode, DataProtectionSetup.decode;
    rewrite (decode_header_at (at_start _)) by lia; cbn [bind];
    rewrite ?Hloop; try reflexivity.
  destruct (Hpax eq_refl) as [-> ->]. reflexivity.
Qed.

Lemma sdreq_without_tid_struct_error_witness :
  decode (x06 :: x41 :: x08 :: x00 :: [])%byte 0 None = Raise StructError.
Proof.
  apply (@sdreq_without_tid_struct_error Cls.ServiceNameLookup);
    [reflexivity | reflexivity | discriminate].
Defined.

(** ** The bytes that [decode] looks at *)

Lemma pdu_type_map_agf (t : Z) :
  pdu_type_map t = Some Cls.AggregatedFrame -> t = 2.
Proof.
  destruct t as [|p|p]; cbn; try discriminate.
  do 4 (try (destruct p as [p|p|]; cbn; try discriminate)).
  reflexivity.
Qed.

Section Window.
Variables w post : list byte.

Lemma read_window (o : Z) (n : nat) :
  0 <= o -> o + Z.of_nat n <= len w -> read (w ++ post) o n = read w o n.
Proof.
  intros Ho Hn. unfold read. pose proof (len_nonneg post) as Hp.
  rewrite len_app.
  rewrite (proj2 (Z.ltb_ge o 0)) by lia. cbv zeta.
  rewrite (proj2 (Z.ltb_ge o 0)) by lia. cbn [orb].
  rewrite (proj2 (Z.ltb_ge (len w + len post - o) (Z.of_nat n))) by lia.
  rewrite (proj2 (Z.ltb_ge (len w - o) (Z.of_nat n))) by lia.
  rewrite skipn_app, firstn_app, length_skipn.
  replace (n - (List.length w - Z.to_nat o))%nat with 0%nat
    by (unfold len in Hn; lia).
  cbn [firstn]. rewrite app_nil_r. reflexivity.
Qed.

Lemma slice_window (a b : Z) :
  0 <= a <= len w -> 0 <= b <= len w ->
  slice (w ++ post) a b = slice w a b.
Proof.
  intros Ha Hb. unfold slice, clip. pose proof (len_nonneg post) as Hp.
  rewrite len_app.
  rewrite (proj2 (Z.ltb_ge a 0)) by lia.
  rewrite (proj2 (Z.ltb_ge b 0)) by lia.
  rewrite !Z.min_l by lia.
  rewrite skipn_app, firstn_app, length_skipn.
  replace (Z.to_nat (b - a) - (List.length w - Z.to_nat a))%nat with 0%nat
    by (unfold len in *; lia).
  cbn [firstn]. rewrite app_nil_r. reflexivity.
Qed.

Lemma index_window (o : Z) :
  0 <= o < len w -> index (w ++ post) o = index w o.
Proof.
  intros Ho. unfold index. pose proof (len_nonneg post) as Hp.
  rewrite len_app.
  rewrite (proj2 (Z.ltb_ge o 0)) by lia. cbv zeta.
  rewrite (proj2 (Z.ltb_ge o 0)) by lia. cbn [orb].
  rewrite (proj2 (Z.leb_gt (len w + len post) o)) by lia.
  rewrite (proj2 (Z.leb_gt (len w) o)) by lia.
  rewrite nth_error_app1 by (unfold len in Ho; lia). reflexivity.
Qed.

Lemma unpack_B_window (o : Z) :
  0 <= o -> o + 1 <= len w -> unpack_B (w ++ post) o = unpack_B w o.
Proof. intros. unfold unpack_B. rewrite read_window by lia. reflexivity. Qed.

Lemma unpack_BB_window (o : Z) :
  0 <= o -> o + 2 <= len w -> unpack_BB (w ++ post) o = unpack_BB w o.
Proof. intros. unfold unpack_BB. rewrite read_window by lia. reflexivity. Qed.

Lemma unpack_BBB_window (o : Z) :
  0 <= o -> o + 3 <= len w -> unpack_BBB (w ++ post) o = unpack_BBB w o.
Proof. intros. unfold unpack_BBB. rewrite read_window by lia. reflexivity. Qed.

Lemma unpack_BBBB_window (o : Z) :
  0 <= o -> o + 4 <= len w -> unpack_BBBB (w ++ post) o = unpack_BBBB w o.
Proof. intros. unfold unpack_BBBB. rewrite read_window by lia. reflexivity. Qed.

Lemma unpack_H_window (o : Z) :
  0 <= o -> o + 2 <= len w -> unpack_H (w ++ post) o = unpack_H w o.
Proof. intros. unfold unpack_H. rewrite read_window by lia. reflexivity. Qed.

Lemma unpack_Bs_window (n o : Z) :
  0 <= o -> o + 1 + n <= len w -> unpack_Bs n (w ++ post) o = unpack_Bs n w o.
Proof.
  intros. unfold unpack_Bs. destruct (n <? 0) eqn:E; [reflexivity|].
  apply Z.ltb_ge in E. rewrite read_window by lia. reflexivity.
Qed.

Lemma decode_header_window (o size : Z) :
  0 <= o -> o + size <= len w ->
  ProtocolDataUnit.decode_header (w ++ post) o size
  = ProtocolDataUnit.decode_header w o size.
Proof.
  intros. unfold ProtocolDataUnit.decode_header, raise_if.
  destruct (size <? 2) eqn:E; [reflexivity|]. apply Z.ltb_ge in E.
  rewrite unpack_BB_window by lia. reflexivity.
Qed.

Lemma numbered_decode_header_window (o size : Z) :
  0 <= o -> o + size <= len w ->
  NumberedProtocolDataUnit.decode_header (w ++ post) o size
  = NumberedProtocolDataUnit.decode_header w o size.
Proof.
  intros. unfold NumberedProtocolDataUnit.decode_header, raise_if.
  destruct (size <? 3) eqn:E; [reflexivity|]. apply Z.ltb_ge in E.
  rewrite unpack_BBB_window by lia. reflexivity.
Qed.

Lemma param_decode_window (o size : Z) :
  0 <= o -> 2 <= size -> o + size <= len w ->
  Param.decode (w ++ post) o size = Param.decode w o size.
Proof.
  intros Ho Hs Hfit. unfold Param.decode. rewrite unpack_BB_window by lia.
  destruct (unpack_BB w o) as [[T L]|e] eqn:E; [|reflexivity].
  apply unpack_BB_range in E. destruct E as [_ HL]. cbn [bind].
  unfold assert_. destruct (L <=? size - 2) eqn:EL; [|reflexivity].
  apply Z.leb_le in EL.
  rewrite !slice_window by lia.
  rewrite (unpack_Bs_window (L - 1)) by lia.
  repeat match goal with
         | |- (if ?c then _ else _) = (if ?c then _ else _) =>
             let Ec := fresh "Ec" in
             destruct c eqn:Ec; [try apply Z.eqb_eq in Ec|]
         end;
    try reflexivity;
    subst; rewrite ?unpack_B_window, ?unpack_H_window, ?unpack_BB_window by lia;
    reflexivity.
Qed.

Lemma tlv_loop_n_window (St : Type) (body : St -> tlv -> result St) (n : nat) :
  forall o size st,
    0 <= o -> o + size <= len w ->
    tlv_loop_n body n (w ++ post) o size st = tlv_loop_n body n w o size st.
Proof.
  induction n as [|n IH]; intros o size st Ho Hfit; [reflexivity|].
  cbn [tlv_loop_n]. destruct (size >=? 2) eqn:E; [|reflexivity].
  rewrite Z.geb_leb in E. apply Z.leb_le in E.
  rewrite param_decode_window by lia.
  destruct (Param.decode w o size) as [[[[T L] V]|]|e] eqn:ED;
    cbn [bind]; try reflexivity.
  apply param_decode_length in ED.
  destruct (body st (T, L, V)) as [st1|e]; cbn [bind]; [|reflexivity].
  apply IH; lia.
Qed.

Lemma tlv_loop_window (St : Type) (body : St -> tlv -> result St)
      (o size : Z) (st : St) :
  0 <= o -> o + size <= len w ->
  tlv_loop body (w ++ post) o size st = tlv_loop body w o size st.
Proof. apply tlv_loop_n_window. Qed.

(** Every class but Aggregated Frame keeps its reads inside the [size] bytes
    at [offset]. *)
Lemma class_decode_window (dec1 dec2 : buffer -> Z -> Z -> result pdu)
      (c : Cls.class) (o size : Z) :
  c <> Cls.AggregatedFrame ->
  0 <= o -> o + size <= len w ->
  class_decode dec1 c (w ++ post) o size = class_decode dec2 c w o size.
Proof.
  intros Hc Ho Hfit.
  destruct c; cbn [class_decode]; try reflexivity; try contradiction;
    unfold Symmetry.decode, ParameterExchange.decode,
      UnnumberedInformation.decode, Connect.decode, Disconnect.decode,
      ConnectionComplete.decode, DisconnectedMode.decode, FrameReject.decode,
      ServiceNameLookup.decode, DataProtectionSetup.decode, Information.decode,
      ReceiveReady.decode, ReceiveNotReady.decode, UnknownProtocolDataUnit.decode;
    rewrite ?decode_header_window, ?numbered_decode_header_window by lia;
    rewrite ?tlv_loop_window by lia;
    try reflexivity.
  - (* UI *)
    unfold ProtocolDataUnit.decode_header, raise_if.
    destruct (size <? 2) eqn:E; [reflexivity|]. apply Z.ltb_ge in E.
    rewrite slice_window by lia. reflexivity.
  - (* DM *)
    unfold raise_if. destruct (size =? 3) eqn:E; [|reflexivity].
    apply Z.eqb_eq in E. cbn [negb]. rewrite unpack_B_window by lia.
    reflexivity.
  - (* FRMR *)
    unfold raise_if. destruct (size =? 6) eqn:E; [|reflexivity].
    apply Z.eqb_eq in E. cbn [negb]. rewrite unpack_BBBB_window by lia.
    reflexivity.
  - (* I *)
    unfold NumberedProtocolDataUnit.decode_header, raise_if.
    destruct (size <? 3) eqn:E; [reflexivity|]. apply Z.ltb_ge in E.
    rewrite slice_window by lia. reflexivity.
  - (* the unknown class: its constructor raises *)
    unfold ProtocolDataUnit.decode_header, raise_if.
    destruct (size <? 2) eqn:E; [reflexivity|]. apply Z.ltb_ge in E.
    rewrite !index_window, slice_window by lia. reflexivity.
Qed.
End Window.

(** X19.  For every PDU but an aggregated frame, [decode(data, offset,
    size)] depends on the [size] bytes at [offset] only: the result is the
    result of decoding those bytes on their own. *)
Theorem decode_window (pre w post : list byte) :
  (forall word, unpack_H w 0 = Ok word -> Z.land (Z.shiftr word 6) 15 <> 2) ->
  decode (pre ++ w ++ post) (len pre) (Some (len w)) = decode w 0 None.
Proof.
  intros Ht. unfold decode, size_of.
  replace (len pre) with (len pre + 0) by lia.
  rewrite decode_n_shift by lia.
  pose proof (len_nonneg w) as Hw. pose proof (len_nonneg post) as Hp.
  cbn [decode_n]. rewrite len_app. unfold raise_if.
  rewrite !gtb_false by lia.
  destruct (len w <? 2) eqn:E; [reflexivity|]. apply Z.ltb_ge in E.
  rewrite unpack_H_window by lia.
  destruct (unpack_H w 0) as [word|e] eqn:Ew; [|reflexivity].
  cbn [bind]. cbv zeta. apply class_decode_window; [|lia|lia].
  specialize (Ht word eq_refl).
  destruct (pdu_type_map (Z.land (Z.shiftr word 6) 15)) as [c|] eqn:Ec;
    [|discriminate].
  intros ->. apply Ht. apply pdu_type_map_agf. exact Ec.
Qed.

Lemma decode_window_witness :
  decode ([xff]%byte ++ [x1d; xc0; x03]%byte ++ [xee; xee]%byte)
         (len [xff]%byte) (Some (len [x1d; xc0; x03]%byte))
  = decode [x1d; xc0; x03]%byte 0 None.
Proof.
  apply decode_window. intros word H. apply Ok_inj in H. subst word.
  vm_compute. congruence.
Defined.

(** ** The header that [encode] writes *)

Lemma add_if_prefix (c : bool) (T : Z) (V : value) (data b : list byte) :
  add_if c T V data = Ok b -> exists p, b = data ++ p.
Proof.
  unfold add_if. destruct c.
  - destruct (Param.encode T V) as [p|e]; cbn [bind]; [|discriminate].
    intros H. apply Ok_inj in H. exists p. congruence.
  - intros H. apply Ok_inj in H. exists []. rewrite app_nil_r. congruence.
Qed.

Lemma add_all_prefix (A : Type) (T : Z) (to_value : A -> value) (xs : list A) :
  forall data b,
    ServiceNameLookup.add_all T to_value xs data = Ok b -> exists p, b = data ++ p.
Proof.
  induction xs as [|x xs IH]; intros data b H; cbn [ServiceNameLookup.add_all] in H.
  - apply Ok_inj in H. exists []. rewrite app_nil_r. congruence.
  - apply bind_inv in H. destruct H as (d & Hd & H).
    apply add_if_prefix in Hd. destruct Hd as (p & ->).
    apply IH in H. destruct H as (q & ->). exists (p ++ q).
    rewrite app_assoc. reflexivity.
Qed.

Lemma join_prefix (es : list (list byte)) :
  forall data b, AggregatedFrame.join data es = Ok b -> exists p, b = data ++ p.
Proof.
  induction es as [|e es IH]; intros data b H; cbn [AggregatedFrame.join] in H.
  - apply Ok_inj in H. exists []. rewrite app_nil_r. congruence.
  - apply bind_inv in H. destruct H as (hd & _ & H).
    apply IH in H. destruct H as (q & ->). exists ((hd ++ e) ++ q).
    rewrite <- app_assoc. reflexivity.
Qed.

(** The fields of a header that was written: the word was in range, so the
    three fields were not negative and did not overlap. *)
Lemma header_word_fields (ptype dsap ssap : Z) (hi lo : byte) :
  dsap <= 63 -> ssap <= 63 -> ptype <= 15 ->
  pack_H (Z.lor (Z.lor (Z.shiftl dsap 10) (Z.shiftl ptype 6)) ssap) = Ok [hi; lo] ->
  Z.shiftr (Z_of_byte hi) 2 = dsap
  /\ Z.land (Z_of_byte lo) 63 = ssap
  /\ Z.land (Z.shiftr (Z_of_byte hi * 256 + Z_of_byte lo) 6) 15 = ptype.
Proof.
  intros Hd Hs Hp H.
  assert (Hw : 0 <= Z.lor (Z.lor (Z.shiftl dsap 10) (Z.shiftl ptype 6)) ssap).
  { unfold pack_H in H.
    destruct ((0 <=? Z.lor (Z.lor (Z.shiftl dsap 10) (Z.shiftl ptype 6)) ssap)
              && (Z.lor (Z.lor (Z.shiftl dsap 10) (Z.shiftl ptype 6)) ssap
                  <=? 65535)) eqn:E; [|discriminate].
    apply andb_true_iff in E. destruct E as [E _]. apply Z.leb_le. exact E. }
  apply Z.lor_nonneg in Hw. destruct Hw as [Hw Hs0].
  apply Z.lor_nonneg in Hw. destruct Hw as [Hd0 Hp0].
  apply Z.shiftl_nonneg in Hd0. apply Z.shiftl_nonneg in Hp0.
  destruct (@encode_header_ok ptype dsap ssap ltac:(lia) ltac:(lia) ltac:(lia))
    as (hi' & lo' & Hhdr & Hfields).
  unfold ProtocolDataUnit.encode_header, raise_if in Hhdr.
  rewrite !gtb_false in Hhdr by lia.
  rewrite pack_cons_H, H, pack_nil in Hhdr. cbn [bind app] in Hhdr.
  apply Ok_inj in Hhdr. injection Hhdr as <- <-. exact Hfields.
Qed.

Lemma encode_header_fields (ptype dsap ssap : Z) (hd : list byte) :
  ProtocolDataUnit.encode_header ptype dsap ssap = Ok hd -> ptype <= 15 ->
  exists hi lo,
    hd = [hi; lo]
    /\ Z.shiftr (Z_of_byte hi) 2 = dsap
    /\ Z.land (Z_of_byte lo) 63 = ssap
    /\ Z.land (Z.shiftr (Z_of_byte hi * 256 + Z_of_byte lo) 6) 15 = ptype.
Proof.
  intros H Hp. unfold ProtocolDataUnit.encode_header, raise_if in H.
  destruct (dsap >? 63) eqn:Ed; [discriminate|].
  destruct (ssap >? 63) eqn:Es; [discriminate|].
  rewrite Z.gtb_ltb in Ed, Es. apply Z.ltb_ge in Ed. apply Z.ltb_ge in Es.
  rewrite pack_cons_H in H. apply bind_inv in H. destruct H as (x & Hx & H).
  rewrite pack_nil in H. cbn [bind] in H. apply Ok_inj in H. subst hd.
  destruct (pack_H_inv _ Hx) as (hi & lo & -> & _).
  exists hi, lo. split; [reflexivity|].
  apply header_word_fields; assumption.
Qed.

Lemma numbered_encode_header_fields (ptype dsap ssap : Z) (ns nr : option Z)
      (hd : list byte) :
  NumberedProtocolDataUnit.encode_header ptype dsap ssap ns nr = Ok hd ->
  ptype <= 15 ->
  exists hi lo tl,
    hd = hi :: lo :: tl
    /\ Z.shiftr (Z_of_byte hi) 2 = dsap
    /\ Z.land (Z_of_byte lo) 63 = ssap
    /\ Z.land (Z.shiftr (Z_of_byte hi * 256 + Z_of_byte lo) 6) 15 = ptype.
Proof.
  intros H Hp. unfold NumberedProtocolDataUnit.encode_header, raise_if in H.
  destruct (dsap >? 63) eqn:Ed; [discriminate|].
  destruct (ssap >? 63) eqn:Es; [discriminate|].
  rewrite Z.gtb_ltb in Ed, Es. apply Z.ltb_ge in Ed. apply Z.ltb_ge in Es.
  destruct (match nr with Some r => r >? 15 | None => false end); [discriminate|].
  destruct (match ns with Some s => truthy s && (s >? 15) | None => false end);
    [discriminate|].
  destruct nr as [r|]; [|discriminate].
  rewrite pack_cons_H in H. apply bind_inv in H. destruct H as (x & Hx & H).
  apply bind_inv in H. destruct H as (tl & _ & H). apply Ok_inj in H. subst hd.
  destruct (pack_H_inv _ Hx) as (hi & lo & -> & _).
  exists hi, lo, tl. split; [reflexivity|].
  apply header_word_fields; assumption.
Qed.

(** X20.  The encoding of a PDU starts with the two header bytes, and they
    hold the attributes [dsap], [ptype] and [ssap] in their six, four and
    six bits: for a PDU of a class of the dispatch table other than Frame
    Reject, the type code that [decode] dispatches on is the one of the
    class. *)
Theorem encode_header_dispatch (v : pdu) (b : list byte) :
  encode v = Ok b -> ptype_of v <= 15 ->
  exists h0 h1 tl,
    b = h0 :: h1 :: tl
    /\ Z.shiftr (Z_of_byte h0) 2 = dsap_of v
    /\ Z.land (Z_of_byte h1) 63 = ssap_of v
    /\ Z.land (Z.shiftr (Z_of_byte h0 * 256 + Z_of_byte h1) 6) 15 = ptype_of v
    /\ (forall c, pdu_type_map (ptype_of v) = Some c ->
                  class_of v <> Cls.FrameReject ->
                  class_of v <> Cls.UnknownProtocolDataUnit ->
                  c = class_of v).
Proof.
  intros H Hp.
  assert (Hc : forall c, pdu_type_map (ptype_of v) = Some c ->
                         class_of v <> Cls.FrameReject ->
                         class_of v <> Cls.UnknownProtocolDataUnit ->
                         c = class_of v).
  { intros c Hm Hf Hu. destruct v; cbn in *; congruence. }
  assert (Hhdr : (exists hd p,
                     ProtocolDataUnit.encode_header (ptype_of v) (dsap_of v)
                                                    (ssap_of v) = Ok hd
                     /\ b = hd ++ p)
                 \/ (exists ns nr hd p,
                        NumberedProtocolDataUnit.encode_header
                          (ptype_of v) (dsap_of v) (ssap_of v) ns nr = Ok hd
                        /\ b = hd ++ p)).
  { destruct v; cbn [encode ptype_of dsap_of ssap_of] in *;
      unfold Symmetry.encode, ParameterExchange.encode, AggregatedFrame.encode,
        UnnumberedInformation.encode, Connect.encode, Disconnect.encode,
        ConnectionComplete.encode, DisconnectedMode.encode, FrameReject.encode,
        ServiceNameLookup.encode, DataProtectionSetup.encode,
        Information.encode, ReceiveReady.encode, ReceiveNotReady.encode,
        UnknownProtocolDataUnit.encode in H.
    all: try (left; exists b, []; rewrite app_nil_r; split; [exact H | reflexivity]).
    all: try (right; do 2 eexists; exists b, []; rewrite app_nil_r;
              split; [exact H | reflexivity]).
    all: unbind H; try (apply Ok_inj in H; subst b).
    all: repeat match goal with
                | E : add_if _ _ _ _ = Ok _ |- _ =>
                    apply add_if_prefix in E; destruct E as (? & ->)
                | E : ServiceNameLookup.add_all _ _ _ _ = Ok _ |- _ =>
                    apply add_all_prefix in E; destruct E as (? & ->)
                | E : AggregatedFrame.join _ _ = Ok _ |- _ =>
                    apply join_prefix in E; destruct E as (? & ->)
                end.
    all: rewrite <- ?app_assoc.
    all: try (left; do 2 eexists; split; [eassumption | reflexivity]).
    all: try (right; do 4 eexists; split; [eassumption | reflexivity]). }
  destruct Hhdr as [(hd & p & Hhd & ->)|(ns & nr & hd & p & Hhd & ->)].
  - destruct (@encode_header_fields _ _ _ _ Hhd Hp) as (h0 & h1 & -> & Hf).
    exists h0, h1, p. split; [reflexivity|].
    destruct Hf as (? & ? & ?). repeat split; assumption.
  - destruct (@numbered_encode_header_fields _ _ _ _ _ _ Hhd Hp)
      as (h0 & h1 & tl & -> & Hf).
    exists h0, h1, (tl ++ p). split; [reflexivity|].
    destruct Hf as (? & ? & ?). repeat split; assumption.
Qed.

Lemma encode_header_dispatch_witness :
  exists h0 h1 tl,
    [x09; x20; x05; x01; x04]%byte = h0 :: h1 :: tl
    /\ Z.shiftr (Z_of_byte h0) 2 = dsap_of (CONNECT 2 32 128 4 [])
    /\ Z.land (Z_of_byte h1) 63 = ssap_of (CONNECT 2 32 128 4 [])
    /\ Z.land (Z.shiftr (Z_of_byte h0 * 256 + Z_of_byte h1) 6) 15
       = ptype_of (CONNECT 2 32 128 4 [])
    /\ (forall c, pdu_type_map (ptype_of (CONNECT 2 32 128 4 [])) = Some c ->
                  class_of (CONNECT 2 32 128 4 []) <> Cls.FrameReject ->
                  class_of (CONNECT 2 32 128 4 []) <> Cls.UnknownProtocolDataUnit ->
                  c = class_of (CONNECT 2 32 128 4 [])).
Proof.
  apply (@encode_header_dispatch (CONNECT 2 32 128 4 [])); [reflexivity|].
  cbn. lia.
Defined.

(** ** Service name lookup *)

Lemma snl_run_written (ts : list (Z * value)) :
  Forall (fun tv => tlv_ok (fst tv) (snd tv) = true) ts ->
  forall st,
    run_opts ServiceNameLookup.body (written ts) st
    = Ok (ServiceNameLookup.mk
            (ServiceNameLookup.sdreq st ++ sdreq_values ts)
            (ServiceNameLookup.sdres st ++ sdres_values ts)).
Proof.
  induction ts as [|[T V] ts IH]; intros Hok st.
  - destruct st. cbn [written map run_opts sdreq_values sdres_values
                      ServiceNameLookup.sdreq ServiceNameLookup.sdres].
    rewrite !app_nil_r. reflexivity.
  - inversion Hok as [|? ? HTV Hrest]; subst. cbn [fst snd] in HTV.
    specialize (IH Hrest).
    unfold written. cbn [map run_opts fst snd]. fold (written ts).
    unfold ServiceNameLookup.body at 1.
    destruct (T =? Param.SDREQ) eqn:E8.
    + apply Z.eqb_eq in E8. subst T. destruct V; try discriminate.
      cbn [bind Param.SDREQ Param.SDRES Z.eqb Pos.eqb].
      rewrite IH.
      cbn [ServiceNameLookup.sdreq ServiceNameLookup.sdres
           sdreq_values sdres_values Param.SDREQ Z.eqb Pos.eqb].
      rewrite <- app_assoc. reflexivity.
    + cbn [bind]. destruct (T =? Param.SDRES) eqn:E9.
      * apply Z.eqb_eq in E9. subst T. destruct V; try discriminate.
        cbn [bind]. rewrite IH.
        cbn [ServiceNameLookup.sdreq ServiceNameLookup.sdres
             sdreq_values sdres_values Param.SDRES Z.eqb Pos.eqb].
        rewrite <- app_assoc. reflexivity.
      * cbn [bind]. rewrite IH. cbn [sdreq_values sdres_values].
        destruct V; rewrite ?E8, ?E9; reflexivity.
Qed.

(** X21.  A Service Name Lookup PDU whose payload is any sequence of
    well-formed TLVs decodes to the service discovery requests of the
    sequence and to its responses, each list in the order of the sequence;
    TLVs of other types leave no trace. *)
Theorem snl_decode_collects (dsap ssap : Z) (ts : list (Z * value)) :
  0 <= dsap <= 63 -> 0 <= ssap <= 63 ->
  Forall (fun tv => tlv_ok (fst tv) (snd tv) = true) ts ->
  exists hd payload,
    ProtocolDataUnit.encode_header 9 dsap ssap = Ok hd
    /\ add_opts (written ts) [] = Ok payload
    /\ decode (hd ++ payload) 0 None
       = Ok (SNL dsap ssap (sdreq_values ts) (sdres_values ts)).
Proof.
  intros Hd Hs Hts.
  destruct (@encode_header_ok 9 dsap ssap ltac:(lia) ltac:(lia) ltac:(lia))
    as (hi & lo & Hhdr & Ed & Es & Et).
  assert (Hok : opts_ok (written ts)).
  { unfold opts_ok, written. apply Forall_map.
    revert Hts. apply Forall_impl. intros [T V] H _. exact H. }
  destruct (tlv_run_exists ServiceNameLookup.body [] Hok) as (p & Hadd & Hloop).
  cbn [app] in Hadd.
  exists [hi; lo], p. split; [exact Hhdr|]. split; [exact Hadd|].
  unfold decode, size_of.
  assert (Hat : at_ ([hi; lo] ++ p) 0 (hi :: lo :: p ++ []))
    by (rewrite app_nil_r; apply at_start).
  assert (Hat2 : at_ ([hi; lo] ++ p) (0 + 2) (p ++ []))
    by (apply (at_skip [hi; lo] (p ++ []) Hat); reflexivity).
  pose proof (len_nonneg p) as Hp.
  assert (Hlen : len ([hi; lo] ++ p) = 2 + len p)
    by (rewrite len_app, !len_cons, len_nil; lia).
  remember ([hi; lo] ++ p) as data eqn:Edata.
  rewrite (@decode_n_dispatch (List.length data) data 0 (len data)
                              hi lo (p ++ []) Hat) by lia.
  rewrite Et. cbn [pdu_type_map class_decode]. unfold ServiceNameLookup.decode.
  rewrite (decode_header_at (size := len data) Hat) by lia.
  cbn [bind]. rewrite Ed, Es.
  replace (len data - 2) with (len p) by lia.
  rewrite (Hloop data (0 + 2) [] ServiceNameLookup.init Hat2).
  rewrite (snl_run_written Hts). cbn [bind]. reflexivity.
Qed.

Lemma snl_decode_collects_witness :
  exists hd payload,
    ProtocolDataUnit.encode_header 9 1 1 = Ok hd
    /\ add_opts (written [(8, V_tid_sn 1 [x61]%byte); (6, V_bytes [x62]%byte);
                          (9, V_pair 2 16); (8, V_tid_sn 3 [])]) [] = Ok payload
    /\ decode (hd ++ payload) 0 None
       = Ok (SNL 1 1 [(1, [x61]%byte); (3, [])] [(2, 16)]).
Proof.
  apply (@snl_decode_collects 1 1
           [(8, V_tid_sn 1 [x61]%byte); (6, V_bytes [x62]%byte);
            (9, V_pair 2 16); (8, V_tid_sn 3 [])]); [lia | lia |].
  repeat constructor.
Defined.

(** ** Bytes after the last entry of an aggregated frame *)

Lemma read_short (data : buffer) (offset : Z) (rest : list byte) (n : nat) :
  at_ data offset rest -> (List.length rest < n)%nat ->
  read data offset n = Raise StructError.
Proof.
  intros Hat Hn. destruct (at_len Hat) as [Hlen Ho]. unfold read.
  rewrite (proj2 (Z.ltb_ge offset 0)) by lia. cbv zeta.
  rewrite (proj2 (Z.ltb_ge offset 0)) by lia. cbn [orb].
  rewrite (proj2 (Z.ltb_lt (len data - offset) (Z.of_nat n)))
    by (unfold len in *; lia).
  reflexivity.
Qed.

Section AgfTail.
Variable dec : buffer -> Z -> Z -> result pdu.

(** The loop on the entries that [encode] wrote and [k] more bytes: the
    entries are read back, and the loop goes on behind them. *)
Lemma agf_loop_joined_then (l : list pdu) :
  forall es hd acc,
    mapM encode l = Ok es ->
    Forall (fun e => len e <= 65535) es ->
    exists q,
      AggregatedFrame.join hd es = Ok (hd ++ q)
      /\ forall data offset rest k,
          (forall p e off' rest',
              In p l -> encode p = Ok e -> at_ data off' (e ++ rest') ->
              dec data off' (len e) = Ok p) ->
          at_ data offset (q ++ rest) -> 0 < k ->
          AggregatedFrame.loop dec data offset (len q + k) acc
          = AggregatedFrame.loop dec data (offset + len q) k (acc ++ l).
Proof.
  induction l as [|p l IH]; intros es hd acc Hm Hfit.
  - cbn [mapM] in Hm. apply Ok_inj in Hm. subst es. exists []. split.
    + cbn [AggregatedFrame.join]. rewrite app_nil_r. reflexivity.
    + intros data offset rest k _ _ _.
      rewrite len_nil, Z.add_0_l, Z.add_0_r, app_nil_r. reflexivity.
  - cbn [mapM] in Hm. apply bind_inv in Hm. destruct Hm as (e & He & Hm).
    apply bind_inv in Hm. destruct Hm as (es' & Hes & Hm).
    apply Ok_inj in Hm. subst es.
    inversion Hfit as [|? ? Hfe Hfes]; subst.
    pose proof (len_nonneg e) as He0.
    destruct (@pack_H_cons_some [] (len e) [] [] ltac:(lia) pack_nil)
      as (h1 & h0 & Hpk & Hw).
    destruct (IH es' (hd ++ [h1; h0] ++ e) (acc ++ [p]) Hes Hfes)
      as (q & Hjoin & Hloop).
    exists (([h1; h0] ++ e) ++ q). split.
    + cbn [AggregatedFrame.join]. rewrite Hpk. cbn [bind]. rewrite Hjoin.
      rewrite <- !app_assoc. reflexivity.
    + intros data offset rest k Hdec Hat Hk.
      rewrite <- !app_assoc in Hat.
      assert (Hat2 : at_ data (offset + 2) (e ++ q ++ rest))
        by (apply (at_skip [h1; h0] (e ++ q ++ rest) Hat); reflexivity).
      assert (Hat3 : at_ data (offset + 2 + len e) (q ++ rest))
        by (apply (at_skip e (q ++ rest) Hat2); reflexivity).
      pose proof (len_nonneg q) as Hq0.
      assert (Hlen : len (([h1; h0] ++ e) ++ q) = 2 + len e + len q)
        by (rewrite !len_app, !len_cons, len_nil; lia).
      rewrite agf_loop_eq. zcmp.
      rewrite (unpack_H_at Hat), Hw. cbn [bind].
      rewrite (Hdec p e (offset + 2) (q ++ rest) (or_introl eq_refl) He Hat2).
      cbn [bind].
      replace (len (([h1; h0] ++ e) ++ q) + k - 2 - len e) with (len q + k) by lia.
      rewrite (Hloop data (offset + 2 + len e) rest k); [| |exact Hat3|exact Hk].
      * replace (offset + len (([h1; h0] ++ e) ++ q))
          with (offset + 2 + len e + len q) by lia.
        rewrite <- app_assoc. reflexivity.
      * intros p' e' off' rest' Hin. apply Hdec. right. exact Hin.
Qed.
End AgfTail.

(** X22.  Bytes behind the last entry of an aggregated frame are taken for
    one more entry.  A single byte makes [decode] raise [struct.error],
    when it reads the two-byte length.  Two bytes or more are a length: a
    length of 0 or 1, and a length beyond the end of the buffer, make
    [decode] raise [DecodeError]. *)
Theorem agf_trailing_bytes (aggregate : list pdu) (b : list byte) :
  canonical (AGF 0 0 aggregate) = true ->
  encode (AGF 0 0 aggregate) = Ok b ->
  (forall x, decode (b ++ [x]) 0 None = Raise StructError)
  /\ (forall s1 s0 rest,
         Z_of_byte s1 * 256 + Z_of_byte s0 < 2
         \/ len rest < Z_of_byte s1 * 256 + Z_of_byte s0 ->
         is_DecodeError (decode (b ++ s1 :: s0 :: rest) 0 None)).
Proof.
  intros Hc Hb. cbn [canonical Z.eqb andb] in Hc.
  destruct (mapM_fits _ Hc) as (es & Hes & Hfit).
  destruct (@encode_header_ok 2 0 0 ltac:(lia) ltac:(lia) ltac:(lia))
    as (hi & lo & Hhdr & Hd & Hs & Ht).
  assert (Hq : forall dec,
             exists q,
               AggregatedFrame.join [hi; lo] es = Ok ([hi; lo] ++ q)
               /\ forall data offset rest k,
                   (forall p e off' rest',
                       In p aggregate -> encode p = Ok e ->
                       at_ data off' (e ++ rest') ->
                       dec data off' (len e) = Ok p) ->
                   at_ data offset (q ++ rest) -> 0 < k ->
                   AggregatedFrame.loop dec data offset (len q + k) []
                   = AggregatedFrame.loop dec data (offset + len q) k
                                          ([] ++ aggregate))
    by (intros dec; apply (@agf_loop_joined_then dec aggregate es [hi; lo] []
                                                  Hes Hfit)).
  destruct (Hq (fun _ _ _ => Raise RecursionDepth)) as (q & Hjoin & _).
  assert (Eb : b = [hi; lo] ++ q).
  { cbn [encode] in Hb. unfold AggregatedFrame.encode in Hb.
    rewrite Hhdr in Hb. cbn [bind] in Hb. rewrite Hes in Hb. cbn [bind] in Hb.
    congruence. }
  subst b. pose proof (len_nonneg q) as Hq0.
  (* decoding the frame and a tail: the entries, then the loop on the tail *)
  assert (Htail : forall tail,
             0 < len tail ->
             decode (([hi; lo] ++ q) ++ tail) 0 None
             = (agg <- AggregatedFrame.loop
                         (decode_n (S (List.length (([hi; lo] ++ q) ++ tail))))
                         (([hi; lo] ++ q) ++ tail) (2 + len q) (len tail)
                         aggregate ;;
                Ok (AGF 0 0 agg))).
  { intros tail Hk. unfold decode, size_of.
    remember (([hi; lo] ++ q) ++ tail) as data eqn:Edata.
    assert (Hat : at_ data 0 (hi :: lo :: q ++ tail))
      by (subst data; rewrite <- app_assoc; apply at_start).
    assert (Hat2 : at_ data (0 + 2) (q ++ tail))
      by (apply (at_skip [hi; lo] (q ++ tail) Hat); reflexivity).
    assert (Hlen : len data = 2 + len q + len tail)
      by (subst data; rewrite !len_app, !len_cons, len_nil; lia).
    rewrite <- (@decode_n_mono (S (List.length data)) (S (S (List.length data))))
      by first [lia | apply no_rd_decode_n; [lia | intros _; unfold len; lia]].
    rewrite (@decode_n_dispatch _ data 0 (len data) hi lo (q ++ tail) Hat) by lia.
    rewrite Ht. cbn [pdu_type_map class_decode]. unfold AggregatedFrame.decode.
    rewrite (decode_header_at (size := len data) Hat) by lia.
    cbn [bind]. rewrite Hd, Hs. unfold raise_if. cbn [Z.eqb negb].
    replace (len data - 2) with (len q + len tail) by lia.
    destruct (Hq (decode_n (S (List.length data)))) as (q' & Hjoin' & Hloop).
    rewrite Hjoin in Hjoin'. apply Ok_inj in Hjoin'.
    apply app_inv_head in Hjoin'. subst q'.
    rewrite (Hloop data (0 + 2) tail (len tail)); [reflexivity| |exact Hat2|exact Hk].
    intros p e off' rest' Hin He Hat'.
    rewrite forallb_forall in Hc. specialize (Hc p Hin).
    apply andb_true_iff in Hc. destruct Hc as [Hcp _].
    destruct (roundtrip_n p Hcp) as (b' & Hb' & Hdec).
    rewrite He in Hb'. apply Ok_inj in Hb'. subst b'.
    apply (Hdec _ data off' rest'); [|exact Hat'].
    pose proof (depth_le_len p He) as Hdepth.
    pose proof (at_fits _ _ Hat') as Hfits.
    destruct (at_len Hat') as [_ Hoff]. unfold len in *. lia. }
  split.
  - intros x. rewrite Htail by (rewrite len_cons, len_nil; lia).
    rewrite agf_loop_eq. rewrite len_cons, len_nil. cbn [Z.add Z.gtb Z.compare Pos.add].
    assert (Hat : at_ (([hi; lo] ++ q) ++ [x]) (2 + len q) [x]).
    { replace (2 + len q) with (len ([hi; lo] ++ q))
        by (rewrite len_app, !len_cons, len_nil; lia).
      apply at_app. }
    unfold unpack_H. rewrite (read_short Hat) by (cbn; lia). reflexivity.
  - intros s1 s0 rest Hn.
    pose proof (len_nonneg rest) as Hr.
    rewrite Htail by (rewrite !len_cons; lia).
    rewrite agf_loop_eq. rewrite gtb_true by (rewrite !len_cons; lia).
    assert (Hat : at_ (([hi; lo] ++ q) ++ s1 :: s0 :: rest) (2 + len q)
                      (s1 :: s0 :: rest)).
    { replace (2 + len q) with (len ([hi; lo] ++ q))
        by (rewrite len_app, !len_cons, len_nil; lia).
      apply at_app. }
    rewrite (unpack_H_at Hat). cbn [bind].
    assert (Hlen : len (([hi; lo] ++ q) ++ s1 :: s0 :: rest) = 4 + len q + len rest)
      by (rewrite !len_app, !len_cons, len_nil; lia).
    unfold is_DecodeError.
    destruct (Z_lt_dec (len rest) (Z_of_byte s1 * 256 + Z_of_byte s0)) as [Hgt|Hle].
    + rewrite decode_n_exceeds by lia. eexists. reflexivity.
    + destruct (@decode_n_short (List.length (([hi; lo] ++ q) ++ s1 :: s0 :: rest))
                  (([hi; lo] ++ q) ++ s1 :: s0 :: rest) (2 + len q + 2)
                  (Z_of_byte s1 * 256 + Z_of_byte s0) ltac:(lia)) as (msg & Hmsg).
      rewrite Hmsg. eexists. reflexivity.
Qed.

Lemma agf_trailing_bytes_witness :
  (forall x, decode ([x00; x80; x00; x03; x1d; xc0; x03]%byte ++ [x]) 0 None
             = Raise StructError)
  /\ (forall s1 s0 rest,
         Z_of_byte s1 * 256 + Z_of_byte s0 < 2
         \/ len rest < Z_of_byte s1 * 256 + Z_of_byte s0 ->
         is_DecodeError
           (decode ([x00; x80; x00; x03; x1d; xc0; x03]%byte ++ s1 :: s0 :: rest)
                   0 None)).
Proof. apply (@agf_trailing_bytes [DM 7 0 3]); reflexivity. Defined.

(** ** An entry that is longer than its frame *)

(** Decoding an encoded frame, some bytes behind it, and a size that ends
    [k] bytes behind the frame: the entries of the frame are read back, and
    the loop goes on behind them with [k] for the size that is left. *)
Lemma decode_agf_then (aggregate : list pdu) (b tail : list byte) (k : Z) :
  canonical (AGF 0 0 aggregate) = true ->
  encode (AGF 0 0 aggregate) = Ok b ->
  0 < k -> len b + k <= len (b ++ tail) ->
  decode (b ++ tail) 0 (Some (len b + k))
  = (agg <- AggregatedFrame.loop (decode_n (S (List.length (b ++ tail))))
                                 (b ++ tail) (len b) k aggregate ;;
     Ok (AGF 0 0 agg)).
Proof.
  intros Hc Hb Hk Hfit. cbn [canonical Z.eqb andb] in Hc.
  destruct (mapM_fits _ Hc) as (es & Hes & Hfits).
  destruct (@encode_header_ok 2 0 0 ltac:(lia) ltac:(lia) ltac:(lia))
    as (hi & lo & Hhdr & Hd & Hs & Ht).
  destruct (@agf_loop_joined_then (decode_n (S (List.length (b ++ tail))))
                                  aggregate es [hi; lo] [] Hes Hfits)
    as (q & Hjoin & Hloop).
  assert (Eb : b = [hi; lo] ++ q).
  { cbn [encode] in Hb. unfold AggregatedFrame.encode in Hb.
    rewrite Hhdr in Hb. cbn [bind] in Hb. rewrite Hes in Hb. cbn [bind] in Hb.
    congruence. }
  pose proof (len_nonneg q) as Hq0.
  assert (Hlb : len b = 2 + len q)
    by (subst b; rewrite len_app, !len_cons, len_nil; lia).
  unfold decode, size_of.
  remember (b ++ tail) as data eqn:Edata.
  assert (Hat : at_ data 0 (hi :: lo :: q ++ tail))
    by (subst data b; rewrite <- app_assoc; apply at_start).
  assert (Hat2 : at_ data (0 + 2) (q ++ tail))
    by (apply (at_skip [hi; lo] (q ++ tail) Hat); reflexivity).
  rewrite <- (@decode_n_mono (S (List.length data)) (S (S (List.length data))))
    by first [lia | apply no_rd_decode_n; [lia | intros _; unfold len; lia]].
  rewrite (@decode_n_dispatch _ data 0 (len b + k) hi lo (q ++ tail) Hat) by lia.
  rewrite Ht. cbn [pdu_type_map class_decode]. unfold AggregatedFrame.decode.
  rewrite (decode_header_at (size := len b + k) Hat) by lia.
  cbn [bind]. rewrite Hd, Hs. unfold raise_if. cbn [Z.eqb negb].
  replace (len b + k - 2) with (len q + k) by lia.
  rewrite (Hloop data (0 + 2) tail k); [| |exact Hat2|exact Hk].
  - replace (0 + 2 + len q) with (len b) by lia. reflexivity.
  - intros p e off' rest' Hin He Hat'.
    rewrite forallb_forall in Hc. specialize (Hc p Hin).
    apply andb_true_iff in Hc. destruct Hc as [Hcp _].
    destruct (roundtrip_n p Hcp) as (b' & Hb' & Hdec).
    rewrite He in Hb'. apply Ok_inj in Hb'. subst b'.
    apply (Hdec _ data off' rest'); [|exact Hat'].
    pose proof (depth_le_len p He) as Hdepth.
    pose proof (at_fits _ _ Hat') as Hfits'.
    destruct (at_len Hat') as [_ Hoff]. unfold len in *. lia.
Qed.

(** C10.  The length that an entry of an aggregated frame declares is
    checked against the end of the buffer and never against the size of
    the frame.  Take the encoding [b] of a frame and, behind it, one more
    entry [p]: the two bytes [hi lo] of its length and its encoding [e].
    With a [size] that ends inside that entry, in its length or in [e],
    the entry declares more bytes than the frame has left; [decode]
    returns the frame with [p] as its last entry all the same, read from
    bytes that lie behind [size].  Only when the buffer itself ends before
    the declared length does [decode] raise [DecodeError]. *)
Theorem agf_entry_overruns_frame (aggregate : list pdu) (p : pdu)
        (b e rest : list byte) (hi lo : byte) (size : Z) :
  canonical (AGF 0 0 aggregate) = true ->
  encode (AGF 0 0 aggregate) = Ok b ->
  canonical p = true ->
  encode p = Ok e ->
  Z_of_byte hi * 256 + Z_of_byte lo = len e ->
  len b < size < len b + 2 + len e ->
  decode (b ++ hi :: lo :: e ++ rest) 0 (Some size)
  = Ok (AGF 0 0 (aggregate ++ [p]))
  /\ forall cut,
      len cut < len e ->
      is_DecodeError (decode (b ++ hi :: lo :: cut) 0 (Some size)).
Proof.
  intros Hc Hb Hcp He Hw Hsize.
  pose proof (len_nonneg b) as Hb0. pose proof (len_nonneg e) as He0.
  pose proof (len_nonneg rest) as Hr0.
  assert (Hafter : forall tail,
             len b + (size - len b) <= len (b ++ hi :: lo :: tail) ->
             decode (b ++ hi :: lo :: tail) 0 (Some size)
             = (q <- decode_n (S (List.length (b ++ hi :: lo :: tail)))
                              (b ++ hi :: lo :: tail) (len b + 2) (len e) ;;
                agg <- AggregatedFrame.loop
                         (decode_n (S (List.length (b ++ hi :: lo :: tail))))
                         (b ++ hi :: lo :: tail) (len b + 2 + len e)
                         (size - len b - 2 - len e) (aggregate ++ [q]) ;;
                Ok (AGF 0 0 agg))).
  { intros tail Hfit.
    replace size with (len b + (size - len b)) at 1 by lia.
    rewrite (@decode_agf_then aggregate b (hi :: lo :: tail) (size - len b)
                              Hc Hb ltac:(lia) Hfit).
    rewrite agf_loop_eq. rewrite gtb_true by lia.
    rewrite (unpack_H_at (at_app b (hi :: lo :: tail))), Hw. cbn [bind].
    destruct (decode_n _ _ (len b + 2) (len e)); reflexivity. }
  split.
  - rewrite Hafter
      by (rewrite len_app, !len_cons, len_app; lia).
    assert (Hat : at_ (b ++ hi :: lo :: e ++ rest) (len b + 2) (e ++ rest))
      by (apply (at_skip [hi; lo] (e ++ rest) (at_app b _)); reflexivity).
    destruct (roundtrip_n p Hcp) as (e' & He' & Hdec).
    rewrite He in He'. apply Ok_inj in He'. subst e'.
    rewrite (Hdec _ _ _ rest); [|
      pose proof (depth_le_len p He) as Hdepth;
      pose proof (at_fits _ _ Hat) as Hfits; unfold len in *; lia | exact Hat].
    cbn [bind]. rewrite agf_loop_eq. rewrite gtb_false by lia. reflexivity.
  - intros cut Hcut. pose proof (len_nonneg cut) as Hc0.
    assert (Hlen : len (b ++ hi :: lo :: cut) = len b + 2 + len cut)
      by (rewrite len_app, !len_cons; lia).
    destruct (Z_lt_dec (len (b ++ hi :: lo :: cut)) size) as [Hbig|Hin].
    + unfold decode, size_of. rewrite decode_n_exceeds by lia.
      eexists. reflexivity.
    + rewrite Hafter by lia. rewrite decode_n_exceeds by lia.
      eexists. reflexivity.
Qed.

Lemma agf_entry_overruns_frame_witness :
  decode ([x00; x80]%byte ++ x00 :: x03 :: [x1d; xc0; x03] ++ [xff])%byte
         0 (Some 4)
  = Ok (AGF 0 0 ([] ++ [DM 7 0 3]))
  /\ forall cut,
      len cut < len [x1d; xc0; x03]%byte ->
      is_DecodeError (decode ([x00; x80]%byte ++ x00 :: x03 :: cut)%byte
                             0 (Some 4)).
Proof.
  apply (@agf_entry_overruns_frame [] (DM 7 0 3));
    first [reflexivity | vm_compute; split; reflexivity].
Defined.

(** ** Rejecting a PDU *)





(** ** A round trip of a decoded value *)

Lemma connect_normalizes (dsap ssap miu rw : Z) (sn : list byte) :
  in_range (CONNECT dsap ssap miu rw sn) = true ->
  decodes_to (CONNECT dsap ssap miu rw sn)
             (normalize (CONNECT dsap ssap miu rw sn)) 4 Connect.decode.
Proof.
  cbn [in_range normalize]. intros Hc. unfold miu_ok in Hc. bools Hc.
  unfold decodes_to.
  destruct (@encode_header_ok 4 dsap ssap ltac:(lia) ltac:(lia) ltac:(lia))
    as (hi & lo & Hhdr & Hd & Hs & Ht).
  set (opts := [(truthy miu && (miu >? 128), Param.MIUX, V_int (miu - 128));
                (truthy rw && negb (rw =? 1), Param.RW, V_int rw);
                (negb (len sn =? 0), Param.SN, V_bytes sn)]).
  assert (Hok : opts_ok opts) by (unfold opts; opts_ok_tac).
  destruct (tlv_run_exists Connect.body [hi; lo] Hok) as (p & Hadd & Hloop).
  exists hi, lo, p. split; [|split; [exact Ht|]].
  - cbn [encode]. unfold Connect.encode. rewrite Hhdr. exact Hadd.
  - intros data offset rest Hat. change (hi :: lo :: p) with ([hi; lo] ++ p) in *.
    rewrite <- app_assoc in Hat.
    assert (Hat2 : at_ data (offset + 2) (p ++ rest))
      by (apply (at_skip [hi; lo] (p ++ rest) Hat); reflexivity).
    pose proof (len_nonneg p) as Hp.
    assert (Hlen : len ([hi; lo] ++ p) = 2 + len p)
      by (rewrite len_app, !len_cons, len_nil; lia).
    unfold Connect.decode.
    rewrite (decode_header_at (size := len ([hi; lo] ++ p)) Hat) by lia.
    cbn [bind]. replace (len ([hi; lo] ++ p) - 2) with (len p) by lia.
    rewrite (Hloop data (offset + 2) rest Connect.init Hat2).
    rewrite Hd, Hs. unfold opts. cbn [run_opts].
    unfold Connect.body, Connect.init, Param.MIUX, Param.RW, Param.SN.
    destruct (truthy miu && (miu >? 128)) eqn:E1;
      destruct (truthy rw && negb (rw =? 1)) eqn:E2;
      destruct (negb (len sn =? 0)) eqn:E3;
      destruct (rw =? 0) eqn:E4;
      cbn [bind Connect.miu Connect.rw Connect.sn Z.eqb Pos.eqb];
      fields_eq.
    all: try (cbn in *; congruence).
    all: f_equal; f_equal; try lia.
    all: destruct sn; [reflexivity | rewrite len_cons in *;
                                       pose proof (len_nonneg sn); lia].
Qed.

Lemma cc_normalizes (dsap ssap miu rw : Z) :
  in_range (CC dsap ssap miu rw) = true ->
  decodes_to (CC dsap ssap miu rw) (normalize (CC dsap ssap miu rw)) 6
             ConnectionComplete.decode.
Proof.
  cbn [in_range normalize]. intros Hc. unfold miu_ok in Hc. bools Hc.
  unfold decodes_to.
  destruct (@encode_header_ok 6 dsap ssap ltac:(lia) ltac:(lia) ltac:(lia))
    as (hi & lo & Hhdr & Hd & Hs & Ht).
  set (opts := [(truthy miu && (miu >? 128), Param.MIUX, V_int (miu - 128));
                (truthy rw && negb (rw =? 1), Param.RW, V_int rw)]).
  assert (Hok : opts_ok opts) by (unfold opts; opts_ok_tac).
  destruct (tlv_run_exists ConnectionComplete.body [hi; lo] Hok)
    as (p & Hadd & Hloop).
  exists hi, lo, p. split; [|split; [exact Ht|]].
  - cbn [encode]. unfold ConnectionComplete.encode. rewrite Hhdr. exact Hadd.
  - intros data offset rest Hat. change (hi :: lo :: p) with ([hi; lo] ++ p) in *.
    rewrite <- app_assoc in Hat.
    assert (Hat2 : at_ data (offset + 2) (p ++ rest))
      by (apply (at_skip [hi; lo] (p ++ rest) Hat); reflexivity).
    pose proof (len_nonneg p) as Hp.
    assert (Hlen : len ([hi; lo] ++ p) = 2 + len p)
      by (rewrite len_app, !len_cons, len_nil; lia).
    unfold ConnectionComplete.decode.
    rewrite (decode_header_at (size := len ([hi; lo] ++ p)) Hat) by lia.
    cbn [bind]. replace (len ([hi; lo] ++ p) - 2) with (len p) by lia.
    rewrite (Hloop data (offset + 2) rest ConnectionComplete.init Hat2).
    rewrite Hd, Hs. unfold opts. cbn [run_opts].
    unfold ConnectionComplete.body, ConnectionComplete.init, Param.MIUX, Param.RW.
    destruct (truthy miu && (miu >? 128)) eqn:E1;
      destruct (truthy rw && negb (rw =? 1)) eqn:E2;
      destruct (rw =? 0) eqn:E4;
      cbn [bind ConnectionComplete.miu ConnectionComplete.rw Z.eqb Pos.eqb];
      fields_eq.
    all: try (cbn in *; congruence).
    all: f_equal; f_equal; lia.
Qed.

Lemma dps_normalizes (dsap ssap : Z) (ecpk rn : option (list byte)) :
  in_range (DPS dsap ssap ecpk rn) = true ->
  decodes_to (DPS dsap ssap ecpk rn) (normalize (DPS dsap ssap ecpk rn)) 10
             DataProtectionSetup.decode.
Proof.
  cbn [in_range normalize]. intros Hc.
  apply andb_true_iff in Hc. destruct Hc as [Hc Hrn].
  apply andb_true_iff in Hc. destruct Hc as [Hc Hecpk]. bools Hc.
  unfold decodes_to.
  destruct (@encode_header_ok 10 dsap ssap ltac:(lia) ltac:(lia) ltac:(lia))
    as (hi & lo & Hhdr & Hd & Hs & Ht).
  set (opts := [(DataProtectionSetup.present ecpk, Param.ECPK,
                 V_bytes (DataProtectionSetup.bytes_of ecpk));
                (DataProtectionSetup.present rn, Param.RN,
                 V_bytes (DataProtectionSetup.bytes_of rn))]).
  assert (Hok : opts_ok opts).
  { unfold opts, opts_ok. repeat apply Forall_cons; try apply Forall_nil;
      intros _; unfold tlv_ok, Param.ECPK, Param.RN, Param.SN;
      cbn [Z.eqb Pos.eqb orb andb].
    - destruct ecpk as [s|]; cbn [opt_bytes_ok DataProtectionSetup.bytes_of] in *;
        [exact Hecpk | reflexivity].
    - destruct rn as [s|]; cbn [opt_bytes_ok DataProtectionSetup.bytes_of] in *;
        [exact Hrn | reflexivity]. }
  destruct (tlv_run_exists DataProtectionSetup.body [hi; lo] Hok)
    as (p & Hadd & Hloop).
  exists hi, lo, p. split; [|split; [exact Ht|]].
  - cbn [encode]. unfold DataProtectionSetup.encode. rewrite Hhdr. exact Hadd.
  - intros data offset rest Hat. change (hi :: lo :: p) with ([hi; lo] ++ p) in *.
    rewrite <- app_assoc in Hat.
    assert (Hat2 : at_ data (offset + 2) (p ++ rest))
      by (apply (at_skip [hi; lo] (p ++ rest) Hat); reflexivity).
    pose proof (len_nonneg p) as Hp.
    assert (Hlen : len ([hi; lo] ++ p) = 2 + len p)
      by (rewrite len_app, !len_cons, len_nil; lia).
    unfold DataProtectionSetup.decode.
    rewrite (decode_header_at (size := len ([hi; lo] ++ p)) Hat) by lia.
    cbn [bind]. replace (len ([hi; lo] ++ p) - 2) with (len p) by lia.
    rewrite (Hloop data (offset + 2) rest DataProtectionSetup.init Hat2).
    rewrite Hd, Hs. unfold opts. cbn [run_opts].
    unfold DataProtectionSetup.body, DataProtectionSetup.init, Param.ECPK, Param.RN.
    destruct ecpk as [[|e0 ecpk]|]; destruct rn as [[|r0 rn]|];
      cbn [DataProtectionSetup.present DataProtectionSetup.bytes_of drop_empty];
      rewrite ?len_nil, ?len_cons;
      repeat match goal with
             | |- context [1 + len ?l =? 0] =>
                 replace (1 + len l =? 0) with false
                   by (symmetry; apply Z.eqb_neq; pose proof (len_nonneg l); lia)
             end;
      cbn [negb Z.eqb bind DataProtectionSetup.ecpk DataProtectionSetup.rn Pos.eqb];
      reflexivity.
Qed.

Lemma pax_normalizes (dsap ssap : Z) (version : Z * Z) (miu wks lto lsc dpc : Z) :
  in_range (PAX dsap ssap version miu wks lto lsc dpc) = true ->
  decodes_to (PAX dsap ssap version miu wks lto lsc dpc)
             (normalize (PAX dsap ssap version miu wks lto lsc dpc)) 1
             ParameterExchange.decode.
Proof.
  cbn [in_range normalize]. destruct version as [major minor]. cbn [fst snd].
  intros Hc. unfold miu_ok in Hc. bools Hc. subst dsap ssap.
  unfold decodes_to.
  assert (Hq : exists q, lto = q * 10 /\ 0 <= q <= 255).
  { exists (lto / 10). Z.to_euclidean_division_equations. lia. }
  destruct Hq as (q & -> & Hq).
  assert (Eq : q * 10 / 10 = q) by (apply Z.div_mul; lia).
  assert (Eopt : Z.lor (Z.shiftl dpc 2) lsc = dpc * 4 + lsc)
    by (rewrite lor_shiftl by (change (2 ^ 2) with 4; lia); reflexivity).
  destruct (@encode_header_ok 1 0 0 ltac:(lia) ltac:(lia) ltac:(lia))
    as (hi & lo & Hhdr & Hd & Hs & Ht).
  set (opts := [(true, Param.VERSION, V_pair major minor);
                (truthy miu && (miu >? 128), Param.MIUX, V_int (miu - 128));
                (truthy wks, Param.WKS, V_int wks);
                (truthy (q * 10) && negb (q * 10 =? 100), Param.LTO, V_int q);
                (truthy lsc || truthy dpc, Param.OPT, V_int (dpc * 4 + lsc))]).
  assert (Hok : opts_ok opts) by (unfold opts; opts_ok_tac).
  destruct (tlv_run_exists ParameterExchange.body [hi; lo] Hok)
    as (p & Hadd & Hloop).
  exists hi, lo, p. split; [|split; [exact Ht|]].
  - cbn [encode]. unfold ParameterExchange.encode. rewrite Hhdr.
    cbn [fst snd]. rewrite Eq, Eopt. exact Hadd.
  - intros data offset rest Hat. change (hi :: lo :: p) with ([hi; lo] ++ p) in *.
    rewrite <- app_assoc in Hat.
    assert (Hat2 : at_ data (offset + 2) (p ++ rest))
      by (apply (at_skip [hi; lo] (p ++ rest) Hat); reflexivity).
    pose proof (len_nonneg p) as Hp.
    assert (Hlen : len ([hi; lo] ++ p) = 2 + len p)
      by (rewrite len_app, !len_cons, len_nil; lia).
    unfold ParameterExchange.decode.
    rewrite (decode_header_at (size := len ([hi; lo] ++ p)) Hat) by lia.
    cbn [bind]. rewrite Hd, Hs. unfold raise_if. cbn [Z.eqb negb].
    replace (len ([hi; lo] ++ p) - 2) with (len p) by lia.
    rewrite (Hloop data (offset + 2) rest ParameterExchange.init Hat2).
    unfold opts. cbn [run_opts].
    unfold ParameterExchange.body, ParameterExchange.init, Param.VERSION,
      Param.MIUX, Param.WKS, Param.LTO, Param.OPT.
    assert (Elsc : Z.land (dpc * 4 + lsc) 3 = lsc).
    { change 3 with (2 ^ 2 - 1). rewrite land_mask by lia.
      change (2 ^ 2) with 4. Z.to_euclidean_division_equations. lia. }
    assert (Edpc : Z.land (Z.shiftr (dpc * 4 + lsc) 2) 1 = dpc).
    { pose proof (@land_mask (Z.shiftr (dpc * 4 + lsc) 2) 1 ltac:(lia)) as Hm.
      change (2 ^ 1 - 1) with 1 in Hm. rewrite Hm, shiftr_div by lia.
      change (2 ^ 2) with 4. change (2 ^ 1) with 2.
      Z.to_euclidean_division_equations. lia. }
    destruct (truthy miu && (miu >? 128)) eqn:E1;
      destruct (truthy wks) eqn:E2;
      destruct (truthy (q * 10) && negb (q * 10 =? 100)) eqn:E3;
      destruct (truthy lsc || truthy dpc) eqn:E4;
      destruct (wks =? 0) eqn:E5;
      destruct (q * 10 =? 0) eqn:E6;
      destruct ((lsc =? 0) && (dpc =? 0)) eqn:E7;
      cbn [bind ParameterExchange.version ParameterExchange.miu
             ParameterExchange.wks ParameterExchange.lto ParameterExchange.lsc
             ParameterExchange.dpc Z.eqb Pos.eqb];
      rewrite ?Elsc, ?Edpc; fields_eq.
    all: try (cbn in *; congruence).
    all: try lia.
    all: try (f_equal; f_equal; lia).
Qed.

Lemma decodes_to_decode (v v' : pdu) (t : Z) (c : Cls.class)
      (dec : buffer -> Z -> Z -> result pdu) :
  decodes_to v v' t dec ->
  pdu_type_map t = Some c ->
  (forall f data offset size,
      class_decode f c data offset size = dec data offset size) ->
  exists b, encode v = Ok b /\ decode b 0 None = Ok v'.
Proof.
  intros (hi & lo & tl & Henc & Ht & Hdec) Hmap Hcls.
  exists (hi :: lo :: tl). split; [exact Henc|].
  unfold decode, size_of.
  pose proof (len_nonneg tl) as Htl.
  rewrite (@decode_n_dispatch _ (hi :: lo :: tl) 0 _ hi lo tl);
    [|apply at_start | rewrite !len_cons; lia | lia].
  rewrite Ht, Hmap, Hcls. apply (Hdec _ 0 []).
  rewrite app_nil_r. apply at_start.
Qed.

(** X24.  What a round trip makes of a value that [decode] can return (a
    Frame Reject and a frame with entries apart): [encode] accepts it, and
    [decode] of the bytes returns the value with the attributes that were
    zero or empty at the defaults of the constructor (a WKS of 0 becomes 3,
    an LTO of 0 becomes 100, LSC and DPC both 0 become 3 and 0, a receive
    window of 0 becomes 1, an empty ECPK or RN becomes [None]).  That value
    is one the wire format represents exactly, so another round trip
    changes nothing. *)
Theorem roundtrip_normalizes (v : pdu) :
  in_range v = true -> entries v = [] -> class_of v <> Cls.FrameReject ->
  exists b,
    encode v = Ok b
    /\ decode b 0 None = Ok (normalize v)
    /\ canonical (normalize v) = true.
Proof.
  intros Hr He Hf.
  assert (Hcan : canonical v = true ->
                 normalize v = v ->
                 exists b,
                   encode v = Ok b
                   /\ decode b 0 None = Ok (normalize v)
                   /\ canonical (normalize v) = true).
  { intros Hc Hn. rewrite Hn.
    destruct (roundtrip_n v Hc) as (b & Hb & Hdec). exists b.
    split; [exact Hb|]. split; [|exact Hc].
    pose proof (depth_le_len v Hb) as Hdepth.
    unfold decode, size_of.
    apply (Hdec _ b 0 []); [unfold len in Hdepth; lia|].
    rewrite app_nil_r. apply at_start. }
  destruct v; cbn [class_of entries] in *; try discriminate;
    try (apply Hcan; [exact Hr | reflexivity]); try contradiction.
  - (* PAX *)
    clear Hcan.
    destruct (decodes_to_decode (pax_normalizes _ _ _ _ _ _ _ _ Hr)
                                (c := Cls.ParameterExchange) eq_refl
                                (fun _ _ _ _ => eq_refl))
      as (b & Hb & Hd).
    exists b. split; [exact Hb|]. split; [exact Hd|].
    cbn [in_range normalize canonical] in *. destruct version as [major minor].
    cbn [fst snd] in *. unfold miu_ok, u4 in *. bools Hr.
    destruct (wks =? 0) eqn:E1; destruct (lto =? 0) eqn:E2;
      destruct ((lsc =? 0) && (dpc =? 0)) eqn:E3; norm_bools;
      repeat match goal with
             | H : _ \/ _ |- _ => destruct H
             end;
      subst; bools_intro;
      try (apply negb_true_iff; apply andb_false_iff;
           first [left; apply Z.eqb_neq; lia | right; apply Z.eqb_neq; lia]);
      try reflexivity;
      apply Z.leb_le; Z.to_euclidean_division_equations; lia.
  - (* AGF without entries *)
    subst aggregate. apply Hcan; [|reflexivity].
    cbn [in_range canonical forallb] in *. exact Hr.
  - (* CONNECT *)
    clear Hcan.
    destruct (decodes_to_decode (connect_normalizes _ _ _ _ _ Hr)
                                (c := Cls.Connect) eq_refl
                                (fun _ _ _ _ => eq_refl))
      as (b & Hb & Hd).
    exists b. split; [exact Hb|]. split; [exact Hd|].
    cbn [in_range normalize canonical] in *.
    unfold miu_ok, rw_ok, u6, u8 in *. bools Hr.
    destruct (rw =? 0) eqn:E1; norm_bools; bools_intro.
  - (* CC *)
    clear Hcan.
    destruct (decodes_to_decode (cc_normalizes _ _ _ _ Hr)
                                (c := Cls.ConnectionComplete) eq_refl
                                (fun _ _ _ _ => eq_refl))
      as (b & Hb & Hd).
    exists b. split; [exact Hb|]. split; [exact Hd|].
    cbn [in_range normalize canonical] in *.
    unfold miu_ok, rw_ok, u6, u8 in *. bools Hr.
    destruct (rw =? 0) eqn:E1; norm_bools; bools_intro.
  - (* DPS *)
    clear Hcan.
    destruct (decodes_to_decode (dps_normalizes _ _ _ _ Hr)
                                (c := Cls.DataProtectionSetup) eq_refl
                                (fun _ _ _ _ => eq_refl))
      as (b & Hb & Hd).
    exists b. split; [exact Hb|]. split; [exact Hd|].
    cbn [in_range normalize canonical] in *.
    apply andb_true_iff in Hr. destruct Hr as [Hr Hrn].
    apply andb_true_iff in Hr. destruct Hr as [Hr Hecpk]. rewrite Hr.
    cbn [andb].
    assert (E : forall x, opt_bytes_ok x = true -> bytes_ok (drop_empty x) = true).
    { intros [[|a s]|] Hx; cbn [drop_empty bytes_ok opt_bytes_ok] in *;
        try reflexivity.
      rewrite len_cons in *. pose proof (len_nonneg s).
      apply Z.leb_le in Hx. bools_intro. }
    rewrite (E _ Hecpk), (E _ Hrn). reflexivity.
Qed.

Lemma roundtrip_normalizes_witness :
  exists b,
    encode (PAX 0 0 (1, 1) 128 0 0 0 0) = Ok b
    /\ decode b 0 None = Ok (PAX 0 0 (1, 1) 128 3 100 3 0)
    /\ canonical (PAX 0 0 (1, 1) 128 3 100 3 0) = true.
Proof.
  apply (@roundtrip_normalizes (PAX 0 0 (1, 1) 128 0 0 0 0));
    [reflexivity | reflexivity | discriminate].
Defined.
